(** * secondBrain: the inbox classification pipeline of [bin/process_inbox.py]

    A shallow embedding of the script and the properties of its routing
    pipeline: the prefix router, the response parser, the retry loop around
    the external classifier, confidence gating, per-category filing and the
    audit log.

    Conventions of the embedding:
    - a Python [str] is a [string]; its characters are read as the code
      points 0..255 (Latin-1), on which [str.lower] keeps the length;
    - a Python value is a [json] value ([None] is [JNull]); every dynamic
      value of the script is a string, a float or comes out of [json.loads];
    - a float is a binary64 number, as a [spec_float] of the Standard
      Library with precision 53 and exponent bound 1024;
    - the interpreter's library functions and the processes outside the
      script ([json.loads], [json.dumps], [float] on a string, the [ollama]
      subprocess, the alias file) are the fields of an environment [Env];
    - the body of the loop of [main] runs in a state monad over the
      database connection with two ways to leave early: a raised exception
      and the [continue] statement. *)

From Stdlib Require Import String Ascii List ZArith Bool Lia DecimalString.
From Stdlib Require Import SpecFloat Sorted.
Import ListNotations.
Local Open Scope string_scope.

(** ** Python strings *)

Module Py.

Definition ord (c : ascii) : N := N_of_ascii c.

Definition between (lo hi n : N) : bool := ((lo <=? n) && (n <=? hi))%N.

(** [str.isspace] on the code points below 256. *)
Definition isspace (c : ascii) : bool :=
  let n := ord c in
  between 9 13 n || between 28 32 n || (n =? 133)%N || (n =? 160)%N.

Fixpoint lstrip (s : string) : string :=
  match s with
  | String c r => if isspace c then lstrip r else s
  | EmptyString => EmptyString
  end.

Fixpoint rstrip (s : string) : string :=
  match s with
  | EmptyString => EmptyString
  | String c r =>
      match rstrip r with
      | EmptyString => if isspace c then EmptyString else String c EmptyString
      | r' => String c r'
      end
  end.

(** [s.strip()] *)
Definition strip (s : string) : string := rstrip (lstrip s).

(** Upper-case letters of Latin-1: A-Z, and U+00C0..U+00DE but U+00D7. *)
Definition isupper (c : ascii) : bool :=
  let n := ord c in
  between 65 90 n || (between 192 222 n && negb (n =? 215)%N).

Definition lower_char (c : ascii) : ascii :=
  if isupper c then ascii_of_N (ord c + 32) else c.

(** [s.lower()] *)
Fixpoint lower (s : string) : string :=
  match s with
  | EmptyString => EmptyString
  | String c r => String (lower_char c) (lower r)
  end.

(** [s.startswith(pfx)] *)
Definition startswith (s pfx : string) : bool := String.prefix pfx s.

(** [s[n:]] *)
Fixpoint drop (n : nat) (s : string) : string :=
  match n, s with
  | O, _ => s
  | S n', String _ r => drop n' r
  | S _, EmptyString => EmptyString
  end.

(** [s[:n]] *)
Fixpoint take (n : nat) (s : string) {struct s} : string :=
  match s, n with
  | String c r, S n' => String c (take n' r)
  | _, _ => EmptyString
  end.

(** Cased letters for [str.title]: the ASCII letters.  The script calls
    [title] only on the kinship words, which are ASCII. *)
Definition islower_ascii (c : ascii) : bool := between 97 122 (ord c).
Definition isupper_ascii (c : ascii) : bool := between 65 90 (ord c).
Definition iscased (c : ascii) : bool := islower_ascii c || isupper_ascii c.

Definition upper_char (c : ascii) : ascii :=
  if islower_ascii c then ascii_of_N (ord c - 32) else c.

Fixpoint title_from (previous_is_cased : bool) (s : string) : string :=
  match s with
  | EmptyString => EmptyString
  | String c r =>
      String (if iscased c
              then if previous_is_cased then lower_char c else upper_char c
              else c)
             (title_from (iscased c) r)
  end.

(** [s.title()] *)
Definition title (s : string) : string := title_from false s.

(** The characters [\w] of a [str] pattern: alphanumerics and the
    underscore, here on the code points below 256. *)
Definition isword (c : ascii) : bool :=
  let n := ord c in
  between 48 57 n || between 65 90 n || between 97 122 n || (n =? 95)%N
  || (n =? 170)%N || (n =? 178)%N || (n =? 179)%N || (n =? 181)%N
  || (n =? 185)%N || (n =? 186)%N || between 188 190 n
  || between 192 214 n || between 216 246 n || between 248 255 n.

(** [str(n)] of a natural number. *)
Definition str_of_nat (n : nat) : string :=
  NilEmpty.string_of_uint (Nat.to_uint n).

End Py.

(** ** Floats *)

Definition float : Type := spec_float.

Definition prec : Z := 53.
Definition emax : Z := 1024.

(** The float nearest to the integer [z] (ties to even). *)
Definition float_of_Z (z : Z) : float := binary_normalize prec emax z 0 false.

(** The float nearest to [m * 10 ^ e], the value of a decimal literal. *)
Definition float_of_decimal (m e : Z) : float :=
  match m with
  | Z0 => S754_zero false
  | _ =>
      if (0 <=? e)%Z then binary_normalize prec emax (m * 10 ^ e) 0 false
      else
        let '(q, e', l) :=
          SFdiv_core_binary prec emax (Z.abs m) 0 (10 ^ (- e)) 0 in
        binary_round_aux prec emax (m <? 0)%Z q e' l
  end.

Definition is_inf (f : float) : bool :=
  match f with S754_infinity _ => true | _ => false end.

Definition float_zero : float := S754_zero false.
Definition float_one : float := Eval vm_compute in float_of_Z 1.

(** ** Python values *)

#[local] Set Warnings "-register-all".

Inductive json : Type :=
| JNull
| JBool (b : bool)
| JInt (z : Z)
| JFloat (f : float)
| JStr (s : string)
| JArr (l : list json)
| JObj (d : list (string * json)).

(** A [dict] with string keys keeps its items in insertion order. *)
Definition dict : Type := list (string * json).

Fixpoint dict_get (d : dict) (k : string) : option json :=
  match d with
  | [] => None
  | (k', v) :: r => if k' =? k then Some v else dict_get r k
  end.

Definition dict_mem (d : dict) (k : string) : bool :=
  match dict_get d k with Some _ => true | None => false end.

(** [d[k] = v]: an existing key keeps its place. *)
Fixpoint dict_set (d : dict) (k : string) (v : json) : dict :=
  match d with
  | [] => [(k, v)]
  | (k', v') :: r =>
      if k' =? k then (k', v) :: r else (k', v') :: dict_set r k v
  end.

(** Truth value of a Python value. *)
Definition truthy (v : json) : bool :=
  match v with
  | JNull => false
  | JBool b => b
  | JInt z => negb (z =? 0)%Z
  | JFloat f => negb (SFeqb f float_zero)
  | JStr s => negb (s =? "")
  | JArr l => match l with [] => false | _ => true end
  | JObj d => match d with [] => false | _ => true end
  end.

(** [a or b] *)
Definition py_or (a b : json) : json := if truthy a then a else b.

(** [isinstance(v, dict)] *)
Definition is_dict (v : json) : bool :=
  match v with JObj _ => true | _ => false end.

(** [v == s] for a string [s]. *)
Definition eq_str (v : json) (s : string) : bool :=
  match v with JStr s' => s' =? s | _ => false end.

(** [v in (s1, s2, ...)] for a tuple of strings. *)
Definition in_strs (v : json) (l : list string) : bool := existsb (eq_str v) l.

(** ** Exceptions *)

Inductive exn : Type :=
| RuntimeError (msg : string)
| OSError (msg : string)
| ValueError
| TypeError
| AttributeError
| OverflowError
| ProgrammingError.

(** [str(e)], for the two exceptions that carry a message built by the
    script or by the operating system. *)
Definition str_exn (e : exn) : string :=
  match e with
  | RuntimeError msg | OSError msg => msg
  | _ => ""
  end.

(** ** The environment of the script *)

(** What [subprocess.run] finds: the process cannot be started, or it
    exits with a return code and its two decoded output streams. *)
Inductive proc_result : Type :=
| SpawnError (msg : string)
| Exited (returncode : Z) (stdout stderr : string).

Record Env : Type := {
  (** [json.loads]; [None] when it raises. *)
  json_loads : string -> option json;
  (** [json.dumps] *)
  json_dumps : json -> string;
  (** [float(s)] on a string; [None] when it raises [ValueError]. *)
  float_of_str : string -> option float;
  (** The [n]-th run of [ollama run MODEL] of this process, on its input. *)
  subprocess_run : nat -> string -> proc_result;
  (** The text of the alias file; [None] when it cannot be read. *)
  aliases_file : option string
}.

(** ** The store *)

Inductive sqlval : Type :=
| SNull
| SInt (z : Z)
| SReal (f : float)
| SText (s : string).

Record inbox_row : Type := {
  inbox_id : Z;
  inbox_raw_text : string;
  inbox_status : string;
  inbox_category : sqlval;
  inbox_confidence : sqlval;
  inbox_model : sqlval;
  inbox_error : sqlval
}.

(** The column [updated_at] of [people] and [projects] takes the wall-clock
    time of the store and is left out. *)
Record people_row : Type := {
  people_name : sqlval;
  people_context : sqlval;
  people_follow_up : sqlval;
  people_last_contact : sqlval
}.

Record projects_row : Type := {
  projects_name : sqlval;
  projects_status : sqlval;
  projects_next_action : sqlval;
  projects_notes : sqlval
}.

Record ideas_row : Type := {
  ideas_title : sqlval;
  ideas_one_liner : sqlval;
  ideas_notes : sqlval
}.

Record admin_row : Type := {
  admin_task : sqlval;
  admin_due_date : sqlval;
  admin_status : sqlval
}.

Record log_row : Type := {
  log_event_name : string;
  log_inbox_id : Z;
  log_details : string
}.

Record store : Type := {
  inbox : list inbox_row;
  people : list people_row;
  projects : list projects_row;
  ideas : list ideas_row;
  admin : list admin_row;
  log_events : list log_row
}.

(** The columns one [UPDATE inbox SET ... WHERE id=?] assigns.  The status
    is a literal of the statement; [None] stands for a column that the
    statement does not name. *)
Record inbox_update : Type := {
  set_status : string;
  set_category : option sqlval;
  set_confidence : option sqlval;
  set_model : sqlval;
  set_error : sqlval
}.

(** The statements the script sends through its cursor, with their bound
    parameters. *)
Inductive stmt : Type :=
| InsertPeople (name context follow_up last_contact : sqlval)
| InsertProjects (name status next_action notes : sqlval)
| InsertIdeas (title one_liner notes : sqlval)
| InsertAdmin (task due_date status : sqlval)
| InsertLogEvents (event : string) (id : Z) (details : string)
| UpdateInbox (u : inbox_update) (id : Z).

Definition apply_update (u : inbox_update) (id : Z) (r : inbox_row) : inbox_row :=
  if (inbox_id r =? id)%Z then
    {| inbox_id := inbox_id r;
       inbox_raw_text := inbox_raw_text r;
       inbox_status := set_status u;
       inbox_category := match set_category u with
                         | Some v => v | None => inbox_category r end;
       inbox_confidence := match set_confidence u with
                           | Some v => v | None => inbox_confidence r end;
       inbox_model := set_model u;
       inbox_error := set_error u |}
  else r.

(** What a statement does to the tables. *)
Definition run_stmt (q : stmt) (t : store) : store :=
  match q with
  | InsertPeople a b c d =>
      {| inbox := inbox t;
         people := people t ++ [{| people_name := a; people_context := b;
                                   people_follow_up := c;
                                   people_last_contact := d |}];
         projects := projects t; ideas := ideas t; admin := admin t;
         log_events := log_events t |}
  | InsertProjects a b c d =>
      {| inbox := inbox t; people := people t;
         projects := projects t ++ [{| projects_name := a; projects_status := b;
                                       projects_next_action := c;
                                       projects_notes := d |}];
         ideas := ideas t; admin := admin t; log_events := log_events t |}
  | InsertIdeas a b c =>
      {| inbox := inbox t; people := people t; projects := projects t;
         ideas := ideas t ++ [{| ideas_title := a; ideas_one_liner := b;
                                 ideas_notes := c |}];
         admin := admin t; log_events := log_events t |}
  | InsertAdmin a b c =>
      {| inbox := inbox t; people := people t; projects := projects t;
         ideas := ideas t;
         admin := admin t ++ [{| admin_task := a; admin_due_date := b;
                                 admin_status := c |}];
         log_events := log_events t |}
  | InsertLogEvents event id details =>
      {| inbox := inbox t; people := people t; projects := projects t;
         ideas := ideas t; admin := admin t;
         log_events := log_events t ++ [{| log_event_name := event;
                                           log_inbox_id := id;
                                           log_details := details |}] |}
  | UpdateInbox u id =>
      {| inbox := map (apply_update u id) (inbox t);
         people := people t; projects := projects t; ideas := ideas t;
         admin := admin t; log_events := log_events t |}
  end.

(** The connection: the tables as the cursor sees them, the tables as of
    the last commit, the number of classifier processes run so far, and the
    statements executed so far. *)
Record state : Type := {
  db : store;
  committed : store;
  calls : nat;
  executed : list stmt
}.

(** [sqlite3.connect]: a connection to the tables [t]. *)
Definition connect (t : store) : state :=
  {| db := t; committed := t; calls := 0; executed := [] |}.

(** ** The monad of the loop body *)

Inductive signal : Type :=
| Raise (e : exn)
| Continue.

Inductive outcome (A : Type) : Type :=
| Ok (a : A) (s : state)
| Stop (sg : signal) (s : state).
Arguments Ok {A} a s.
Arguments Stop {A} sg s.

Definition M (A : Type) : Type := state -> outcome A.

Definition ret {A} (a : A) : M A := fun s => Ok a s.

Definition bind {A B} (c : M A) (k : A -> M B) : M B :=
  fun s => match c s with
           | Ok a s' => k a s'
           | Stop sg s' => Stop sg s'
           end.

Definition raise {A} (e : exn) : M A := fun s => Stop (Raise e) s.

(** The value of an expression that may raise. *)
Definition lift {A} (r : exn + A) : M A :=
  match r with
  | inl e => raise e
  | inr a => ret a
  end.

(** The statement [continue]. *)
Definition continue_ {A} : M A := fun s => Stop Continue s.

(** [try: c except Exception as e: h e] *)
Definition try_except {A} (c : M A) (h : exn -> M A) : M A :=
  fun s => match c s with
           | Stop (Raise e) s' => h e s'
           | r => r
           end.

(** [if b: c] *)
Definition when (b : bool) (c : M unit) : M unit := if b then c else ret tt.

Declare Scope py_scope.
Delimit Scope py_scope with py.
Notation "x <- c1 ;; c2" := (bind c1 (fun x => c2))
  (at level 61, c1 at next level, right associativity) : py_scope.
Notation "c1 ;; c2" := (bind c1 (fun _ => c2))
  (at level 61, right associativity) : py_scope.
Local Open Scope py_scope.

(** [cur.execute] of a statement whose parameters are bound. *)
Definition execute (q : stmt) : M unit :=
  fun s => Ok tt {| db := run_stmt q (db s); committed := committed s;
                    calls := calls s; executed := executed s ++ [q] |}.

(** [con.commit()] *)
Definition commit : M unit :=
  fun s => Ok tt {| db := db s; committed := db s;
                    calls := calls s; executed := executed s |}.

(** ** Binding Python values to SQL parameters *)

Definition int64_min : Z := - 2 ^ 63.
Definition int64_max : Z := 2 ^ 63 - 1.

(** What [sqlite3] does with a parameter: [None], [int], [float] and [str]
    are bound ([bool] is an [int]; a NaN is stored as NULL), an integer
    outside 64 bits raises [OverflowError], a list or a dict is refused
    with [ProgrammingError] ([InterfaceError] before Python 3.11). *)
Definition adapt (v : json) : exn + sqlval :=
  match v with
  | JNull => inr SNull
  | JBool b => inr (SInt (if b then 1 else 0))
  | JInt z =>
      if ((int64_min <=? z) && (z <=? int64_max))%Z then inr (SInt z)
      else inl OverflowError
  | JFloat f => inr (match f with S754_nan => SNull | _ => SReal f end)
  | JStr s => inr (SText s)
  | JArr _ | JObj _ => inl ProgrammingError
  end.

(** [INSERT INTO people (name, context, follow_up, last_contact, updated_at)
     VALUES (?, ?, ?, ?, datetime('now'))] *)
Definition INSERT_people (name context follow_up last_contact : json) : M unit :=
  a <- lift (adapt name) ;; b <- lift (adapt context) ;;
  c <- lift (adapt follow_up) ;; d <- lift (adapt last_contact) ;;
  execute (InsertPeople a b c d).

(** [INSERT INTO projects (name, status, next_action, notes, updated_at)
     VALUES (?, ?, ?, ?, datetime('now'))] *)
Definition INSERT_projects (name status next_action notes : json) : M unit :=
  a <- lift (adapt name) ;; b <- lift (adapt status) ;;
  c <- lift (adapt next_action) ;; d <- lift (adapt notes) ;;
  execute (InsertProjects a b c d).

(** [INSERT INTO ideas (title, one_liner, notes) VALUES (?, ?, ?)] *)
Definition INSERT_ideas (title one_liner notes : json) : M unit :=
  a <- lift (adapt title) ;; b <- lift (adapt one_liner) ;;
  c <- lift (adapt notes) ;;
  execute (InsertIdeas a b c).

(** [INSERT INTO admin (task, due_date, status) VALUES (?, ?, ?)] *)
Definition INSERT_admin (task due_date status : json) : M unit :=
  a <- lift (adapt task) ;; b <- lift (adapt due_date) ;;
  c <- lift (adapt status) ;;
  execute (InsertAdmin a b c).

(** [UPDATE inbox SET status=<status>, category=?, confidence=?, model=?,
     error=? WHERE id=?] *)
Definition UPDATE_inbox (status : string)
    (category confidence model error : json) (id : Z) : M unit :=
  a <- lift (adapt category) ;; b <- lift (adapt confidence) ;;
  c <- lift (adapt model) ;; d <- lift (adapt error) ;;
  execute (UpdateInbox {| set_status := status; set_category := Some a;
                          set_confidence := Some b; set_model := c;
                          set_error := d |} id).

(** [UPDATE inbox SET status='needs_review', error=?, model=? WHERE id=?] *)
Definition UPDATE_inbox_error (error model : json) (id : Z) : M unit :=
  a <- lift (adapt error) ;; b <- lift (adapt model) ;;
  execute (UpdateInbox {| set_status := "needs_review"; set_category := None;
                          set_confidence := None; set_model := b;
                          set_error := a |} id).

(** ** The script *)

(** String literals of the script that contain quotation marks are written
    here with apostrophes; [dq] puts the quotation marks back. *)
Fixpoint dq (s : string) : string :=
  match s with
  | EmptyString => EmptyString
  | String c r =>
      String (if (Py.ord c =? 39)%N then ascii_of_N 34 else c) (dq r)
  end.

Definition MODEL : string := "phi4-mini:latest".
Definition CONF_THRESHOLD : float := Eval vm_compute in float_of_decimal 60 (-2).
Definition MAX_RETRIES : nat := 2.

Definition PROMPT : string := dq "
You are a strict JSON generator for a personal second-brain sorter.

Task: classify the user text into one of: people, projects, ideas, admin.
Then extract the relevant fields for that category.

Return ONLY valid JSON. No markdown. No commentary.

Schema:
{
  'category': 'people|projects|ideas|admin|unknown',
  'confidence': 0.0-1.0,
  'fields': { ...category-specific fields... },
  'title': 'short human-friendly name'
}

Category field rules:

people.fields:
- name: string (required; if missing -> category 'unknown' with low confidence)
- context: string (optional)
- follow_up: string (optional; specific next follow-up)
- last_contact: string (optional; ISO date YYYY-MM-DD if clearly present)

projects.fields:
- name: string (required)
- status: active|waiting|blocked|someday|done (default active)
- next_action: string (optional but preferred; must be concrete if possible)
- notes: string (optional)

ideas.fields:
- title: string (required)
- one_liner: string (optional; <= 25 words)
- notes: string (optional)

admin.fields:
- task: string (required)
- due_date: string (optional; ISO date YYYY-MM-DD if clear)
- status: open|done (default open)

If uncertain, set category='unknown' and confidence <= 0.50.

User text:
".

(** [re.search(r'\b(mom|mother|dad|father)\b', s)]: the alternatives in the
    order of the pattern. *)
Definition kin_terms : list string := ["mom"; "mother"; "dad"; "father"].

(** [\b] after a word character: the text ends or a non-word character
    follows. *)
Definition word_ends (rest : string) : bool :=
  match rest with
  | EmptyString => true
  | String c _ => negb (Py.isword c)
  end.

(** The first alternative that matches at the start of [s] and is followed
    by a word boundary. *)
Definition kin_here (s : string) : option string :=
  find (fun k => Py.startswith s k && word_ends (Py.drop (String.length k) s))
       kin_terms.

(** The group of the leftmost match; [prev_word] tells whether the character
    before [s] is a word character. *)
Fixpoint kin_search (prev_word : bool) (s : string) : option string :=
  match s with
  | EmptyString => None
  | String c r =>
      match (if prev_word then None else kin_here s) with
      | Some k => Some k
      | None => kin_search (Py.isword c) r
      end
  end.

(** [re.search(r'\{.*\}', s, flags=re.DOTALL)]: from the first opening brace
    to the last closing brace after it. *)
Fixpoint from_open_brace (s : string) : option string :=
  match s with
  | EmptyString => None
  | String c r => if (Py.ord c =? 123)%N then Some s else from_open_brace r
  end.

Fixpoint upto_last_close (s : string) : option string :=
  match s with
  | EmptyString => None
  | String c r =>
      match upto_last_close r with
      | Some t => Some (String c t)
      | None => if (Py.ord c =? 125)%N then Some (String c EmptyString) else None
      end
  end.

Definition search_braces (s : string) : option string :=
  match from_open_brace s with
  | Some t => upto_last_close t
  | None => None
  end.

(** [pre_route]: the pair [(None, None)] is [None]. *)
Definition pre_route (raw : string) : option (string * string) :=
  let s := Py.strip raw in
  let low := Py.lower s in
  let strip_prefix (pfx : string) := Py.strip (Py.drop (String.length pfx) s) in
  if Py.startswith low "admin:" then Some ("admin", strip_prefix "admin:")
  else if Py.startswith low "project:" then Some ("projects", strip_prefix "project:")
  else if Py.startswith low "projects:" then Some ("projects", strip_prefix "projects:")
  else if Py.startswith low "idea:" then Some ("ideas", strip_prefix "idea:")
  else if Py.startswith low "ideas:" then Some ("ideas", strip_prefix "ideas:")
  else if Py.startswith low "person:" then Some ("people", strip_prefix "person:")
  else if Py.startswith low "people:" then Some ("people", strip_prefix "people:")
  else None.

(** The method [get] of a dict; other values have no such method. *)
Definition py_get (v : json) (k : string) (default : json) : exn + json :=
  match v with
  | JObj d => inr (match dict_get d k with Some x => x | None => default end)
  | _ => inl AttributeError
  end.

(** The method [strip] of a string; other values have no such method. *)
Definition py_strip (v : json) : exn + string :=
  match v with
  | JStr s => inr (Py.strip s)
  | _ => inl AttributeError
  end.

Definition categories : list string := ["people"; "projects"; "ideas"; "admin"].

Section Script.

Variable E : Env.

(** [load_aliases]: any failure (no file, no JSON, no dict) gives [{}]. *)
Definition load_aliases : dict :=
  match aliases_file E with
  | None => []
  | Some text =>
      match json_loads E text with
      | Some (JObj data) =>
          fold_left (fun acc kv => dict_set acc (Py.lower (fst kv)) (snd kv))
                    data []
      | _ => []
      end
  end.

Definition ALIASES : dict := load_aliases.

(** [infer_person_name] *)
Definition infer_person_name (raw : string) : json :=
  let s := Py.lower (Py.strip raw) in
  match kin_search false s with
  | Some key =>
      match dict_get ALIASES key with
      | Some v => v
      | None => JStr (Py.title key)
      end
  | None => JStr ""
  end.

(** [extract_json]; the [None] it returns is [JNull]. *)
Definition extract_json (s : string) : json :=
  let s := Py.strip s in
  match json_loads E s with
  | Some v => v
  | None =>
      match search_braces s with
      | None => JNull
      | Some blob =>
          match json_loads E blob with
          | Some v => v
          | None => JNull
          end
      end
  end.

(** [ollama_call] *)
Definition ollama_call (prompt : string) : M string :=
  fun s =>
    let s' := {| db := db s; committed := committed s;
                 calls := S (calls s); executed := executed s |} in
    match subprocess_run E (calls s) prompt with
    | SpawnError msg => Stop (Raise (OSError msg)) s'
    | Exited returncode out err =>
        if negb (returncode =? 0)%Z
        then Stop (Raise (RuntimeError ("ollama failed: " ++ Py.strip err))) s'
        else Ok (Py.strip out) s'
    end.

(** [log_event]; [details] is a string at every call. *)
Definition log_event (event : string) (id : Z) (details : string) : M unit :=
  execute (InsertLogEvents event id
             (Py.take 2000 (if truthy (JStr details) then details else ""))).

(** [float(v)] *)
Definition py_float (v : json) : exn + float :=
  match v with
  | JFloat f => inr f
  | JInt z =>
      let f := float_of_Z z in
      if is_inf f then inl OverflowError else inr f
  | JBool b => inr (if b then float_one else float_zero)
  | JStr s =>
      match float_of_str E s with
      | Some f => inr f
      | None => inl ValueError
      end
  | JNull | JArr _ | JObj _ => inl TypeError
  end.

(** The people branch of the prefix router, lines 209-213: the name under
    which the remainder [clean] is filed. *)
Definition prefix_person_name (clean : string) : json :=
  let name := Py.strip clean in
  if dict_mem ALIASES (Py.lower name) then
    match dict_get ALIASES (Py.lower name) with
    | Some v => v
    | None => JStr name
    end
  else if existsb (String.eqb (Py.lower name)) kin_terms then
    py_or (infer_person_name name) (JStr (Py.title name))
  else JStr name.

(** Lines 176-237: the prefix pre-router. *)
Definition prefix_stage (id : Z) (raw : string) : M unit :=
  match pre_route raw with
  | None => ret tt
  | Some (cat, clean) =>
      when (clean =? "")
        (UPDATE_inbox "needs_review" (JStr cat) (JFloat float_one)
           (JStr "prefix") (JStr "empty after prefix") id ;;
         log_event "needs_review" id ("prefix " ++ cat ++ " but empty") ;;
         commit ;;
         continue_) ;;
      (if cat =? "admin" then
         INSERT_admin (JStr clean) (JStr "") (JStr "open")
       else if cat =? "projects" then
         INSERT_projects (JStr clean) (JStr "active") (JStr "") (JStr "")
       else if cat =? "ideas" then
         INSERT_ideas (JStr clean) (JStr "") (JStr "")
       else if cat =? "people" then
         let name := prefix_person_name clean in
         when (negb (truthy name))
           (UPDATE_inbox "needs_review" (JStr "people") (JFloat float_one)
              (JStr "prefix") (JStr "missing person name") id ;;
            log_event "needs_review" id "missing person name (prefix)" ;;
            commit ;;
            continue_) ;;
         INSERT_people name (JStr "") (JStr raw) (JStr "")
       else ret tt) ;;
      UPDATE_inbox "processed" (JStr cat) (JFloat float_one)
        (JStr "prefix") (JStr "") id ;;
      log_event "processed" id ("prefix_route -> " ++ cat) ;;
      commit ;;
      continue_
  end.

(** One attempt of the retry loop, lines 244-252: the accepted result, or
    the error text that [last_err] takes. *)
Definition attempt_once (raw : string) (attempt : nat) : M (json + string) :=
  try_except
    (out <- ollama_call (PROMPT ++ raw) ;;
     let parsed := extract_json out in
     if truthy parsed && is_dict parsed then ret (inl parsed)
     else ret (inr ("invalid json (attempt " ++ Py.str_of_nat attempt ++ ")")))
    (fun e => ret (inr (str_exn e))).

(** Lines 243-252: [for attempt in attempts], leaving at the first
    accepted result; the value is [(result, last_err)]. *)
Fixpoint retry_loop (raw : string) (attempts : list nat) (last_err : string)
  : M (json * string) :=
  match attempts with
  | [] => ret (JNull, last_err)
  | attempt :: rest =>
      r <- attempt_once raw attempt ;;
      match r with
      | inl result => ret (result, last_err)
      | inr err => retry_loop raw rest err
      end
  end.

(** Lines 284-301. *)
Definition file_people (id : Z) (raw : string) (fields : json) (confidence : float)
  : M unit :=
  v <- lift (py_get fields "name" JNull) ;;
  stripped <- lift (py_strip (py_or v (JStr ""))) ;;
  let name := if negb (truthy (JStr stripped)) then infer_person_name raw
              else JStr stripped in
  when (negb (truthy name))
    (UPDATE_inbox "needs_review" (JStr "people") (JFloat confidence)
       (JStr MODEL) (JStr "missing person name") id ;;
     log_event "needs_review" id "missing person name" ;;
     commit ;;
     continue_) ;;
  context <- lift (py_get fields "context" (JStr "")) ;;
  follow_up <- lift (py_get fields "follow_up" (JStr "")) ;;
  last_contact <- lift (py_get fields "last_contact" (JStr "")) ;;
  INSERT_people name context follow_up last_contact.

(** Lines 303-321. *)
Definition file_projects (id : Z) (fields : json) (confidence : float) : M unit :=
  v <- lift (py_get fields "name" JNull) ;;
  name <- lift (py_strip (py_or v (JStr ""))) ;;
  when (negb (truthy (JStr name)))
    (UPDATE_inbox "needs_review" (JStr "projects") (JFloat confidence)
       (JStr MODEL) (JStr "missing project name") id ;;
     log_event "needs_review" id "missing project name" ;;
     commit ;;
     continue_) ;;
  v <- lift (py_get fields "status" JNull) ;;
  status <- lift (py_strip (py_or v (JStr "active"))) ;;
  let status :=
    if negb (in_strs (JStr status) ["active"; "waiting"; "blocked"; "someday"; "done"])
    then "active" else status in
  next_action <- lift (py_get fields "next_action" (JStr "")) ;;
  notes <- lift (py_get fields "notes" (JStr "")) ;;
  INSERT_projects (JStr name) (JStr status) next_action notes.

(** Lines 323-337. *)
Definition file_ideas (id : Z) (result fields : json) (confidence : float)
  : M unit :=
  v <- lift (py_get fields "title" JNull) ;;
  t <- (if truthy v then ret v
        else w <- lift (py_get result "title" JNull) ;; ret (py_or w (JStr ""))) ;;
  title <- lift (py_strip t) ;;
  when (negb (truthy (JStr title)))
    (UPDATE_inbox "needs_review" (JStr "ideas") (JFloat confidence)
       (JStr MODEL) (JStr "missing idea title") id ;;
     log_event "needs_review" id "missing idea title" ;;
     commit ;;
     continue_) ;;
  one_liner <- lift (py_get fields "one_liner" (JStr "")) ;;
  notes <- lift (py_get fields "notes" (JStr "")) ;;
  INSERT_ideas (JStr title) one_liner notes.

(** Lines 339-357. *)
Definition file_admin (id : Z) (fields : json) (confidence : float) : M unit :=
  v <- lift (py_get fields "task" JNull) ;;
  task <- lift (py_strip (py_or v (JStr ""))) ;;
  when (negb (truthy (JStr task)))
    (UPDATE_inbox "needs_review" (JStr "admin") (JFloat confidence)
       (JStr MODEL) (JStr "missing admin task") id ;;
     log_event "needs_review" id "missing admin task" ;;
     commit ;;
     continue_) ;;
  v <- lift (py_get fields "status" JNull) ;;
  status <- lift (py_strip (py_or v (JStr "open"))) ;;
  let status :=
    if negb (in_strs (JStr status) ["open"; "done"]) then "open" else status in
  due_date <- lift (py_get fields "due_date" (JStr "")) ;;
  INSERT_admin (JStr task) due_date (JStr status).

(** Lines 263-364: validation, confidence gating and filing of an
    accepted result. *)
Definition route_result (id : Z) (raw : string) (result : json) : M unit :=
  category <- lift (py_get result "category" (JStr "unknown")) ;;
  c <- lift (py_get result "confidence" (JFloat float_zero)) ;;
  confidence <- lift (py_float (py_or c (JFloat float_zero))) ;;
  f <- lift (py_get result "fields" (JObj [])) ;;
  let fields := py_or f (JObj []) in
  when (negb (in_strs category categories) || SFltb confidence CONF_THRESHOLD)
    (UPDATE_inbox "needs_review"
       (if negb (in_strs category categories) then JStr "unknown" else category)
       (JFloat confidence) (JStr MODEL) (JStr "") id ;;
     log_event "needs_review" id (Py.take 2000 (json_dumps E result)) ;;
     commit ;;
     continue_) ;;
  (if eq_str category "people" then file_people id raw fields confidence
   else if eq_str category "projects" then file_projects id fields confidence
   else if eq_str category "ideas" then file_ideas id result fields confidence
   else if eq_str category "admin" then file_admin id fields confidence
   else ret tt) ;;
  UPDATE_inbox "processed" category (JFloat confidence) (JStr MODEL)
    (JStr "") id ;;
  log_event "processed" id (Py.take 2000 (json_dumps E result)) ;;
  commit.

(** Lines 239-364: the fallback through the classifier. *)
Definition fallback_stage (id : Z) (raw : string) : M unit :=
  r <- retry_loop raw (seq 0 (MAX_RETRIES + 1)) "" ;;
  let '(result, last_err) := r in
  when (negb (truthy result))
    (UPDATE_inbox_error (JStr last_err) (JStr MODEL) id ;;
     log_event "needs_review" id last_err ;;
     commit ;;
     continue_) ;;
  route_result id raw result.

(** The body of [for r in rows]. *)
Definition loop_body (r : Z * string) : M unit :=
  let '(id, raw) := r in
  prefix_stage id raw ;;
  fallback_stage id raw.

(** [for r in rows]: [continue] goes on with the next row, an exception
    leaves the loop. *)
Fixpoint for_rows (rows : list (Z * string)) : M unit :=
  match rows with
  | [] => ret tt
  | r :: rest =>
      fun s => match loop_body r s with
               | Ok _ s' | Stop Continue s' => for_rows rest s'
               | Stop (Raise e) s' => Stop (Raise e) s'
               end
  end.

(** [ORDER BY id ASC] *)
Fixpoint insert_by_id (r : inbox_row) (l : list inbox_row) : list inbox_row :=
  match l with
  | [] => [r]
  | x :: t => if (inbox_id r <=? inbox_id x)%Z then r :: l
              else x :: insert_by_id r t
  end.

Definition order_by_id (l : list inbox_row) : list inbox_row :=
  fold_right insert_by_id [] l.

(** [LIMIT ?]: a negative limit is no limit. *)
Definition sql_limit {A} (n : Z) (l : list A) : list A :=
  if (n <? 0)%Z then l else firstn (Z.to_nat n) l.

(** [SELECT id, raw_text FROM inbox WHERE status='unprocessed'
     ORDER BY id ASC LIMIT ?] *)
Definition SELECT_unprocessed (limit : Z) : M (list (Z * string)) :=
  n <- lift (adapt (JInt limit)) ;;
  fun s =>
    Ok (map (fun r => (inbox_id r, inbox_raw_text r))
            (sql_limit limit
               (order_by_id
                  (filter (fun r => inbox_status r =? "unprocessed")
                          (inbox (db s))))))
       s.

(** [main] *)
Definition main (limit : Z) : M Z :=
  rows <- SELECT_unprocessed limit ;;
  match rows with
  | [] => ret 0%Z
  | _ => for_rows rows ;; ret 0%Z
  end.

End Script.

(** ** A reference environment

    The library functions of the interpreter, for running the script on
    concrete inputs: a JSON reader and writer after [json.loads] and
    [json.dumps] with their default options, and [float] on a string.  The
    reader refuses a [\u] escape above U+00FF, which a [string] cannot hold.
    The general theorems hold for every environment and do not use this
    module. *)

Module Ref.

Definition is_ws (c : ascii) : bool :=
  let n := Py.ord c in (n =? 32)%N || (n =? 9)%N || (n =? 10)%N || (n =? 13)%N.

Fixpoint skip_ws (s : string) : string :=
  match s with
  | String c r => if is_ws c then skip_ws r else s
  | EmptyString => EmptyString
  end.

Definition is_digit (c : ascii) : bool := Py.between 48 57 (Py.ord c).
Definition digit_val (c : ascii) : Z := Z.of_N (Py.ord c) - 48.

Definition is_char (c : ascii) (n : N) : bool := (Py.ord c =? n)%N.

(** A run of decimal digits: its value after [acc], its length, the rest. *)
Fixpoint digits (s : string) (acc : Z) (n : nat) : Z * nat * string :=
  match s with
  | String c r =>
      if is_digit c then digits r (acc * 10 + digit_val c) (S n)
      else (acc, n, s)
  | EmptyString => (acc, n, s)
  end.

(** The optional fraction (a point and at least one digit) after the
    integer part [ip]: the mantissa, the number of fraction digits, the
    rest. *)
Definition fraction (ip : Z) (s : string) : option (Z * nat * string) :=
  match s with
  | String c r =>
      if is_char c 46 then
        let '(v, n, rest) := digits r ip 0 in
        match n with O => None | _ => Some (v, n, rest) end
      else None
  | EmptyString => None
  end.

(** The optional exponent: [e] or [E], an optional sign, digits. *)
Definition exponent (s : string) : option (Z * string) :=
  match s with
  | String c r =>
      if is_char c 101 || is_char c 69 then
        let '(neg, r1) :=
          match r with
          | String c1 r1 =>
              if is_char c1 45 then (true, r1)
              else if is_char c1 43 then (false, r1)
              else (false, r)
          | EmptyString => (false, r)
          end in
        let '(v, n, rest) := digits r1 0 0 in
        match n with
        | O => None
        | _ => Some ((if neg then - v else v)%Z, rest)
        end
      else None
  | EmptyString => None
  end.

(** A JSON number: an optional minus sign, an integer part without
    leading zero, an optional fraction, an optional exponent.  It is an
    [int] without fraction and exponent, a [float] otherwise. *)
Definition number (s : string) : option (json * string) :=
  let '(neg, s1) :=
    match s with
    | String c r => if is_char c 45 then (true, r) else (false, s)
    | EmptyString => (false, s)
    end in
  match s1 with
  | String c r =>
      if is_digit c then
        let '(ip, s2) :=
          if is_char c 48 then (0%Z, r)
          else let '(v, _, rest) := digits s1 0 0 in (v, rest) in
        let '(m, k, s3, has_frac) :=
          match fraction ip s2 with
          | Some (v, n, rest) => (v, n, rest, true)
          | None => (ip, O, s2, false)
          end in
        let '(ex, s4, has_exp) :=
          match exponent s3 with
          | Some (v, rest) => (v, rest, true)
          | None => (0%Z, s3, false)
          end in
        if has_frac || has_exp then
          let f := float_of_decimal m (ex - Z.of_nat k) in
          Some (JFloat (if neg then SFopp f else f), s4)
        else Some (JInt (if neg then - ip else ip), s4)
      else None
  | EmptyString => None
  end.

Definition hex_val (c : ascii) : option N :=
  let n := Py.ord c in
  if Py.between 48 57 n then Some (n - 48)%N
  else if Py.between 97 102 n then Some (n - 87)%N
  else if Py.between 65 70 n then Some (n - 55)%N
  else None.

(** The four hexadecimal digits of a [\u] escape. *)
Definition hex4 (s : string) : option (N * string) :=
  match s with
  | String a (String b (String c (String d r))) =>
      match hex_val a, hex_val b, hex_val c, hex_val d with
      | Some x, Some y, Some z, Some w =>
          Some (((x * 16 + y) * 16 + z) * 16 + w, r)%N
      | _, _, _, _ => None
      end
  | _ => None
  end.

(** The characters of a string literal up to its closing quotation mark. *)
Fixpoint string_body (fuel : nat) (s : string) : option (string * string) :=
  match fuel with
  | O => None
  | S fuel' =>
      match s with
      | EmptyString => None
      | String c r =>
          if is_char c 34 then Some (EmptyString, r)
          else if is_char c 92 then
            match r with
            | EmptyString => None
            | String e r' =>
                let plain (x : N) :=
                  match string_body fuel' r' with
                  | Some (t, rest) => Some (String (ascii_of_N x) t, rest)
                  | None => None
                  end in
                if is_char e 34 then plain 34%N
                else if is_char e 92 then plain 92%N
                else if is_char e 47 then plain 47%N
                else if is_char e 98 then plain 8%N
                else if is_char e 102 then plain 12%N
                else if is_char e 110 then plain 10%N
                else if is_char e 114 then plain 13%N
                else if is_char e 116 then plain 9%N
                else if is_char e 117 then
                  match hex4 r' with
                  | Some (x, r'') =>
                      if (x <? 256)%N then
                        match string_body fuel' r'' with
                        | Some (t, rest) => Some (String (ascii_of_N x) t, rest)
                        | None => None
                        end
                      else None
                  | None => None
                  end
                else None
            end
          else if (Py.ord c <? 32)%N then None
          else
            match string_body fuel' r with
            | Some (t, rest) => Some (String c t, rest)
            | None => None
            end
      end
  end.

(** [s] starts with the literal [lit]: the rest after it. *)
Definition literal (lit s : string) : option string :=
  if Py.startswith s lit then Some (Py.drop (String.length lit) s) else None.

Definition float_nan : float := S754_nan.
Definition float_inf (neg : bool) : float := S754_infinity neg.

(** The scanner: a value at the start of [s] and the rest of [s]. *)
Fixpoint value (fuel : nat) (s : string) : option (json * string) :=
  match fuel with
  | O => None
  | S fuel' =>
      match s with
      | EmptyString => None
      | String c r =>
          if is_char c 34 then
            match string_body (S (String.length r)) r with
            | Some (t, rest) => Some (JStr t, rest)
            | None => None
            end
          else if is_char c 123 then
            let r := skip_ws r in
            match r with
            | String c' r' =>
                if is_char c' 125 then Some (JObj [], r')
                else members fuel' r []
            | EmptyString => None
            end
          else if is_char c 91 then
            let r := skip_ws r in
            match r with
            | String c' r' =>
                if is_char c' 93 then Some (JArr [], r')
                else elements fuel' r []
            | EmptyString => None
            end
          else
            match literal "null" s, literal "true" s, literal "false" s with
            | Some rest, _, _ => Some (JNull, rest)
            | _, Some rest, _ => Some (JBool true, rest)
            | _, _, Some rest => Some (JBool false, rest)
            | None, None, None =>
                match number s with
                | Some res => Some res
                | None =>
                    match literal "NaN" s, literal "Infinity" s, literal "-Infinity" s with
                    | Some rest, _, _ => Some (JFloat float_nan, rest)
                    | _, Some rest, _ => Some (JFloat (float_inf false), rest)
                    | _, _, Some rest => Some (JFloat (float_inf true), rest)
                    | None, None, None => None
                    end
                end
            end
      end
  end

(** The items of an array after the opening bracket, [acc] in reverse. *)
with elements (fuel : nat) (s : string) (acc : list json)
  : option (json * string) :=
  match fuel with
  | O => None
  | S fuel' =>
      match value fuel' s with
      | None => None
      | Some (v, rest) =>
          match skip_ws rest with
          | String c r =>
              if is_char c 44 then elements fuel' (skip_ws r) (v :: acc)
              else if is_char c 93 then Some (JArr (rev (v :: acc)), r)
              else None
          | EmptyString => None
          end
      end
  end

(** The members of an object after the opening brace; a repeated key
    takes the later value. *)
with members (fuel : nat) (s : string) (acc : dict)
  : option (json * string) :=
  match fuel with
  | O => None
  | S fuel' =>
      match s with
      | String q r =>
          if is_char q 34 then
            match string_body (S (String.length r)) r with
            | None => None
            | Some (k, rest) =>
                match skip_ws rest with
                | String c r1 =>
                    if is_char c 58 then
                      match value fuel' (skip_ws r1) with
                      | None => None
                      | Some (v, rest') =>
                          let acc' := dict_set acc k v in
                          match skip_ws rest' with
                          | String c' r2 =>
                              if is_char c' 44 then members fuel' (skip_ws r2) acc'
                              else if is_char c' 125 then Some (JObj acc', r2)
                              else None
                          | EmptyString => None
                          end
                      end
                    else None
                | EmptyString => None
                end
            end
          else None
      | EmptyString => None
      end
  end.

(** [json.loads] *)
Definition loads (s : string) : option json :=
  match value (2 * String.length s + 2) (skip_ws s) with
  | Some (v, rest) =>
      match skip_ws rest with
      | EmptyString => Some v
      | _ => None
      end
  | None => None
  end.

(** A run of digits in which one underscore may stand between two
    digits, as [float] and [int] read them. *)
Fixpoint digitpart (s : string) (acc : Z) (n : nat) : Z * nat * string :=
  match s with
  | String c r =>
      if is_digit c then
        let acc' := (acc * 10 + digit_val c)%Z in
        match r with
        | String u r1 =>
            if is_char u 95
               && match r1 with String c2 _ => is_digit c2 | EmptyString => false end
            then digitpart r1 acc' (S n)
            else digitpart r acc' (S n)
        | EmptyString => (acc', S n, r)
        end
      else (acc, n, s)
  | EmptyString => (acc, n, s)
  end.

Definition sign (s : string) : bool * string :=
  match s with
  | String c r =>
      if is_char c 45 then (true, r)
      else if is_char c 43 then (false, r)
      else (false, s)
  | EmptyString => (false, s)
  end.

(** The white space that [float] skips around a number: the ASCII white
    space, U+0085 and U+00A0. *)
Definition is_float_space (c : ascii) : bool :=
  let n := Py.ord c in
  Py.between 9 13 n || (n =? 32)%N || (n =? 133)%N || (n =? 160)%N.

Fixpoint trim_left (s : string) : string :=
  match s with
  | String c r => if is_float_space c then trim_left r else s
  | EmptyString => EmptyString
  end.

Fixpoint trim_right (s : string) : string :=
  match s with
  | EmptyString => EmptyString
  | String c r =>
      match trim_right r with
      | EmptyString =>
          if is_float_space c then EmptyString else String c EmptyString
      | r' => String c r'
      end
  end.

Definition trim (s : string) : string := trim_right (trim_left s).

(** [float(s)]: an optional sign, then [inf], [infinity] or [nan] in any
    case, or digits with an optional point and an optional exponent,
    between optional white space. *)
Definition float_of_string (s : string) : option float :=
  let '(neg, s1) := sign (trim s) in
  let low := Py.lower s1 in
  if (low =? "inf") || (low =? "infinity") then Some (float_inf neg)
  else if low =? "nan" then Some float_nan
  else
    let '(ip, n1, s2) := digitpart s1 0 0 in
    let '(m, n2, s3) :=
      match s2 with
      | String c r => if is_char c 46 then digitpart r ip 0 else (ip, O, s2)
      | EmptyString => (ip, O, s2)
      end in
    match (n1 + n2)%nat with
    | O => None
    | _ =>
        let finish (ex : Z) :=
          let f := float_of_decimal m (ex - Z.of_nat n2) in
          Some (if neg then SFopp f else f) in
        match s3 with
        | EmptyString => finish 0%Z
        | String c r =>
            if is_char c 101 || is_char c 69 then
              let '(eneg, r1) := sign r in
              let '(v, n, rest) := digitpart r1 0 0 in
              match n, rest with
              | S _, EmptyString => finish (if eneg then - v else v)%Z
              | _, _ => None
              end
            else None
        end
    end.

(** *** Writing *)

Definition str_of_Z (z : Z) : string := NilEmpty.string_of_int (Z.to_int z).

Fixpoint zeros (n : nat) : string :=
  match n with O => EmptyString | S n' => String "0" (zeros n') end.

(** [10 ^ k <= num / den] *)
Definition ge_pow10 (num den k : Z) : bool :=
  if (0 <=? k)%Z then (den * 10 ^ k <=? num)%Z
  else (den <=? num * 10 ^ (- k))%Z.

(** The decimal exponent of the leading digit of [num / den], searched
    downwards from [k]. *)
Fixpoint decimal_exponent (fuel : nat) (num den k : Z) : Z :=
  match fuel with
  | O => k
  | S fuel' =>
      if ge_pow10 num den k then k
      else decimal_exponent fuel' num den (k - 1)
  end.

(** [num / den] rounded to [p] significant digits, ties to even: the
    digits as an integer and the exponent of the leading digit. *)
Definition round_digits (num den k p : Z) : Z * Z :=
  let sh := (p - 1 - k)%Z in
  let n := if (0 <=? sh)%Z then (num * 10 ^ sh)%Z else num in
  let d := if (0 <=? sh)%Z then den else (den * 10 ^ (- sh))%Z in
  let q := (n / d)%Z in
  let r := (n mod d)%Z in
  let q' := match (2 * r ?= d)%Z with
            | Lt => q
            | Gt => (q + 1)%Z
            | Eq => if Z.even q then q else (q + 1)%Z
            end in
  if (q' =? 10 ^ p)%Z then ((10 ^ (p - 1))%Z, (k + 1)%Z) else (q', k).

(** The shortest digit string that reads back as [x]: the digits, the
    exponent of the leading digit, the number of digits. *)
Fixpoint shortest (fuel : nat) (p : Z) (x : float) (num den k : Z) : Z * Z * Z :=
  match fuel with
  | O => (0%Z, 0%Z, 1%Z)
  | S fuel' =>
      let '(d, k') := round_digits num den k p in
      if SFeqb (float_of_decimal d (k' - p + 1)) x then (d, k', p)
      else shortest fuel' (p + 1) x num den k
  end.

Definition pad2 (s : string) : string :=
  match s with
  | String _ EmptyString => String "0" s
  | _ => s
  end.

(** [repr(x)] *)
Definition float_repr (x : float) : string :=
  match x with
  | S754_nan => "nan"
  | S754_infinity s => if s then "-inf" else "inf"
  | S754_zero s => if s then "-0.0" else "0.0"
  | S754_finite s m e =>
      let '(num, den) :=
        if (0 <=? e)%Z then ((Zpos m * 2 ^ e)%Z, 1%Z)
        else (Zpos m, (2 ^ (- e))%Z) in
      let k0 := decimal_exponent 700 num den 309 in
      let '(d, k, p) := shortest 17 1 (S754_finite false m e) num den k0 in
      let ds := str_of_Z d in
      let decpt := (k + 1)%Z in
      let body :=
        if (decpt <=? -4)%Z || (16 <? decpt)%Z then
          Py.take 1 ds
          ++ (if (1 <? p)%Z then "." ++ Py.drop 1 ds else "")
          ++ "e" ++ (if (k <? 0)%Z then "-" else "+")
          ++ pad2 (str_of_Z (Z.abs k))
        else if (decpt <=? 0)%Z then
          "0." ++ zeros (Z.to_nat (- decpt)) ++ ds
        else if (decpt <? p)%Z then
          Py.take (Z.to_nat decpt) ds ++ "." ++ Py.drop (Z.to_nat decpt) ds
        else ds ++ zeros (Z.to_nat (decpt - p)) ++ ".0" in
      (if s then "-" else "") ++ body
  end.

Definition quote : string := String (ascii_of_N 34) EmptyString.
Definition backslash : string := String (ascii_of_N 92) EmptyString.

Definition hex_digit (n : N) : ascii :=
  if (n <? 10)%N then ascii_of_N (48 + n) else ascii_of_N (87 + n).

Definition escape_char (c : ascii) : string :=
  let n := Py.ord c in
  if (n =? 34)%N then backslash ++ quote
  else if (n =? 92)%N then backslash ++ backslash
  else if (n =? 10)%N then backslash ++ "n"
  else if (n =? 13)%N then backslash ++ "r"
  else if (n =? 9)%N then backslash ++ "t"
  else if (n =? 8)%N then backslash ++ "b"
  else if (n =? 12)%N then backslash ++ "f"
  else if Py.between 32 126 n then String c EmptyString
  else backslash ++ "u00"
       ++ String (hex_digit (n / 16)) (String (hex_digit (n mod 16)) EmptyString).

Fixpoint escape (s : string) : string :=
  match s with
  | EmptyString => EmptyString
  | String c r => escape_char c ++ escape r
  end.

Definition dumps_str (s : string) : string := quote ++ escape s ++ quote.

Definition dumps_float (f : float) : string :=
  match f with
  | S754_nan => "NaN"
  | S754_infinity s => if s then "-Infinity" else "Infinity"
  | _ => float_repr f
  end.

(** [json.dumps] *)
Fixpoint dumps (v : json) : string :=
  match v with
  | JNull => "null"
  | JBool b => if b then "true" else "false"
  | JInt z => str_of_Z z
  | JFloat f => dumps_float f
  | JStr s => dumps_str s
  | JArr l =>
      "[" ++ (fix items (l : list json) : string :=
                match l with
                | [] => ""
                | [x] => dumps x
                | x :: r => dumps x ++ ", " ++ items r
                end) l ++ "]"
  | JObj d =>
      "{" ++ (fix items (d : list (string * json)) : string :=
                match d with
                | [] => ""
                | [(k, x)] => dumps_str k ++ ": " ++ dumps x
                | (k, x) :: r => dumps_str k ++ ": " ++ dumps x ++ ", " ++ items r
                end) d ++ "}"
  end.

(** The environment of a run: the library functions above, the answers
    of the classifier process and the text of the alias file. *)
Definition env (run : nat -> string -> proc_result) (aliases : option string)
  : Env :=
  {| json_loads := loads;
     json_dumps := dumps;
     float_of_str := float_of_string;
     subprocess_run := run;
     aliases_file := aliases |}.

End Ref.

(** ** Notions of the statements *)

Definition run_stmts (qs : list stmt) (t : store) : store :=
  fold_left (fun t q => run_stmt q t) qs t.

(** The connection after [k] more runs of the classifier, the statements
    [qs] and a commit. *)
Definition after (qs : list stmt) (k : nat) (s : state) : state :=
  {| db := run_stmts qs (db s);
     committed := run_stmts qs (db s);
     calls := k + calls s;
     executed := executed s ++ qs |}.

(** The connection after [k] more runs of the classifier and nothing else. *)
Definition called (k : nat) (s : state) : state :=
  {| db := db s; committed := committed s;
     calls := k + calls s; executed := executed s |}.

(** A machine on which the classifier cannot be started. *)
Definition no_classifier : nat -> string -> proc_result :=
  fun _ _ => SpawnError "[Errno 2] No such file or directory: 'ollama'".

(** A classifier that prints [out] at every run. *)
Definition classifier_says (out : string) : nat -> string -> proc_result :=
  fun _ _ => Exited 0 out "".

(** An item of the inbox as the capture tools leave it. *)
Definition unprocessed (id : Z) (raw : string) : inbox_row :=
  {| inbox_id := id; inbox_raw_text := raw; inbox_status := "unprocessed";
     inbox_category := SNull; inbox_confidence := SNull;
     inbox_model := SNull; inbox_error := SNull |}.

Definition inbox_of (rows : list inbox_row) : store :=
  {| inbox := rows; people := []; projects := []; ideas := []; admin := [];
     log_events := [] |}.

(** The required field (name, name, title or task) of the record that a
    statement creates, when it creates a category record. *)
Definition required_field (q : stmt) : option sqlval :=
  match q with
  | InsertPeople name _ _ _ => Some name
  | InsertProjects name _ _ _ => Some name
  | InsertIdeas title _ _ => Some title
  | InsertAdmin task _ _ => Some task
  | InsertLogEvents _ _ _ | UpdateInbox _ _ => None
  end.

(** The number of category records in the store. *)
Definition records (t : store) : nat :=
  length (people t) + length (projects t) + length (ideas t) + length (admin t).

(** The values of the alias table, as they are bound to a parameter. *)
Definition alias_value (E : Env) (v : sqlval) : Prop :=
  exists key x, dict_get (ALIASES E) key = Some x /\ adapt x = inr v.

(** Where the loop body ends when no exception leaves it. *)
Definition finished (o : outcome unit) : option state :=
  match o with
  | Ok _ s | Stop Continue s => Some s
  | Stop (Raise _) _ => None
  end.

(** The connection after the statement [q], not committed. *)
Definition pending (q : stmt) (s : state) : state :=
  {| db := run_stmt q (db s); committed := committed s;
     calls := calls s; executed := executed s ++ [q] |}.

(** A stored text that is empty after trimming. *)
Definition blank (v : sqlval) : bool :=
  match v with
  | SText s => Py.strip s =? ""
  | _ => false
  end.

(** The record the prefix router files under [cat]. *)
Definition prefix_record (cat : string) (field : sqlval) (raw : string) : stmt :=
  if cat =? "admin" then InsertAdmin field (SText "") (SText "open")
  else if cat =? "projects" then
    InsertProjects field (SText "active") (SText "") (SText "")
  else if cat =? "ideas" then InsertIdeas field (SText "") (SText "")
  else InsertPeople field (SText "") (SText raw) (SText "").

(** A float as [sqlite3] stores it. *)
Definition stored_float (f : float) : sqlval :=
  match f with
  | S754_nan => SNull
  | _ => SReal f
  end.

(** The update of an item that is filed. *)
Definition processed (cat : string) (confidence : float) (model : string)
  : inbox_update :=
  {| set_status := "processed"; set_category := Some (SText cat);
     set_confidence := Some (stored_float confidence);
     set_model := SText model; set_error := SText "" |}.

(** The update of an item sent to review with a category and a
    confidence. *)
Definition review (cat : string) (confidence : float) (model err : string)
  : inbox_update :=
  {| set_status := "needs_review"; set_category := Some (SText cat);
     set_confidence := Some (stored_float confidence);
     set_model := SText model; set_error := SText err |}.

(** The update of an item on which every attempt failed. *)
Definition review_error (err : string) : inbox_update :=
  {| set_status := "needs_review"; set_category := None;
     set_confidence := None; set_model := SText MODEL;
     set_error := SText err |}.

(** The name of a person given after a prefix, by cases: the alias of the
    remainder if it has one, the capitalised kinship word if it is one, the
    remainder otherwise. *)
Definition resolved_name (aliases : dict) (clean : string) : json :=
  match dict_get aliases (Py.lower clean) with
  | Some v => v
  | None =>
      if existsb (String.eqb (Py.lower clean)) kin_terms
      then JStr (Py.title (Py.lower clean))
      else JStr clean
  end.

(** The required field of the record filed for the remainder [clean] after
    a prefix of [cat], when there is one. *)
Definition prefix_field (E : Env) (cat clean : string) : option sqlval :=
  if cat =? "people" then
    let v := resolved_name (ALIASES E) clean in
    if truthy v then
      match adapt v with
      | inr x => Some x
      | inl _ => None
      end
    else None
  else Some (SText clean).

(** The character with code [n] occurs in [s]. *)
Fixpoint occurs (n : N) (s : string) : bool :=
  match s with
  | EmptyString => false
  | String c r => (Py.ord c =? n)%N || occurs n r
  end.

(** *** The attempts of the retry loop *)

(** What the [n]-th run of the classifier gives after parsing, when the
    process ran and exited with code 0. *)
Definition parsed_output (E : Env) (raw : string) (n : nat) : option json :=
  match subprocess_run E n (PROMPT ++ raw) with
  | Exited returncode out _ =>
      if (returncode =? 0)%Z then Some (extract_json E (Py.strip out)) else None
  | SpawnError _ => None
  end.

Definition nonempty_object (v : json) : bool :=
  match v with
  | JObj (_ :: _) => true
  | _ => false
  end.

(** The [n]-th run gives a result that the loop accepts. *)
Definition succeeds (E : Env) (raw : string) (n : nat) : bool :=
  match parsed_output E raw n with
  | Some v => nonempty_object v
  | None => false
  end.

(** The text that describes the failure of attempt number [attempt] made
    with the [n]-th run of the classifier. *)
Definition failure_text (E : Env) (raw : string) (n attempt : nat) : string :=
  match subprocess_run E n (PROMPT ++ raw) with
  | SpawnError msg => msg
  | Exited returncode _ err =>
      if (returncode =? 0)%Z
      then "invalid json (attempt " ++ Py.str_of_nat attempt ++ ")"
      else "ollama failed: " ++ Py.strip err
  end.

(** The failure text that [last_err] holds after the attempts [attempts]
    have all failed, the first of them made with the [n]-th run. *)
Fixpoint last_failure (E : Env) (raw : string) (n : nat) (attempts : list nat)
    (err : string) : string :=
  match attempts with
  | [] => err
  | a :: rest => last_failure E raw (S n) rest (failure_text E raw n a)
  end.

(** The confidence the script reads in a parsed result. *)
Definition confidence_of (E : Env) (d : dict) : exn + float :=
  py_float E (py_or (match dict_get d "confidence" with
                     | Some v => v
                     | None => JFloat float_zero
                     end) (JFloat float_zero)).

(** Every attempt of the fallback fails for [raw], the first of them made
    on the connection [s]; and the opposite: a prefix routes [raw], or an
    attempt succeeds. *)
Definition total_failure (E : Env) (raw : string) (s : state) : Prop :=
  pre_route raw = None
  /\ forall j, j < MAX_RETRIES + 1 -> succeeds E raw (calls s + j) = false.

Definition routed (E : Env) (raw : string) (s : state) : Prop :=
  pre_route raw <> None
  \/ exists j, j < MAX_RETRIES + 1 /\ succeeds E raw (calls s + j) = true.

(** *** The ways a step ends *)

(** A filing step on the connection [s]: it raises before any statement,
    or it sends the item to review, or it inserts one record and goes on. *)
Inductive filed (E : Env) (id : Z) (s : state) (o : outcome unit) : Prop :=
| filed_raises (e : exn) :
    o = Stop (Raise e) s -> filed E id s o
| filed_review (cat : string) (conf : float) (msg : string) :
    o = Stop Continue
          (after [UpdateInbox (review cat conf MODEL msg) id;
                  InsertLogEvents "needs_review" id msg] 0 s) ->
    (String.length msg <= 2000)%nat ->
    filed E id s o
| filed_record (q : stmt) (v : sqlval) :
    o = Ok tt (pending q s) ->
    required_field q = Some v ->
    blank v = false \/ alias_value E v ->
    filed E id s o.

(** The loop body on the item [(id, raw)] and the connection [s]. *)
Inductive item_end (E : Env) (id : Z) (raw : string) (s : state)
    (o : outcome unit) : Prop :=
| end_raises (e : exn) (k : nat) :
    o = Stop (Raise e) (called k s) ->
    item_end E id raw s o
| end_total_failure (err : string) :
    total_failure E raw s ->
    err = failure_text E raw (calls s + MAX_RETRIES) MAX_RETRIES ->
    finished o
    = Some (after [UpdateInbox (review_error err) id;
                   InsertLogEvents "needs_review" id (Py.take 2000 err)]
                  (MAX_RETRIES + 1) s) ->
    item_end E id raw s o
| end_review (k : nat) (cat : string) (conf : float) (model err details : string) :
    routed E raw s ->
    (String.length details <= 2000)%nat ->
    finished o
    = Some (after [UpdateInbox (review cat conf model err) id;
                   InsertLogEvents "needs_review" id details] k s) ->
    item_end E id raw s o
| end_processed (k : nat) (q : stmt) (v : sqlval) (cat : string) (conf : float)
    (model details : string) :
    routed E raw s ->
    required_field q = Some v ->
    blank v = false \/ alias_value E v ->
    (String.length details <= 2000)%nat ->
    finished o
    = Some (after [q; UpdateInbox (processed cat conf model) id;
                   InsertLogEvents "processed" id details] k s) ->
    item_end E id raw s o.

(** *** The audit trail *)

(** In a list of statements every update of the inbox is followed at once
    by the log event of the same item and status, with details of at most
    2000 characters, and no log event stands alone. *)
Fixpoint audited (qs : list stmt) : bool :=
  match qs with
  | [] => true
  | UpdateInbox u id :: InsertLogEvents event id' details :: rest =>
      (event =? set_status u) && (id' =? id)%Z
      && ((event =? "processed") || (event =? "needs_review"))
      && (String.length details <=? 2000)%nat
      && audited rest
  | UpdateInbox _ _ :: _ => false
  | InsertLogEvents _ _ _ :: _ => false
  | _ :: rest => audited rest
  end.

(** The connection an outcome leaves. *)
Definition state_of {A} (o : outcome A) : state :=
  match o with
  | Ok _ s | Stop _ s => s
  end.

(** ** Notions of the further properties *)

(** The prefixes that [pre_route] tests, in the order of its tests, each
    with the category it returns. *)
Definition prefixes : list (string * string) :=
  [("admin:", "admin"); ("project:", "projects"); ("projects:", "projects");
   ("idea:", "ideas"); ("ideas:", "ideas");
   ("person:", "people"); ("people:", "people")].

(** A computation that runs the classifier at most [n] times, whatever
    the way it ends. *)
Definition runs_at_most (n : nat) {A} (c : M A) : Prop :=
  forall s, calls s <= calls (state_of (c s)) <= n + calls s.

(** A computation that never falls through to the statement after it: it
    raises or it goes on with the next item. *)
Definition leaves {A} (c : M A) : Prop :=
  forall s, exists sg s', c s = Stop sg s'.

(** The items of the alias file with their keys in lower case. *)
Definition lowered (data : dict) : dict :=
  map (fun kv => (Py.lower (fst kv), snd kv)) data.

(** The value of the last item of [d] that has the key [k]. *)
Definition last_value (d : dict) (k : string) : option json :=
  dict_get (rev d) k.

(** The last character of [s] is a word character. *)
Fixpoint ends_in_word (s : string) : bool :=
  match s with
  | EmptyString => false
  | String c EmptyString => Py.isword c
  | String _ r => ends_in_word r
  end.

(** The character before a position is a word character: the last
    character of the text [pre] before the position, or [prev] when the
    position is the start of the text. *)
Definition word_before (prev : bool) (pre : string) : bool :=
  match pre with
  | EmptyString => prev
  | _ => ends_in_word pre
  end.

(** [key] stands in [s] as a whole word: no word character touches it on
    either side. *)
Definition whole_word (key s : string) : Prop :=
  exists pre post,
    s = pre ++ key ++ post
    /\ ends_in_word pre = false /\ word_ends post = true.

(** [s] names a parent: one of the kinship words stands in it as a whole
    word. *)
Definition names_kin (s : string) : Prop :=
  exists key, In key kin_terms /\ whole_word key s.

(** *** The fields of an accepted result *)

(** [result.get("fields", {}) or {}] *)
Definition fields_of (d : dict) : json :=
  py_or (match dict_get d "fields" with Some v => v | None => JObj [] end)
        (JObj []).

(** [(fields.get(k) or default).strip()] on the fields [fd]. *)
Definition text_field (fd : dict) (k default : string) : exn + string :=
  py_strip (py_or (match dict_get fd k with Some v => v | None => JNull end)
                  (JStr default)).

(** [fields.get(k, "")] on the fields [fd], as a parameter of a statement. *)
Definition bound_field (fd : dict) (k : string) : exn + sqlval :=
  adapt (match dict_get fd k with Some v => v | None => JStr "" end).

(** [(fields.get("title") or result.get("title") or "").strip()] *)
Definition idea_title (d fd : dict) : exn + string :=
  py_strip
    (py_or (match dict_get fd "title" with Some v => v | None => JNull end)
       (py_or (match dict_get d "title" with Some v => v | None => JNull end)
              (JStr ""))).

(** The name of a person of the fallback, lines 285-287: the trimmed field
    [name], or what [infer_person_name] finds in the raw text when the
    field is empty. *)
Definition person_name (E : Env) (raw : string) (fd : dict) : exn + json :=
  match text_field fd "name" "" with
  | inl e => inl e
  | inr n => inr (if n =? "" then infer_person_name E raw else JStr n)
  end.

(** The statuses of a project and of an admin task. *)
Definition project_statuses : list string :=
  ["active"; "waiting"; "blocked"; "someday"; "done"].

Definition admin_statuses : list string := ["open"; "done"].

(** [status if status in allowed else default] *)
Definition status_or (allowed : list string) (default status : string) : string :=
  if in_strs (JStr status) allowed then status else default.

(** The required text of a result of category [c]: the name of the person
    or the project, the title of the idea, the task. *)
Definition required_text (E : Env) (raw c : string) (d fd : dict) : exn + json :=
  if c =? "people" then person_name E raw fd
  else
    match (if c =? "projects" then text_field fd "name" ""
           else if c =? "ideas" then idea_title d fd
           else text_field fd "task" "") with
    | inl e => inl e
    | inr t => inr (JStr t)
    end.

(** The error text of an item whose required text is missing. *)
Definition missing_error (c : string) : string :=
  if c =? "people" then "missing person name"
  else if c =? "projects" then "missing project name"
  else if c =? "ideas" then "missing idea title"
  else "missing admin task".

(** [result.get("category", "unknown")] *)
Definition category_of (d : dict) : json :=
  match dict_get d "category" with Some v => v | None => JStr "unknown" end.

(** *** The batch *)

(** The test of the [WHERE] clause of the query of [main]. *)
Definition is_unprocessed (r : inbox_row) : bool :=
  inbox_status r =? "unprocessed".

(** The rows of the inbox that wait for processing, in table order. *)
Definition waiting (t : store) : list inbox_row :=
  filter is_unprocessed (inbox t).

(** The identifiers of the items that a list of statements updates, in the
    order of the updates. *)
Definition update_ids (qs : list stmt) : list Z :=
  flat_map (fun q => match q with
                     | UpdateInbox _ id => [id]
                     | _ => []
                     end) qs.

(** The bounds of an SQLite integer. *)
Definition int64 (z : Z) : Prop := (int64_min <= z <= int64_max)%Z.

(** *** Well-formed statements *)

(** A stored value is one of the texts [l]. *)
Definition text_in (v : sqlval) (l : list string) : bool :=
  match v with
  | SText t => existsb (String.eqb t) l
  | _ => false
  end.

(** The statements that respect the enumerations of the tables: a project
    has one of the five statuses and an admin task one of the two; an update
    of the inbox sets the status [processed], with one of the four
    categories and no error, or the status [needs_review], with no category
    or one of the four or [unknown]; its model is [prefix] or [MODEL]; a log
    event is [processed] or [needs_review]. *)
Definition well_formed (q : stmt) : bool :=
  match q with
  | InsertProjects _ status _ _ => text_in status project_statuses
  | InsertAdmin _ _ status => text_in status admin_statuses
  | UpdateInbox u _ =>
      (if set_status u =? "processed" then
         match set_category u with
         | Some c => text_in c categories
         | None => false
         end
         && text_in (set_error u) [""]
       else if set_status u =? "needs_review" then
         match set_category u with
         | Some c => text_in c ("unknown" :: categories)
         | None => true
         end
       else false)
      && text_in (set_model u) ["prefix"; MODEL]
  | InsertLogEvents event _ _ =>
      existsb (String.eqb event) ["processed"; "needs_review"]
  | InsertPeople _ _ _ _ | InsertIdeas _ _ _ => true
  end.

(** The tables respect their enumerations. *)
Definition well_formed_tables (t : store) : bool :=
  forallb (fun r => text_in (projects_status r) project_statuses) (projects t)
  && forallb (fun r => text_in (admin_status r) admin_statuses) (admin t)
  && forallb (fun r => existsb (String.eqb (inbox_status r))
                         ["unprocessed"; "processed"; "needs_review"])
             (inbox t).

(** A computation that executes only statements with the property [P]. *)
Definition emits (P : stmt -> bool) {A} (c : M A) : Prop :=
  forall s, exists qs,
    executed (state_of (c s)) = (executed s ++ qs)%list
    /\ db (state_of (c s)) = run_stmts qs (db s)
    /\ forallb P qs = true.

(** *** The text of a log event *)

(** The text that the script passes to [log_event] beside an update of the
    inbox, call by call: lines 234, 185 and 220 of the prefix router, line
    259 when every attempt failed, line 280 for an answer [d] that is
    refused, lines 294, 310, 330 and 346 for a missing required text, and
    line 363 for an answer [d] that is filed. *)
Inductive passed (E : Env) : inbox_update -> string -> Prop :=
| passed_prefix_route (cat : string) :
    In cat categories ->
    passed E (processed cat float_one "prefix") ("prefix_route -> " ++ cat)
| passed_prefix_empty (cat : string) :
    In cat categories ->
    passed E (review cat float_one "prefix" "empty after prefix")
           ("prefix " ++ cat ++ " but empty")
| passed_prefix_no_name :
    passed E (review "people" float_one "prefix" "missing person name")
           "missing person name (prefix)"
| passed_total_failure (err : string) :
    passed E (review_error err) err
| passed_refused (d : dict) (cat : string) (conf : float) :
    confidence_of E d = inr conf ->
    (cat = "unknown" /\ in_strs (category_of d) categories = false)
    \/ (category_of d = JStr cat /\ In cat categories
        /\ SFltb conf CONF_THRESHOLD = true) ->
    passed E (review cat conf MODEL "") (Py.take 2000 (json_dumps E (JObj d)))
| passed_missing (cat : string) (conf : float) :
    In cat categories ->
    passed E (review cat conf MODEL (missing_error cat)) (missing_error cat)
| passed_filed (d : dict) (cat : string) (conf : float) :
    confidence_of E d = inr conf ->
    category_of d = JStr cat ->
    In cat categories ->
    SFltb conf CONF_THRESHOLD = false ->
    passed E (processed cat conf MODEL) (Py.take 2000 (json_dumps E (JObj d))).

(** The audit trail in a list of statements: category records, and
    updates of the inbox each followed at once by the log event of the same
    item, whose event is the status the update sets and whose details are
    the first 2000 characters of the text passed beside that update. *)
Inductive trail (E : Env) : list stmt -> Prop :=
| trail_end : trail E []
| trail_record (q : stmt) (v : sqlval) (rest : list stmt) :
    required_field q = Some v ->
    trail E rest ->
    trail E (q :: rest)
| trail_transition (u : inbox_update) (id : Z) (text : string)
    (rest : list stmt) :
    passed E u text ->
    trail E rest ->
    trail E (UpdateInbox u id
             :: InsertLogEvents (set_status u) id (Py.take 2000 text)
             :: rest).

(** A computation whose statements form an audit trail. *)
Definition trails (E : Env) {A} (c : M A) : Prop :=
  forall s, exists qs,
    executed (state_of (c s)) = (executed s ++ qs)%list
    /\ db (state_of (c s)) = run_stmts qs (db s)
    /\ trail E qs.

(** * Properties *)

(** ** Trimming *)

Lemma lstrip_head (s : string) :
  match Py.lstrip s with
  | String c _ => Py.isspace c = false
  | EmptyString => True
  end.
Proof.
  induction s as [|a s IH]; cbn [Py.lstrip]; [exact I|].
  destruct (Py.isspace a) eqn:Ha; [exact IH|exact Ha].
Qed.

Lemma rstrip_idem (s : string) : Py.rstrip (Py.rstrip s) = Py.rstrip s.
Proof.
  induction s as [|a s IH]; [reflexivity|].
  cbn [Py.rstrip].
  destruct (Py.rstrip s) as [|b t] eqn:Hr.
  - destruct (Py.isspace a) eqn:Ha; [reflexivity|].
    cbn [Py.rstrip]. now rewrite Ha.
  - change (Py.rstrip (String a (String b t)))
      with (match Py.rstrip (String b t) with
            | EmptyString =>
                if Py.isspace a then EmptyString else String a EmptyString
            | r' => String a r'
            end).
    now rewrite IH.
Qed.

Lemma rstrip_keeps_head (c : ascii) (r : string) :
  Py.isspace c = false -> exists r', Py.rstrip (String c r) = String c r'.
Proof.
  intros Hc. cbn [Py.rstrip].
  destruct (Py.rstrip r) as [|b t].
  - rewrite Hc. now exists EmptyString.
  - now exists (String b t).
Qed.

Lemma strip_idem (s : string) : Py.strip (Py.strip s) = Py.strip s.
Proof.
  unfold Py.strip.
  pose proof (lstrip_head s) as Hh.
  destruct (Py.lstrip s) as [|c r]; [reflexivity|].
  destruct (rstrip_keeps_head c r Hh) as [r' Hr'].
  rewrite Hr'. cbn [Py.lstrip]. rewrite Hh, <- Hr'.
  apply rstrip_idem.
Qed.

Lemma take_length (n : nat) (s : string) : String.length (Py.take n s) <= n.
Proof.
  revert s; induction n as [|n IH]; intros [|c r]; cbn; try lia.
  specialize (IH r). lia.
Qed.

(** ** The prefix router *)

Lemma pre_route_inv (raw cat clean : string) :
  pre_route raw = Some (cat, clean) ->
  In cat categories /\ Py.strip clean = clean.
Proof.
  unfold pre_route.
  repeat match goal with
         | |- context [if ?b then _ else _] => destruct b
         end;
    intros H; inversion H; subst; clear H;
    (split; [cbn; tauto | apply strip_idem]).
Qed.

Lemma kin_lower_cases (x : string) :
  existsb (String.eqb x) kin_terms = true ->
  x = "mom" \/ x = "mother" \/ x = "dad" \/ x = "father".
Proof.
  cbn [existsb kin_terms].
  rewrite !orb_true_iff, !String.eqb_eq. intuition discriminate.
Qed.

Lemma prefix_person_name_resolved (E : Env) (clean : string) :
  Py.strip clean = clean ->
  prefix_person_name E clean = resolved_name (ALIASES E) clean.
Proof.
  intros Hs. unfold prefix_person_name, resolved_name, dict_mem.
  rewrite Hs.
  destruct (dict_get (ALIASES E) (Py.lower clean)) as [v|] eqn:Hget;
    [reflexivity|].
  destruct (existsb (String.eqb (Py.lower clean)) kin_terms) eqn:Hk;
    [|reflexivity].
  unfold infer_person_name. rewrite Hs.
  destruct (kin_lower_cases _ Hk) as [H|[H|[H|H]]];
    rewrite H in *;
    match goal with
    | |- context [kin_search false ?x] =>
        let v := eval vm_compute in (kin_search false x) in
        change (kin_search false x) with v
    end;
    cbv beta iota; rewrite Hget; reflexivity.
Qed.

(** ** Running the loop body *)

(** Two connections are equal: compare their fields, the executed
    statements up to associativity. *)
Ltac state_eq :=
  unfold after, called, run_stmts; cbn [fold_left db committed calls executed Nat.add];
  rewrite <- ?app_assoc; reflexivity.

(** The run of the loop body on an item that the prefix router files. *)
Lemma prefix_files (E : Env) (id : Z) (raw cat clean : string) (field : sqlval)
    (s : state) :
  pre_route raw = Some (cat, clean) ->
  clean <> "" ->
  prefix_field E cat clean = Some field ->
  loop_body E (id, raw) s
  = Stop Continue
      (after [prefix_record cat field raw;
              UpdateInbox (processed cat float_one "prefix") id;
              InsertLogEvents "processed" id ("prefix_route -> " ++ cat)] 0 s).
Proof.
  intros Hpre Hne Hf.
  destruct (pre_route_inv _ _ _ Hpre) as [Hcat Hstrip].
  apply String.eqb_neq in Hne.
  unfold loop_body, prefix_stage. rewrite Hpre.
  unfold bind at 1. unfold bind at 1. rewrite Hne. cbn [when ret].
  unfold prefix_field in Hf.
  cbn [In categories] in Hcat.
  destruct Hcat as [<-|[<-|[<-|[<-|[]]]]]; cbn in Hf.
  - rewrite (prefix_person_name_resolved E clean Hstrip).
    destruct (truthy (resolved_name (ALIASES E) clean)); [|discriminate].
    destruct (adapt (resolved_name (ALIASES E) clean)) as [e|x] eqn:Ha;
      [discriminate|].
    injection Hf as <-.
    cbn. unfold INSERT_people, bind, lift. rewrite Ha. cbn.
    f_equal. state_eq.
  - injection Hf as <-. cbn. f_equal. state_eq.
  - injection Hf as <-. cbn. f_equal. state_eq.
  - injection Hf as <-. cbn. f_equal. state_eq.
Qed.

(** ** The retry loop *)

Lemma accepted_iff_nonempty_object (v : json) :
  truthy v && is_dict v = nonempty_object v.
Proof.
  destruct v as [| b | z | f | t | l | d]; cbn;
    try reflexivity; try apply andb_false_r.
  now destruct d.
Qed.

Lemma attempt_once_run (E : Env) (raw : string) (attempt : nat) (s : state) :
  attempt_once E raw attempt s
  = Ok (match parsed_output E raw (calls s) with
        | Some v =>
            if nonempty_object v then inl v
            else inr (failure_text E raw (calls s) attempt)
        | None => inr (failure_text E raw (calls s) attempt)
        end)
       (called 1 s).
Proof.
  unfold attempt_once, try_except, bind, ollama_call, parsed_output,
    failure_text, called.
  destruct (subprocess_run E (calls s) (PROMPT ++ raw)) as [msg|rc out err];
    [reflexivity|].
  destruct (rc =? 0)%Z; cbn [negb]; [|reflexivity].
  rewrite accepted_iff_nonempty_object.
  now destruct (nonempty_object (extract_json E (Py.strip out))).
Qed.

Lemma called_called (j k : nat) (s : state) :
  called j (called k s) = called (j + k) s.
Proof. unfold called; cbn. now rewrite Nat.add_assoc. Qed.

(** When every attempt fails the loop runs the classifier once per attempt
    and ends without a result. *)
Lemma retry_loop_all_fail (E : Env) (raw : string) (attempts : list nat) :
  forall (err : string) (s : state),
    (forall j, j < length attempts -> succeeds E raw (calls s + j) = false) ->
    retry_loop E raw attempts err s
    = Ok (JNull, last_failure E raw (calls s) attempts err)
         (called (length attempts) s).
Proof.
  induction attempts as [|a rest IH]; intros err s Hfail.
  - cbn. unfold ret, called. now destruct s.
  - cbn [retry_loop last_failure length]. unfold bind.
    rewrite attempt_once_run.
    pose proof (Hfail 0 (Nat.lt_0_succ _)) as H0.
    rewrite Nat.add_0_r in H0. unfold succeeds in H0.
    assert (Hstep :
      match parsed_output E raw (calls s) with
      | Some v => if nonempty_object v then inl v
                  else inr (failure_text E raw (calls s) a)
      | None => inr (failure_text E raw (calls s) a)
      end = inr (failure_text E raw (calls s) a)).
    { destruct (parsed_output E raw (calls s)); [now rewrite H0|reflexivity]. }
    rewrite Hstep, IH.
    + rewrite called_called. cbn [calls called Nat.add].
      now rewrite Nat.add_1_r.
    + intros j Hj. cbn [calls called Nat.add].
      rewrite <- Nat.add_succ_r. apply Hfail. cbn [length]. lia.
Qed.

(** The loop leaves at the first attempt that succeeds. *)
Lemma retry_loop_first_success (E : Env) (raw : string) (pre : list nat) :
  forall (a : nat) (post : list nat) (err : string) (s : state) (v : json),
    (forall j, j < length pre -> succeeds E raw (calls s + j) = false) ->
    parsed_output E raw (calls s + length pre) = Some v ->
    nonempty_object v = true ->
    retry_loop E raw (pre ++ a :: post) err s
    = Ok (v, last_failure E raw (calls s) pre err)
         (called (S (length pre)) s).
Proof.
  induction pre as [|p pre IH]; intros a post err s v Hfail Hv Hobj.
  - cbn [app retry_loop last_failure length]. unfold bind.
    rewrite attempt_once_run. rewrite Nat.add_0_r in Hv.
    now rewrite Hv, Hobj.
  - cbn [app retry_loop last_failure length]. unfold bind.
    rewrite attempt_once_run.
    pose proof (Hfail 0 (Nat.lt_0_succ _)) as H0.
    rewrite Nat.add_0_r in H0. unfold succeeds in H0.
    assert (Hstep :
      match parsed_output E raw (calls s) with
      | Some v => if nonempty_object v then inl v
                  else inr (failure_text E raw (calls s) p)
      | None => inr (failure_text E raw (calls s) p)
      end = inr (failure_text E raw (calls s) p)).
    { destruct (parsed_output E raw (calls s)); [now rewrite H0|reflexivity]. }
    rewrite Hstep, (IH a post _ _ v).
    + rewrite called_called. cbn [calls called Nat.add].
      now rewrite Nat.add_1_r.
    + intros j Hj. cbn [calls called Nat.add].
      rewrite <- Nat.add_succ_r. apply Hfail. cbn [length]. lia.
    + cbn [calls called Nat.add]. rewrite <- Nat.add_succ_r. exact Hv.
    + exact Hobj.
Qed.

(** The loop always ends, with at most one run of the classifier per
    attempt and no other effect; its result is [None] when every attempt
    failed, and a non-empty object when one succeeded. *)
Lemma retry_loop_ends (E : Env) (raw : string) (attempts : list nat) :
  forall (err : string) (s : state),
    exists k res err',
      retry_loop E raw attempts err s = Ok (res, err') (called k s)
      /\ k <= length attempts
      /\ (res = JNull
          /\ k = length attempts
          /\ err' = last_failure E raw (calls s) attempts err
          /\ (forall j, j < length attempts -> succeeds E raw (calls s + j) = false)
          \/ nonempty_object res = true
             /\ (exists j, j < length attempts
                           /\ succeeds E raw (calls s + j) = true)).
Proof.
  induction attempts as [|a rest IH]; intros err s.
  - exists 0, JNull, err. cbn. unfold ret, called.
    split; [now destruct s|]. split; [lia|]. left.
    repeat split. intros j Hj. lia.
  - cbn [retry_loop length last_failure]. unfold bind. rewrite attempt_once_run.
    destruct (parsed_output E raw (calls s)) as [v|] eqn:Hp.
    1: destruct (nonempty_object v) eqn:Hv.
    1: { exists 1, v, err. split; [reflexivity|]. split; [lia|]. right.
         split; [exact Hv|]. exists 0. split; [lia|].
         rewrite Nat.add_0_r. unfold succeeds. now rewrite Hp. }
    all: destruct (IH (failure_text E raw (calls s) a) (called 1 s))
      as (k & res & err' & Hrun & Hk & Hres);
      exists (S k), res, err'; rewrite Hrun, called_called, Nat.add_1_r;
      (split; [reflexivity|]); (split; [lia|]);
      (destruct Hres as [(-> & -> & -> & Hall)|(Hobj & j & Hj & Hs)];
       [ left; repeat split;
         intros [|j] Hj;
         [ rewrite Nat.add_0_r; unfold succeeds; rewrite Hp; try exact Hv;
           reflexivity
         | rewrite Nat.add_succ_r; apply (Hall j); lia ]
       | right; split; [exact Hobj|]; exists (S j); split; [lia|];
         rewrite Nat.add_succ_r; exact Hs ]).
Qed.

(** ** The filing steps *)

Lemma py_strip_stripped (v : json) (t : string) :
  py_strip v = inr t -> Py.strip t = t.
Proof.
  destruct v; cbn; try discriminate.
  intros H; injection H as <-. apply strip_idem.
Qed.

Lemma truthy_not_blank (t : string) :
  Py.strip t = t -> truthy (JStr t) = true -> blank (SText t) = false.
Proof.
  intros Hs Ht. cbn in *. rewrite Hs.
  now destruct (t =? "").
Qed.

(** One step of symbolic execution of the loop body: unfold the
    statements, reduce the monad, and split on a value that may raise or
    on the test of an [if]. *)
Ltac run :=
  cbv delta [INSERT_people INSERT_projects INSERT_ideas INSERT_admin
             UPDATE_inbox UPDATE_inbox_error log_event];
  cbn [bind ret lift raise when continue_ negb py_get adapt execute commit
       db committed calls executed].

Ltac split_lift :=
  match goal with
  | |- context [lift ?x] =>
      lazymatch x with
      | inl _ => fail
      | inr _ => fail
      | _ => destruct x eqn:?
      end
  end.

Ltac split_when :=
  match goal with
  | |- context [when (negb ?b)] =>
      lazymatch b with
      | true => fail
      | false => fail
      | _ => destruct b eqn:?
      end
  end.

Ltac steps := repeat (run; first [split_lift | split_when]); run.

Ltac finish_filed :=
  first
    [ eapply filed_raises; reflexivity
    | eapply filed_review; [f_equal; state_eq | apply Nat.leb_le; vm_compute; reflexivity]
    | eapply filed_record;
      [ reflexivity | reflexivity
      | left; apply truthy_not_blank;
        [eapply py_strip_stripped; eassumption | assumption] ] ].

Lemma file_projects_filed (E : Env) (id : Z) (fields : json) (conf : float)
    (s : state) :
  filed E id s (file_projects id fields conf s).
Proof.
  unfold file_projects.
  destruct fields as [| b | z | f | t | l | d];
    try (eapply filed_raises; reflexivity).
  steps; finish_filed.
Qed.

Lemma file_admin_filed (E : Env) (id : Z) (fields : json) (conf : float)
    (s : state) :
  filed E id s (file_admin id fields conf s).
Proof.
  unfold file_admin.
  destruct fields as [| b | z | f | t | l | d];
    try (eapply filed_raises; reflexivity).
  steps; finish_filed.
Qed.

Lemma file_ideas_filed (E : Env) (id : Z) (result fields : json) (conf : float)
    (s : state) :
  is_dict result = true ->
  filed E id s (file_ideas id result fields conf s).
Proof.
  intros Hd. unfold file_ideas.
  destruct result as [| | | | | | r]; try discriminate.
  destruct fields as [| b | z | f | t | l | d];
    try (eapply filed_raises; reflexivity).
  run.
  destruct (truthy match dict_get d "title" with
                   | Some x => x
                   | None => JNull
                   end);
    steps; finish_filed.
Qed.

Lemma kin_search_in (s : string) :
  forall (prev : bool) (key : string),
    kin_search prev s = Some key -> In key kin_terms.
Proof.
  induction s as [|c r IH]; intros prev key; cbn [kin_search]; [discriminate|].
  destruct (if prev then None else kin_here (String c r)) as [k|] eqn:Hk.
  - intros H; injection H as <-.
    destruct prev; [discriminate|].
    unfold kin_here in Hk. now apply find_some in Hk.
  - apply IH.
Qed.

(** The name [infer_person_name] gives is a value of the alias table, a
    capitalised kinship word, or empty. *)
Lemma infer_person_name_cases (E : Env) (raw : string) :
  (exists key v, dict_get (ALIASES E) key = Some v
                 /\ infer_person_name E raw = v)
  \/ (exists t, infer_person_name E raw = JStr t
                /\ (t = "" \/ blank (SText t) = false)).
Proof.
  unfold infer_person_name.
  destruct (kin_search false (Py.lower (Py.strip raw))) as [key|] eqn:Hk.
  - destruct (dict_get (ALIASES E) key) as [v|] eqn:Hget.
    + left. now exists key, v.
    + right. exists (Py.title key). split; [reflexivity|right].
      apply kin_search_in in Hk. cbn [In kin_terms] in Hk.
      destruct Hk as [<-|[<-|[<-|[<-|[]]]]]; reflexivity.
  - right. exists "". now split; [|left].
Qed.

Lemma file_people_filed (E : Env) (id : Z) (raw : string) (fields : json)
    (conf : float) (s : state) :
  filed E id s (file_people E id raw fields conf s).
Proof.
  unfold file_people.
  destruct fields as [| b | z | f | t | l | d];
    try (eapply filed_raises; reflexivity).
  run. split_lift; run; [finish_filed|].
  destruct (truthy (JStr s0)) eqn:Ht; cbn [negb].
  - rewrite Ht. steps; finish_filed.
  - destruct (infer_person_name_cases E raw)
      as [(key & v & Hget & ->) | (t & -> & Hblank)].
    + destruct (truthy v); steps;
        first [ finish_filed
              | eapply filed_record;
                [ reflexivity | reflexivity | right; now exists key, v ] ].
    + destruct Hblank as [->|Hblank].
      * steps; try discriminate; finish_filed.
      * destruct (truthy (JStr t)); steps;
          first [ finish_filed
                | eapply filed_record;
                  [ reflexivity | reflexivity | now left ] ].
Qed.

(** ** The ways the loop body ends *)

Lemma in_strs_str (v : json) (l : list string) :
  in_strs v l = true -> exists c, v = JStr c /\ In c l.
Proof.
  unfold in_strs. intros H. apply existsb_exists in H.
  destruct H as (x & Hx & Heq).
  destruct v; cbn in Heq; try discriminate.
  apply String.eqb_eq in Heq. subst. eauto.
Qed.

Lemma take_take_length (n : nat) (t : string) :
  (String.length (Py.take n (if truthy (JStr t) then t else "")) <= n)%nat.
Proof. apply take_length. Qed.

(** Validation, gating and filing of an accepted result. *)
Lemma route_result_ends (E : Env) (id : Z) (raw : string) (res : json)
    (k : nat) (s : state) :
  routed E raw s ->
  nonempty_object res = true ->
  item_end E id raw s (route_result E id raw res (called k s)).
Proof.
  intros Hrouted Hres.
  destruct res as [| | | | | | d]; try discriminate.
  unfold route_result. run.
  split_lift; run; [eapply end_raises; reflexivity|].
  set (fields := py_or match dict_get d "fields" with
                       | Some x => x
                       | None => JObj []
                       end (JObj [])).
  set (category := match dict_get d "category" with
                   | Some x => x
                   | None => JStr "unknown"
                   end).
  destruct (in_strs category categories) eqn:Hin; cbn [negb orb].
  2: { run. eapply end_review; [exact Hrouted | apply take_take_length |].
       cbn [finished]. f_equal. state_eq. }
  destruct (in_strs_str _ _ Hin) as (c & Hc & Hcin).
  rewrite Hc.
  destruct (SFltb f CONF_THRESHOLD) eqn:Hlt.
  { run. eapply end_review; [exact Hrouted | apply take_take_length |].
    cbn [finished]. f_equal. state_eq. }
  run.
  match goal with
  | |- item_end _ _ _ _ (bind ?c _ _) =>
      assert (Hf : filed E id (called k s) (c (called k s)))
  end.
  { cbn [In categories] in Hcin.
    destruct Hcin as [<-|[<-|[<-|[<-|[]]]]]; cbn [eq_str]; cbv [String.eqb Ascii.eqb Bool.eqb].
    - apply file_people_filed.
    - apply file_projects_filed.
    - now apply file_ideas_filed.
    - apply file_admin_filed. }
  unfold bind at 1.
  destruct Hf as [e He | cat conf msg He Hlen | q v He Hreq Hv]; rewrite He.
  - eapply end_raises; reflexivity.
  - eapply end_review; [exact Hrouted | exact Hlen |].
    cbn [finished]. f_equal. state_eq.
  - run.
    eapply end_processed;
      [exact Hrouted | exact Hreq | exact Hv | apply take_take_length |].
    cbn [finished]. f_equal. unfold pending. state_eq.
Qed.

Lemma details_or_empty (d : string) :
  (if truthy (JStr d) then d else "") = d.
Proof.
  cbn. destruct (d =? "") eqn:H; [|reflexivity].
  apply String.eqb_eq in H. now subst.
Qed.

Lemma nonempty_object_truthy (v : json) :
  nonempty_object v = true -> truthy v = true.
Proof. destruct v as [| | | | | |[|x d]]; cbn; congruence. Qed.

(** The fallback through the classifier. *)
Lemma fallback_stage_ends (E : Env) (id : Z) (raw : string) (s : state) :
  pre_route raw = None ->
  item_end E id raw s (fallback_stage E id raw s).
Proof.
  intros Hpre. unfold fallback_stage. unfold bind at 1.
  destruct (retry_loop_ends E raw (seq 0 (MAX_RETRIES + 1)) "" s)
    as (k & res & err' & Hrun & Hk & Hres).
  rewrite Hrun.
  destruct Hres as [(-> & -> & -> & Hall) | (Hobj & j & Hj & Hs)].
  - cbn [truthy negb]. run.
    eapply end_total_failure.
    + split; [exact Hpre|]. intros j Hj. apply Hall. now rewrite length_seq.
    + reflexivity.
    + cbn [finished]. f_equal.
      replace (calls s + MAX_RETRIES) with (S (S (calls s)))
        by (unfold MAX_RETRIES; lia).
      rewrite details_or_empty. state_eq.
  - rewrite (nonempty_object_truthy _ Hobj). cbn [negb]. run.
    apply route_result_ends; [|exact Hobj].
    right. exists j. rewrite length_seq in Hj. now split.
Qed.

(** The prefix router. *)
Lemma prefix_stage_ends (E : Env) (id : Z) (raw cat clean : string) (s : state) :
  pre_route raw = Some (cat, clean) ->
  item_end E id raw s (loop_body E (id, raw) s).
Proof.
  intros Hpre.
  assert (Hrouted : routed E raw s) by (left; congruence).
  destruct (pre_route_inv _ _ _ Hpre) as [Hcat Hstrip].
  unfold loop_body, prefix_stage. rewrite Hpre.
  unfold bind at 1. unfold bind at 1.
  destruct (clean =? "") eqn:Hne.
  { run. eapply end_review with (k := 0);
      [exact Hrouted | | cbn [finished]; f_equal; state_eq].
    apply take_take_length. }
  assert (Hclean : blank (SText clean) = false).
  { apply truthy_not_blank; [exact Hstrip|]. cbn. now rewrite Hne. }
  cbn [when ret].
  cbn [In categories] in Hcat.
  destruct Hcat as [<-|[<-|[<-|[<-|[]]]]];
    cbv [String.eqb Ascii.eqb Bool.eqb].
  2-4: run;
    (eapply end_processed with (k := 0);
     [ exact Hrouted | | | | cbn [finished]; f_equal; state_eq ];
     [ reflexivity | left; exact Hclean | apply take_take_length ]).
  rewrite (prefix_person_name_resolved E clean Hstrip).
  assert (Hname :
    (exists key, dict_get (ALIASES E) key = Some (resolved_name (ALIASES E) clean))
    \/ (exists t, resolved_name (ALIASES E) clean = JStr t
                  /\ truthy (JStr t) = true /\ blank (SText t) = false)).
  { unfold resolved_name.
    destruct (dict_get (ALIASES E) (Py.lower clean)) as [v|] eqn:Hget;
      [left; now exists (Py.lower clean)|right].
    destruct (existsb (String.eqb (Py.lower clean)) kin_terms) eqn:Hk.
    - exists (Py.title (Py.lower clean)). split; [reflexivity|].
      destruct (kin_lower_cases _ Hk) as [H|[H|[H|H]]]; rewrite H;
        split; reflexivity.
    - exists clean. split; [reflexivity|]. split; [|exact Hclean].
      cbn. now rewrite Hne. }
  destruct Hname as [(key & Hkey) | (t & -> & Ht & Hblank)].
  - destruct (truthy (resolved_name (ALIASES E) clean)); cbn [negb].
    + steps.
      * eapply end_raises with (k := 0). now destruct s.
      * eapply end_processed with (k := 0);
          [ exact Hrouted | | | | cbn [finished]; f_equal; state_eq ];
          [ reflexivity
          | right; exists key, (resolved_name (ALIASES E) clean); now split
          | apply take_take_length ].
    + run. eapply end_review with (k := 0);
        [exact Hrouted | | cbn [finished]; f_equal; state_eq].
      apply take_take_length.
  - rewrite Ht. cbn [negb]. run.
    eapply end_processed with (k := 0);
      [ exact Hrouted | | | | cbn [finished]; f_equal; state_eq ];
      [ reflexivity | left; exact Hblank | apply take_take_length ].
Qed.

Lemma loop_body_ends (E : Env) (id : Z) (raw : string) (s : state) :
  item_end E id raw s (loop_body E (id, raw) s).
Proof.
  destruct (pre_route raw) as [[cat clean]|] eqn:Hpre.
  - now apply (prefix_stage_ends E id raw cat clean).
  - replace (loop_body E (id, raw) s) with (fallback_stage E id raw s).
    + now apply fallback_stage_ends.
    + unfold loop_body, prefix_stage. now rewrite Hpre.
Qed.

(** ** The rows of the inbox *)

Lemma updated_row (u : inbox_update) (id : Z) (t : store) (r : inbox_row) :
  In r (inbox (run_stmt (UpdateInbox u id) t)) ->
  inbox_id r = id ->
  inbox_status r = set_status u
  /\ inbox_model r = set_model u
  /\ inbox_error r = set_error u
  /\ (forall v, set_category u = Some v -> inbox_category r = v)
  /\ (forall v, set_confidence u = Some v -> inbox_confidence r = v).
Proof.
  cbn [run_stmt inbox]. intros Hin Hid.
  apply in_map_iff in Hin. destruct Hin as (r0 & <- & _).
  unfold apply_update in *.
  destruct (inbox_id r0 =? id)%Z eqn:Heq.
  - cbn. repeat split; intros v ->; reflexivity.
  - apply Z.eqb_neq in Heq. contradiction.
Qed.

(** An update that names neither the category nor the confidence leaves
    both columns of every row as they are. *)
Lemma update_frame (u : inbox_update) (id : Z) (rows : list inbox_row) :
  set_category u = None ->
  set_confidence u = None ->
  Forall2 (fun r r' => inbox_id r' = inbox_id r
                       /\ inbox_category r' = inbox_category r
                       /\ inbox_confidence r' = inbox_confidence r)
          rows (map (apply_update u id) rows).
Proof.
  intros Hc Hf. induction rows as [|r rows IH]; cbn [map]; constructor;
    [|exact IH].
  unfold apply_update. destruct (inbox_id r =? id)%Z; cbn; [|auto].
  now rewrite Hc, Hf.
Qed.

(** ** C9 *)

(** C9. A people-prefixed item whose trimmed remainder is [mom], with an
    alias table that maps [mom] to [Jane Doe]: the item is processed and
    one people record is created, with name [Jane Doe] and with the whole
    raw text, prefix included, as its follow-up; the change is committed. *)
Theorem alias_mom_is_filed_as_jane_doe (E : Env) (id : Z) (raw : string)
    (s : state) :
  pre_route raw = Some ("people", "mom") ->
  dict_get (ALIASES E) "mom" = Some (JStr "Jane Doe") ->
  exists s',
    loop_body E (id, raw) s = Stop Continue s'
    /\ executed s'
       = (executed s
          ++ [InsertPeople (SText "Jane Doe") (SText "") (SText raw) (SText "");
              UpdateInbox (processed "people" float_one "prefix") id;
              InsertLogEvents "processed" id "prefix_route -> people"])%list
    /\ people (db s')
       = (people (db s)
          ++ [{| people_name := SText "Jane Doe"; people_context := SText "";
                 people_follow_up := SText raw;
                 people_last_contact := SText "" |}])%list
    /\ (forall r, In r (inbox (db s')) -> inbox_id r = id ->
                  inbox_status r = "processed")
    /\ committed s' = db s'.
Proof.
  intros Hpre Halias.
  eexists. split.
  - apply (prefix_files E id raw "people" "mom" (SText "Jane Doe") s Hpre);
      [discriminate|].
    unfold prefix_field, resolved_name.
    change (Py.lower "mom") with "mom". rewrite Halias. reflexivity.
  - split; [reflexivity|]. split; [reflexivity|]. split; [|reflexivity].
    intros r Hin Hid.
    apply (updated_row (processed "people" float_one "prefix") id) in Hin;
      [|exact Hid].
    apply Hin.
Qed.

Lemma alias_mom_witness :
  exists s',
    loop_body (Ref.env no_classifier (Some (dq "{'mom': 'Jane Doe'}")))
      (1%Z, "person: mom")
      (connect (inbox_of [unprocessed 1 "person: mom"]))
    = Stop Continue s'
    /\ executed s'
       = [InsertPeople (SText "Jane Doe") (SText "")
            (SText "person: mom") (SText "");
          UpdateInbox (processed "people" float_one "prefix") 1;
          InsertLogEvents "processed" 1 "prefix_route -> people"]
    /\ people (db s')
       = [{| people_name := SText "Jane Doe"; people_context := SText "";
             people_follow_up := SText "person: mom";
             people_last_contact := SText "" |}]
    /\ (forall r, In r (inbox (db s')) -> inbox_id r = 1%Z ->
                  inbox_status r = "processed")
    /\ committed s' = db s'.
Proof.
  apply (alias_mom_is_filed_as_jane_doe
           (Ref.env no_classifier (Some (dq "{'mom': 'Jane Doe'}")))
           1 "person: mom"
           (connect (inbox_of [unprocessed 1 "person: mom"]))).
  - vm_compute. reflexivity.
  - vm_compute. reflexivity.
Defined.

(** ** C2 *)

Lemma records_prefix_record (cat : string) (field : sqlval) (raw : string)
    (t : store) :
  records (run_stmt (prefix_record cat field raw) t) = S (records t).
Proof.
  unfold prefix_record, records.
  repeat match goal with
         | |- context [if ?b then _ else _] => destruct b
         end;
    cbn [run_stmt people projects ideas admin];
    rewrite length_app; cbn [length]; lia.
Qed.

Lemma required_prefix_record (cat : string) (field : sqlval) (raw : string) :
  required_field (prefix_record cat field raw) = Some field.
Proof.
  unfold prefix_record.
  repeat match goal with
         | |- context [if ?b then _ else _] => destruct b
         end; reflexivity.
Qed.

(** C2, amended.  A raw text that starts with a recognized prefix followed
    by content that is not blank: the item is processed with the category
    of the prefix and confidence 1.0, exactly one category record is
    created, and the change is committed.  The required field of the record
    is the trimmed remainder under the admin, project and idea prefixes;
    under the person and people prefixes it is the name the remainder
    resolves to (its alias, the capitalised kinship word, or the remainder
    itself), provided that name is a text that is not blank. *)
Theorem prefix_item_is_processed (E : Env) (id : Z) (raw cat clean name : string)
    (s : state) :
  pre_route raw = Some (cat, clean) ->
  clean <> "" ->
  prefix_field E cat clean = Some (SText name) ->
  blank (SText name) = false ->
  exists s',
    loop_body E (id, raw) s = Stop Continue s'
    /\ executed s'
       = (executed s
          ++ [prefix_record cat (SText name) raw;
              UpdateInbox (processed cat float_one "prefix") id;
              InsertLogEvents "processed" id ("prefix_route -> " ++ cat)])%list
    /\ required_field (prefix_record cat (SText name) raw) = Some (SText name)
    /\ records (db s') = S (records (db s))
    /\ (cat <> "people" -> name = clean)
    /\ (cat = "people" -> resolved_name (ALIASES E) clean = JStr name)
    /\ (forall r, In r (inbox (db s')) -> inbox_id r = id ->
                  inbox_status r = "processed"
                  /\ inbox_category r = SText cat
                  /\ inbox_confidence r = SReal float_one)
    /\ committed s' = db s'.
Proof.
  intros Hpre Hne Hfield Hblank.
  eexists. split;
    [exact (prefix_files E id raw cat clean (SText name) s Hpre Hne Hfield)|].
  split; [reflexivity|].
  split; [apply required_prefix_record|].
  split; [|split; [|split; [|split; [|reflexivity]]]].
  - cbn [after db run_stmts fold_left].
    change (records (run_stmt _ (run_stmt _ ?t))) with (records t).
    apply records_prefix_record.
  - intros Hcat. unfold prefix_field in Hfield.
    destruct (cat =? "people") eqn:Heq.
    + apply String.eqb_eq in Heq. contradiction.
    + now injection Hfield as <-.
  - intros ->. unfold prefix_field in Hfield. cbn [String.eqb] in Hfield.
    change ("people" =? "people") with true in Hfield. cbv iota in Hfield.
    destruct (truthy (resolved_name (ALIASES E) clean)); [|discriminate].
    destruct (resolved_name (ALIASES E) clean) as [|b|z|f|t|l|d];
      cbn [adapt] in Hfield;
      try discriminate Hfield;
      try (destruct b; discriminate Hfield);
      try (destruct ((int64_min <=? z)%Z && (z <=? int64_max)%Z);
           discriminate Hfield);
      try (destruct f; discriminate Hfield).
    now injection Hfield as <-.
  - intros r Hin Hid.
    cbn [after db run_stmts fold_left] in Hin.
    change (inbox (run_stmt (InsertLogEvents ?a ?b ?c) ?t)) with (inbox t) in Hin.
    apply updated_row in Hin; [|exact Hid].
    destruct Hin as (Hs & _ & _ & Hc & Hf).
    split; [exact Hs|]. split; [now apply Hc | now apply Hf].
Qed.

Lemma prefix_item_witness :
  exists s',
    loop_body (Ref.env no_classifier None) (7%Z, "  Admin:  pay rent ")
      (connect (inbox_of [unprocessed 7 "  Admin:  pay rent "]))
    = Stop Continue s'
    /\ executed s'
       = [InsertAdmin (SText "pay rent") (SText "") (SText "open");
          UpdateInbox (processed "admin" float_one "prefix") 7;
          InsertLogEvents "processed" 7 "prefix_route -> admin"]
    /\ required_field (InsertAdmin (SText "pay rent") (SText "") (SText "open"))
       = Some (SText "pay rent")
    /\ records (db s') = 1
    /\ ("admin" <> "people" -> "pay rent" = "pay rent")
    /\ ("admin" = "people" -> resolved_name [] "pay rent" = JStr "pay rent")
    /\ (forall r, In r (inbox (db s')) -> inbox_id r = 7%Z ->
                  inbox_status r = "processed"
                  /\ inbox_category r = SText "admin"
                  /\ inbox_confidence r = SReal float_one)
    /\ committed s' = db s'.
Proof.
  apply (prefix_item_is_processed (Ref.env no_classifier None) 7
           "  Admin:  pay rent " "admin" "pay rent" "pay rent"
           (connect (inbox_of [unprocessed 7 "  Admin:  pay rent "]))).
  - vm_compute. reflexivity.
  - discriminate.
  - vm_compute. reflexivity.
  - vm_compute. reflexivity.
Defined.

(** C2 as it is written fails under a people prefix: the remainder [mom]
    is a kinship word, and the record is filed under [Mom]. *)
Lemma kinship_word_is_not_the_remainder :
  pre_route "person: mom" = Some ("people", "mom")
  /\ exists s',
       loop_body (Ref.env no_classifier None) (1%Z, "person: mom")
         (connect (inbox_of [unprocessed 1 "person: mom"]))
       = Stop Continue s'
       /\ map inbox_status (inbox (db s')) = ["processed"]
       /\ map people_name (people (db s')) = [SText "Mom"]
       /\ SText "Mom" <> SText "mom".
Proof.
  split; [vm_compute; reflexivity|].
  eexists. split; [vm_compute; reflexivity|].
  split; [reflexivity|]. split; [reflexivity|]. discriminate.
Qed.

(** ** C1 *)

(** The invariant of the required field, as far as the code keeps it.  When
    no value of the alias table is blank, an item that the loop body
    finishes is either sent to review without any record, or processed
    with exactly one record whose required field is not empty after
    trimming.  A blank required field can only come from the alias
    table. *)
Lemma required_field_invariant (E : Env) (id : Z) (raw : string)
    (s s' : state) :
  (forall v, alias_value E v -> blank v = false) ->
  finished (loop_body E (id, raw) s) = Some s' ->
  exists u details,
    (set_status u = "needs_review"
     /\ executed s'
        = (executed s
           ++ [UpdateInbox u id; InsertLogEvents "needs_review" id details])%list)
    \/ (set_status u = "processed"
        /\ exists q v,
             executed s'
             = (executed s
                ++ [q; UpdateInbox u id;
                    InsertLogEvents "processed" id details])%list
             /\ required_field q = Some v
             /\ blank v = false).
Proof.
  intros Halias Hfin.
  destruct (loop_body_ends E id raw s) as
    [ e k He | err Htot Herr He | k cat conf model err details Hr Hlen He
    | k q v cat conf model details Hr Hreq Hv Hlen He ];
    rewrite He in Hfin; try discriminate; injection Hfin as <-.
  - exists (review_error err), (Py.take 2000 err). left. split; reflexivity.
  - exists (review cat conf model err), details. left. split; reflexivity.
  - exists (processed cat conf model), details. right. split; [reflexivity|].
    exists q, v. split; [reflexivity|]. split; [exact Hreq|].
    destruct Hv as [Hv|Hv]; [exact Hv | now apply Halias].
Qed.

(** C1 fails on the code.  With an alias file that maps [mom] to a blank
    text, the item [person: mom] is processed and a people record is
    created whose name is empty after trimming. *)
Theorem blank_alias_is_filed :
  exists s',
    loop_body (Ref.env no_classifier (Some (dq "{'mom': ' '}")))
      (1%Z, "person: mom")
      (connect (inbox_of [unprocessed 1 "person: mom"]))
    = Stop Continue s'
    /\ map inbox_status (inbox (db s')) = ["processed"]
    /\ map people_name (people (db s')) = [SText " "]
    /\ blank (SText " ") = true.
Proof.
  eexists. split; [vm_compute; reflexivity|].
  split; [reflexivity|]. split; reflexivity.
Qed.

(** ** C3 *)

(** C3 fails on the code.  The classifier answers the first item with a
    confidence that [float] cannot convert: [ValueError] leaves the loop,
    nothing is written for the first item, and the second item, which the
    prefix router files when it is alone, stays unprocessed. *)
Theorem unconvertible_confidence_aborts_the_batch :
  let E := Ref.env
             (classifier_says
                (dq "{'category': 'admin', 'confidence': 'high', 'fields': {'task': 'buy milk'}}"))
             None in
  (exists s',
     main E 10 (connect (inbox_of [unprocessed 1 "buy milk";
                                   unprocessed 2 "admin: pay rent"]))
     = Stop (Raise ValueError) s'
     /\ executed s' = []
     /\ map inbox_status (inbox (committed s'))
        = ["unprocessed"; "unprocessed"])
  /\ (exists s',
        main E 10 (connect (inbox_of [unprocessed 2 "admin: pay rent"]))
        = Ok 0%Z s'
        /\ map inbox_status (inbox (committed s')) = ["processed"]).
Proof.
  split; eexists; (split; [vm_compute; reflexivity|]).
  - split; reflexivity.
  - reflexivity.
Qed.

(** ** C4 *)

(** C4, amended.  The retry loop always ends; it runs the classifier at most
    [MAX_RETRIES + 1] times and does nothing else.  It leaves at the first
    attempt whose parsed output is a non-empty object, with that object as
    its result, and it spends every attempt when none gives one. *)
Theorem retry_loop_stops_at_first_nonempty_object (E : Env) (raw : string)
    (s : state) :
  exists k res err,
    retry_loop E raw (seq 0 (MAX_RETRIES + 1)) "" s = Ok (res, err) (called k s)
    /\ k <= MAX_RETRIES + 1
    /\ (forall j v,
          j < MAX_RETRIES + 1 ->
          (forall i, i < j -> succeeds E raw (calls s + i) = false) ->
          parsed_output E raw (calls s + j) = Some v ->
          nonempty_object v = true ->
          k = S j /\ res = v)
    /\ ((forall j, j < MAX_RETRIES + 1 -> succeeds E raw (calls s + j) = false) ->
        k = MAX_RETRIES + 1 /\ res = JNull).
Proof.
  destruct (retry_loop_ends E raw (seq 0 (MAX_RETRIES + 1)) "" s)
    as (k & res & err & Hrun & Hk & _).
  rewrite length_seq in Hk.
  exists k, res, err. split; [exact Hrun|]. split; [exact Hk|]. split.
  - intros j v Hj Hbefore Hv Hobj.
    assert (Hsplit : exists pre post,
               seq 0 (MAX_RETRIES + 1) = (pre ++ j :: post)%list
               /\ length pre = j).
    { unfold MAX_RETRIES in *. cbn [Nat.add seq].
      destruct j as [|[|[|j]]]; [| | |lia].
      - now exists [], [1; 2].
      - now exists [0], [2].
      - now exists [0; 1], []. }
    destruct Hsplit as (pre & post & Hseq & Hlen).
    rewrite Hseq in Hrun.
    rewrite (retry_loop_first_success E raw pre j post "" s v) in Hrun.
    + injection Hrun as <- _ Hcalls.
      split; [lia|reflexivity].
    + rewrite Hlen. exact Hbefore.
    + now rewrite Hlen.
    + exact Hobj.
  - intros Hall.
    rewrite (retry_loop_all_fail E raw (seq 0 (MAX_RETRIES + 1)) "" s) in Hrun.
    + injection Hrun as <- _ Hcalls.
      split; [unfold MAX_RETRIES in *; cbn in Hcalls |- *; lia|reflexivity].
    + now rewrite length_seq.
Qed.

(** C4 as it is written fails when the classifier prints the empty object:
    the output of the first attempt parses to an object that is not none,
    and the loop still spends all three attempts and ends without a
    result. *)
Lemma empty_object_is_retried :
  let E := Ref.env (classifier_says "{}") None in
  let s := connect (inbox_of [unprocessed 1 "buy milk"]) in
  parsed_output E "buy milk" 0 = Some (JObj [])
  /\ is_dict (JObj []) = true
  /\ JObj [] <> JNull
  /\ retry_loop E "buy milk" (seq 0 (MAX_RETRIES + 1)) "" s
     = Ok (JNull, "invalid json (attempt 2)") (called 3 s).
Proof.
  cbv zeta. split; [vm_compute; reflexivity|].
  split; [reflexivity|]. split; [discriminate|].
  vm_compute. reflexivity.
Qed.

(** ** C5 *)

Lemma append_assoc (a b c : string) : (a ++ b) ++ c = a ++ b ++ c.
Proof. induction a as [|x a IH]; cbn; [reflexivity|now rewrite IH]. Qed.

Lemma ord_char (c : ascii) (n : N) :
  (n < 256)%N -> (Py.ord c =? n)%N = true -> c = ascii_of_N n.
Proof.
  intros _ H. apply N.eqb_eq in H. unfold Py.ord in H.
  now rewrite <- H, ascii_N_embedding.
Qed.

Lemma from_open_brace_spec (s t : string) :
  from_open_brace s = Some t ->
  exists pre r, s = pre ++ t /\ t = String "{" r /\ occurs 123 pre = false.
Proof.
  revert t. induction s as [|c s IH]; intros t; cbn [from_open_brace];
    [discriminate|].
  destruct (Py.ord c =? 123)%N eqn:Hc.
  - intros H; injection H as <-.
    exists "", s. repeat split.
    now rewrite (ord_char c 123 eq_refl Hc).
  - intros H. destruct (IH t H) as (pre & r & -> & Ht & Hpre).
    exists (String c pre), r. repeat split; [exact Ht|].
    cbn [occurs]. now rewrite Hc, Hpre.
Qed.

Lemma upto_last_close_none (s : string) :
  upto_last_close s = None -> occurs 125 s = false.
Proof.
  induction s as [|c s IH]; cbn [upto_last_close occurs]; [reflexivity|].
  destruct (upto_last_close s); [discriminate|].
  destruct (Py.ord c =? 125)%N; [discriminate|].
  intros _. now apply IH.
Qed.

Lemma upto_last_close_spec (s b : string) :
  upto_last_close s = Some b ->
  exists m post, s = b ++ post /\ b = m ++ "}" /\ occurs 125 post = false.
Proof.
  revert b. induction s as [|c s IH]; intros b; cbn [upto_last_close];
    [discriminate|].
  destruct (upto_last_close s) as [t|] eqn:Hs.
  - intros H; injection H as <-.
    destruct (IH t eq_refl) as (m & post & -> & -> & Hpost).
    exists (String c m), post. now repeat split.
  - destruct (Py.ord c =? 125)%N eqn:Hc; [|discriminate].
    intros H; injection H as <-.
    exists "", s. repeat split.
    + now rewrite (ord_char c 125 eq_refl Hc).
    + now apply upto_last_close_none.
Qed.

Lemma from_open_brace_finds (pre rest : string) :
  exists x, from_open_brace (pre ++ String "{" rest)
            = Some (x ++ String "{" rest).
Proof.
  induction pre as [|c pre IH]; cbn [append from_open_brace].
  - now exists "".
  - destruct (Py.ord c =? 123)%N.
    + now exists (String c pre).
    + exact IH.
Qed.

Lemma upto_last_close_finds (x post : string) :
  upto_last_close (x ++ String "}" post) <> None.
Proof.
  induction x as [|c x IH]; cbn [append upto_last_close].
  - now destruct (upto_last_close post).
  - now destruct (upto_last_close (x ++ String "}" post)).
Qed.

(** The pattern of the second attempt matches from the first opening brace
    to the last closing brace, and fails only when no closing brace follows
    an opening brace. *)
Lemma search_braces_spec (t : string) :
  (forall blob, search_braces t = Some blob ->
     exists pre mid post,
       t = pre ++ blob ++ post /\ blob = "{" ++ mid ++ "}"
       /\ occurs 123 pre = false /\ occurs 125 post = false)
  /\ (search_braces t = None ->
      forall pre mid post, t <> pre ++ "{" ++ mid ++ "}" ++ post).
Proof.
  unfold search_braces. split.
  - intros blob H.
    destruct (from_open_brace t) as [u|] eqn:Hu; [|discriminate].
    destruct (from_open_brace_spec _ _ Hu) as (pre & r & -> & Hur & Hpre).
    destruct (upto_last_close_spec _ _ H) as (m & post & Hup & -> & Hpost).
    exists pre, (Py.drop 1 m), post.
    split; [now rewrite <- Hup|]. split; [|now split].
    rewrite Hur in Hup. destruct m as [|c m]; cbn in Hup.
    + discriminate.
    + now injection Hup as <- _.
  - intros H pre mid post ->.
    destruct (from_open_brace_finds pre (mid ++ "}" ++ post)) as (x & Hx).
    cbn [append] in Hx, H. rewrite Hx in H.
    apply (upto_last_close_finds (x ++ String "{" mid) post).
    now rewrite append_assoc.
Qed.

(** C5, amended.  The response parser returns the first value that parses,
    whatever its type: the whole trimmed text if it parses, else the text
    from the first opening brace to the last closing brace if there is one
    and it parses; it returns none when both attempts fail.  Values that
    are not objects are refused by its caller, the retry loop, which takes
    a parsed value as its result only if it is a non-empty object. *)
Theorem extract_json_returns_first_parsed_value (E : Env) (s : string) :
  let t := Py.strip s in
  (forall v, json_loads E t = Some v -> extract_json E s = v)
  /\ (json_loads E t = None ->
      forall blob v, search_braces t = Some blob ->
                     json_loads E blob = Some v -> extract_json E s = v)
  /\ (json_loads E t = None ->
      (forall blob, search_braces t = Some blob -> json_loads E blob = None) ->
      extract_json E s = JNull)
  /\ (forall blob, search_braces t = Some blob ->
        exists pre mid post,
          t = pre ++ blob ++ post /\ blob = "{" ++ mid ++ "}"
          /\ occurs 123 pre = false /\ occurs 125 post = false)
  /\ (search_braces t = None ->
      forall pre mid post, t <> pre ++ "{" ++ mid ++ "}" ++ post)
  /\ (forall raw attempt st v st',
        attempt_once E raw attempt st = Ok (inl v) st' ->
        nonempty_object v = true).
Proof.
  cbv zeta. unfold extract_json.
  split; [intros v ->; reflexivity|].
  split; [intros -> blob v -> ->; reflexivity|].
  split.
  { intros -> Hall. destruct (search_braces (Py.strip s)) as [blob|];
      [|reflexivity].
    now rewrite (Hall blob eq_refl). }
  split; [apply search_braces_spec|].
  split; [apply search_braces_spec|].
  intros raw attempt st v st'. rewrite attempt_once_run.
  destruct (parsed_output E raw (calls st)) as [w|]; [|discriminate].
  destruct (nonempty_object w) eqn:Hw; [|discriminate].
  intros H. now injection H as <- _.
Qed.

(** C5 as it is written fails: the parser returns a number and a list as
    they are, neither an object nor none. *)
Lemma extract_json_returns_a_number :
  let E := Ref.env no_classifier None in
  extract_json E "5" = JInt 5
  /\ JInt 5 <> JNull
  /\ is_dict (JInt 5) = false
  /\ extract_json E "[1, 2]" = JArr [JInt 1; JInt 2].
Proof.
  cbv zeta. split; [vm_compute; reflexivity|].
  split; [discriminate|]. split; [reflexivity|].
  vm_compute. reflexivity.
Qed.

(** ** C6 *)

(** The run of the loop body on an item for which every attempt fails. *)
Lemma total_failure_run (E : Env) (id : Z) (raw : string) (s : state) :
  total_failure E raw s ->
  loop_body E (id, raw) s
  = Stop Continue
      (after [UpdateInbox
                (review_error
                   (failure_text E raw (calls s + MAX_RETRIES) MAX_RETRIES)) id;
              InsertLogEvents "needs_review" id
                (Py.take 2000
                   (failure_text E raw (calls s + MAX_RETRIES) MAX_RETRIES))]
             (MAX_RETRIES + 1) s).
Proof.
  intros [Hpre Hall].
  unfold loop_body, prefix_stage. rewrite Hpre.
  unfold bind at 1. cbn [ret]. unfold fallback_stage. unfold bind at 1.
  rewrite retry_loop_all_fail by (now rewrite length_seq).
  cbn [truthy negb]. run.
  replace (calls s + MAX_RETRIES) with (S (S (calls s)))
    by (unfold MAX_RETRIES; lia).
  rewrite details_or_empty. f_equal. state_eq.
Qed.

(** C6. When every attempt of the fallback fails, the item is marked
    needs_review, the stored error is the failure text of the last
    attempt, no category record is created, and the change is committed. *)
Theorem total_failure_needs_review (E : Env) (id : Z) (raw : string)
    (s : state) :
  total_failure E raw s ->
  let err := failure_text E raw (calls s + MAX_RETRIES) MAX_RETRIES in
  exists s',
    loop_body E (id, raw) s = Stop Continue s'
    /\ executed s'
       = (executed s
          ++ [UpdateInbox (review_error err) id;
              InsertLogEvents "needs_review" id (Py.take 2000 err)])%list
    /\ calls s' = MAX_RETRIES + 1 + calls s
    /\ people (db s') = people (db s)
    /\ projects (db s') = projects (db s)
    /\ ideas (db s') = ideas (db s)
    /\ admin (db s') = admin (db s)
    /\ (forall r, In r (inbox (db s')) -> inbox_id r = id ->
                  inbox_status r = "needs_review"
                  /\ inbox_error r = SText err
                  /\ inbox_model r = SText MODEL)
    /\ committed s' = db s'.
Proof.
  intros Htot err.
  eexists. split; [exact (total_failure_run E id raw s Htot)|].
  repeat (split; [reflexivity|]).
  split; [|reflexivity].
  intros r Hin Hid.
  cbn [after db run_stmts fold_left] in Hin.
  change (inbox (run_stmt (InsertLogEvents ?a ?b ?c) ?t)) with (inbox t) in Hin.
  apply updated_row in Hin; [|exact Hid].
  destruct Hin as (Hs & Hm & He & _).
  now repeat split.
Qed.

Lemma total_failure_witness :
  let E := Ref.env (classifier_says "I cannot help with that.") None in
  let s := connect (inbox_of [unprocessed 1 "buy milk"]) in
  exists s',
    loop_body E (1%Z, "buy milk") s = Stop Continue s'
    /\ executed s'
       = [UpdateInbox (review_error "invalid json (attempt 2)") 1;
          InsertLogEvents "needs_review" 1 "invalid json (attempt 2)"]
    /\ calls s' = 3
    /\ people (db s') = []
    /\ projects (db s') = []
    /\ ideas (db s') = []
    /\ admin (db s') = []
    /\ (forall r, In r (inbox (db s')) -> inbox_id r = 1%Z ->
                  inbox_status r = "needs_review"
                  /\ inbox_error r = SText "invalid json (attempt 2)"
                  /\ inbox_model r = SText MODEL)
    /\ committed s' = db s'.
Proof.
  cbv zeta.
  assert (Htot : total_failure
                   (Ref.env (classifier_says "I cannot help with that.") None)
                   "buy milk" (connect (inbox_of [unprocessed 1 "buy milk"]))).
  { split; [vm_compute; reflexivity|].
    intros [|[|[|j]]] Hj; [vm_compute; reflexivity ..|].
    unfold MAX_RETRIES in Hj. lia. }
  exact (total_failure_needs_review
           (Ref.env (classifier_says "I cannot help with that.") None)
           1 "buy milk" (connect (inbox_of [unprocessed 1 "buy milk"])) Htot).
Defined.

(** ** C7 *)

Lemma take_take (n : nat) (t : string) : Py.take n (Py.take n t) = Py.take n t.
Proof.
  revert n. induction t as [|c t IH]; intros [|n]; cbn [Py.take];
    try reflexivity.
  now rewrite IH.
Qed.

Lemma below_threshold_is_number (f : float) :
  SFltb f CONF_THRESHOLD = true -> stored_float f = SReal f.
Proof.
  destruct f as [sg | sg | | sg m e]; try reflexivity.
  intros H. discriminate H.
Qed.

(** C7. A result that the retry loop accepts, with one of the four
    categories and a confidence below the threshold: the item is marked
    needs_review with that category and that confidence, no category
    record is created, and the change is committed. *)
Theorem low_confidence_needs_review (E : Env) (id : Z) (raw : string)
    (d : dict) (c err : string) (f : float) (s s1 : state) :
  pre_route raw = None ->
  retry_loop E raw (seq 0 (MAX_RETRIES + 1)) "" s = Ok (JObj d, err) s1 ->
  dict_get d "category" = Some (JStr c) ->
  In c categories ->
  confidence_of E d = inr f ->
  SFltb f CONF_THRESHOLD = true ->
  exists s',
    loop_body E (id, raw) s = Stop Continue s'
    /\ executed s'
       = (executed s1
          ++ [UpdateInbox
                {| set_status := "needs_review";
                   set_category := Some (SText c);
                   set_confidence := Some (SReal f);
                   set_model := SText MODEL; set_error := SText "" |} id;
              InsertLogEvents "needs_review" id
                (Py.take 2000 (json_dumps E (JObj d)))])%list
    /\ people (db s') = people (db s1)
    /\ projects (db s') = projects (db s1)
    /\ ideas (db s') = ideas (db s1)
    /\ admin (db s') = admin (db s1)
    /\ (forall r, In r (inbox (db s')) -> inbox_id r = id ->
                  inbox_status r = "needs_review"
                  /\ inbox_category r = SText c
                  /\ inbox_confidence r = SReal f)
    /\ committed s' = db s'.
Proof.
  intros Hpre Hrun Hcat Hin Hconf Hlt.
  assert (Hgo :
    loop_body E (id, raw) s
    = Stop Continue
        (after [UpdateInbox
                  {| set_status := "needs_review";
                     set_category := Some (SText c);
                     set_confidence := Some (SReal f);
                     set_model := SText MODEL; set_error := SText "" |} id;
                InsertLogEvents "needs_review" id
                  (Py.take 2000 (json_dumps E (JObj d)))] 0 s1)).
  { unfold loop_body, prefix_stage. rewrite Hpre.
    unfold bind at 1. cbn [ret]. unfold fallback_stage. unfold bind at 1.
    rewrite Hrun.
    assert (Hd : truthy (JObj d) = true) by (destruct d; [discriminate|reflexivity]).
    rewrite Hd. cbn [negb when]. unfold bind at 1. cbn [ret].
    unfold route_result. run. rewrite Hcat.
    unfold confidence_of in Hconf. rewrite Hconf. run.
    assert (Hvalid : in_strs (JStr c) categories = true).
    { unfold in_strs. apply existsb_exists. exists c. split; [exact Hin|].
      cbn. apply String.eqb_refl. }
    rewrite Hvalid, Hlt. cbn [negb orb]. run.
    rewrite details_or_empty, take_take.
    change (match f with S754_nan => SNull | _ => SReal f end)
      with (stored_float f).
    rewrite (below_threshold_is_number f Hlt).
    f_equal. state_eq. }
  eexists. split; [exact Hgo|].
  repeat (split; [reflexivity|]).
  split; [|reflexivity].
  intros r Hr Hid.
  cbn [after db run_stmts fold_left] in Hr.
  change (inbox (run_stmt (InsertLogEvents ?a ?b ?c) ?t)) with (inbox t) in Hr.
  apply updated_row in Hr; [|exact Hid].
  destruct Hr as (Hs & _ & _ & Hc & Hf).
  split; [exact Hs|]. split; [now apply Hc | now apply Hf].
Qed.

Lemma low_confidence_witness :
  let E := Ref.env
             (classifier_says
                (dq "{'category': 'projects', 'confidence': 0.4, 'fields': {'name': 'Migrate DB'}}"))
             None in
  let s := connect (inbox_of [unprocessed 1 "migrate the db"]) in
  let f := float_of_decimal 4 (-1) in
  SFltb f CONF_THRESHOLD = true
  /\ exists s',
       loop_body E (1%Z, "migrate the db") s = Stop Continue s'
       /\ executed s'
          = [UpdateInbox
               {| set_status := "needs_review";
                  set_category := Some (SText "projects");
                  set_confidence := Some (SReal f);
                  set_model := SText MODEL; set_error := SText "" |} 1;
             InsertLogEvents "needs_review" 1
               (dq "{'category': 'projects', 'confidence': 0.4, 'fields': {'name': 'Migrate DB'}}")]
       /\ people (db s') = []
       /\ projects (db s') = []
       /\ ideas (db s') = []
       /\ admin (db s') = []
       /\ (forall r, In r (inbox (db s')) -> inbox_id r = 1%Z ->
                     inbox_status r = "needs_review"
                     /\ inbox_category r = SText "projects"
                     /\ inbox_confidence r = SReal f)
       /\ committed s' = db s'.
Proof.
  cbv zeta. split; [vm_compute; reflexivity|].
  apply (low_confidence_needs_review
           (Ref.env
              (classifier_says
                 (dq "{'category': 'projects', 'confidence': 0.4, 'fields': {'name': 'Migrate DB'}}"))
              None)
           1 "migrate the db"
           [("category", JStr "projects");
            ("confidence", JFloat (float_of_decimal 4 (-1)));
            ("fields", JObj [("name", JStr "Migrate DB")])]
           "projects" "" (float_of_decimal 4 (-1))
           (connect (inbox_of [unprocessed 1 "migrate the db"]))
           (called 1 (connect (inbox_of [unprocessed 1 "migrate the db"])))).
  - vm_compute. reflexivity.
  - vm_compute. reflexivity.
  - reflexivity.
  - cbn. tauto.
  - vm_compute. reflexivity.
  - vm_compute. reflexivity.
Defined.

(** ** The audit trail *)

Lemma audited_app_bounded (n : nat) :
  forall a b : list stmt,
    length a <= n ->
    audited a = true -> audited b = true -> audited (a ++ b) = true.
Proof.
  induction n as [|n IH]; intros a b Hlen Ha Hb.
  - destruct a; [exact Hb|cbn in Hlen; lia].
  - destruct a as [|q a]; [exact Hb|].
    cbn [length] in Hlen.
    destruct q as [n1 c1 f1 l1 | n2 s2 a2 o2 | t3 o3 n3 | t4 d4 s4
                  | ev id details | u id].
    1-4: cbn [audited app] in *; apply IH; [lia | exact Ha | exact Hb].
    + discriminate Ha.
    + destruct a as [|q2 rest]; [discriminate Ha|].
      destruct q2; try discriminate Ha.
      cbn [audited app] in *.
      apply andb_true_iff in Ha. destruct Ha as [Hcond Hrest].
      rewrite Hcond. cbn [andb].
      apply IH; [cbn [length] in Hlen; lia | exact Hrest | exact Hb].
Qed.

Lemma audited_app (a b : list stmt) :
  audited a = true -> audited b = true -> audited (a ++ b) = true.
Proof. apply (audited_app_bounded (length a)). lia. Qed.

Lemma finished_state (o : outcome unit) (s : state) :
  finished o = Some s -> state_of o = s.
Proof.
  destruct o as [a s'|[e|] s']; cbn; intros H; try discriminate;
    now injection H.
Qed.

Lemma run_stmts_app (a b : list stmt) (t : store) :
  run_stmts (a ++ b) t = run_stmts b (run_stmts a t).
Proof. apply fold_left_app. Qed.

(** The statements of one item: nothing, or at most one record, then the
    update of the item and its log event. *)
Lemma loop_body_audited (E : Env) (r : Z * string) (s : state) :
  exists qs,
    executed (state_of (loop_body E r s)) = (executed s ++ qs)%list
    /\ db (state_of (loop_body E r s)) = run_stmts qs (db s)
    /\ audited qs = true.
Proof.
  destruct r as [id raw].
  destruct (loop_body_ends E id raw s) as
    [ e k He | err Htot Herr He | k cat conf model err details Hr Hlen He
    | k q v cat conf model details Hr Hreq Hv Hlen He ].
  - exists []. rewrite He. cbn. now rewrite app_nil_r.
  - apply finished_state in He. rewrite He.
    eexists. split; [reflexivity|]. split; [reflexivity|].
    cbn [audited review_error set_status]. rewrite Z.eqb_refl.
    cbn [String.eqb Ascii.eqb Bool.eqb andb orb].
    rewrite andb_true_r. apply Nat.leb_le, take_length.
  - apply finished_state in He. rewrite He.
    eexists. split; [reflexivity|]. split; [reflexivity|].
    cbn [audited review set_status]. rewrite Z.eqb_refl.
    cbn [String.eqb Ascii.eqb Bool.eqb andb orb].
    rewrite andb_true_r. now apply Nat.leb_le.
  - apply finished_state in He. rewrite He.
    eexists. split; [reflexivity|]. split; [reflexivity|].
    destruct q; try discriminate Hreq;
      cbn [audited processed set_status]; rewrite Z.eqb_refl;
      cbn [String.eqb Ascii.eqb Bool.eqb andb orb];
      rewrite andb_true_r; now apply Nat.leb_le.
Qed.

Lemma for_rows_audited (E : Env) (rows : list (Z * string)) :
  forall s : state,
    exists qs,
      executed (state_of (for_rows E rows s)) = (executed s ++ qs)%list
      /\ db (state_of (for_rows E rows s)) = run_stmts qs (db s)
      /\ audited qs = true.
Proof.
  induction rows as [|r rows IH]; intros s.
  - exists []. cbn. now rewrite app_nil_r.
  - destruct (loop_body_audited E r s) as (q1 & He1 & Hd1 & Ha1).
    cbn [for_rows].
    destruct (loop_body E r s) as [a s1|[e|] s1]; cbn [state_of] in He1, Hd1.
    1, 3: destruct (IH s1) as (q2 & He2 & Hd2 & Ha2);
      exists (q1 ++ q2)%list;
      rewrite He2, Hd2, He1, Hd1, app_assoc, run_stmts_app;
      repeat split; now apply audited_app.
    exists q1. now repeat split.
Qed.

Lemma SELECT_unprocessed_cases (limit : Z) (s : state) :
  (exists e, SELECT_unprocessed limit s = Stop (Raise e) s)
  \/ (exists rows, SELECT_unprocessed limit s = Ok rows s).
Proof.
  unfold SELECT_unprocessed, bind.
  destruct (adapt (JInt limit)) as [e|n]; cbn [lift raise ret].
  - left. now exists e.
  - right. eexists. reflexivity.
Qed.

(** ** C10 *)

Lemma routed_not_total_failure (E : Env) (raw : string) (s : state) :
  routed E raw s -> ~ total_failure E raw s.
Proof.
  intros [Hpre|(j & Hj & Hs)] [Hnone Hall].
  - contradiction.
  - rewrite (Hall j Hj) in Hs. discriminate.
Qed.

(** C10. An update that sends an item to review leaves the category and the
    confidence of the item alone when every attempt of the fallback has
    failed: it names the status, the error and the model only, and both
    columns keep their value in every row.  Every other update to
    needs_review assigns the category and the confidence as well. *)
Theorem review_keeps_category_only_on_total_failure (E : Env) (id : Z)
    (raw : string) (s s' : state) (qs : list stmt) (u : inbox_update) (id' : Z) :
  finished (loop_body E (id, raw) s) = Some s' ->
  executed s' = (executed s ++ qs)%list ->
  In (UpdateInbox u id') qs ->
  set_status u = "needs_review" ->
  (total_failure E raw s
   /\ set_category u = None /\ set_confidence u = None
   /\ Forall2 (fun r r' => inbox_id r' = inbox_id r
                           /\ inbox_category r' = inbox_category r
                           /\ inbox_confidence r' = inbox_confidence r)
              (inbox (db s)) (inbox (db s')))
  \/ (~ total_failure E raw s
      /\ (exists c, set_category u = Some c)
      /\ (exists f, set_confidence u = Some f)).
Proof.
  intros Hfin Hexec Hin Hstatus.
  destruct (loop_body_ends E id raw s) as
    [ e k He | err Htot Herr He | k cat conf model err details Hr Hlen He
    | k q v cat conf model details Hr Hreq Hv Hlen He ];
    rewrite He in Hfin; try discriminate; injection Hfin as <-;
    cbn [after executed] in Hexec; apply app_inv_head in Hexec; subst qs;
    cbn [In] in Hin.
  - destruct Hin as [Hu|[Hu|[]]]; [|discriminate].
    injection Hu as <- <-. left.
    split; [exact Htot|]. split; [reflexivity|]. split; [reflexivity|].
    cbn [after db run_stmts fold_left run_stmt inbox].
    now apply update_frame.
  - destruct Hin as [Hu|[Hu|[]]]; [|discriminate].
    injection Hu as <- <-. right.
    split; [now apply routed_not_total_failure|].
    split; eexists; reflexivity.
  - destruct Hin as [Hu|[Hu|[Hu|[]]]].
    + subst q. discriminate Hreq.
    + injection Hu as <- <-. discriminate Hstatus.
    + discriminate.
Qed.

Lemma review_keeps_category_witness :
  let E := Ref.env (classifier_says "I cannot help with that.") None in
  let s := connect (inbox_of [unprocessed 1 "buy milk"]) in
  let u := review_error "invalid json (attempt 2)" in
  let s' := after [UpdateInbox u 1;
                   InsertLogEvents "needs_review" 1 "invalid json (attempt 2)"]
                  3 s in
  (total_failure E "buy milk" s
   /\ set_category u = None /\ set_confidence u = None
   /\ Forall2 (fun r r' => inbox_id r' = inbox_id r
                           /\ inbox_category r' = inbox_category r
                           /\ inbox_confidence r' = inbox_confidence r)
              (inbox (db s)) (inbox (db s')))
  \/ (~ total_failure E "buy milk" s
      /\ (exists c, set_category u = Some c)
      /\ (exists f, set_confidence u = Some f)).
Proof.
  cbv zeta.
  apply (review_keeps_category_only_on_total_failure
           (Ref.env (classifier_says "I cannot help with that.") None)
           1 "buy milk"
           (connect (inbox_of [unprocessed 1 "buy milk"]))
           (after [UpdateInbox (review_error "invalid json (attempt 2)") 1;
                   InsertLogEvents "needs_review" 1 "invalid json (attempt 2)"]
                  3 (connect (inbox_of [unprocessed 1 "buy milk"])))
           [UpdateInbox (review_error "invalid json (attempt 2)") 1;
            InsertLogEvents "needs_review" 1 "invalid json (attempt 2)"]
           (review_error "invalid json (attempt 2)") 1).
  - vm_compute. reflexivity.
  - reflexivity.
  - cbn. tauto.
  - reflexivity.
Defined.

(** * Further properties *)

(** ** The prefix router *)

Lemma lower_length (s : string) : String.length (Py.lower s) = String.length s.
Proof. induction s as [|c r IH]; cbn; [reflexivity | now rewrite IH]. Qed.

Lemma lower_app (a b : string) : Py.lower (a ++ b) = Py.lower a ++ Py.lower b.
Proof. induction a as [|c r IH]; cbn; [reflexivity | now rewrite IH]. Qed.

Lemma drop_app (a b : string) : Py.drop (String.length a) (a ++ b) = b.
Proof. induction a as [|c r IH]; cbn; [now destruct b | exact IH]. Qed.

Lemma take_drop (n : nat) (s : string) : Py.take n s ++ Py.drop n s = s.
Proof.
  revert n. induction s as [|c r IH]; intros [|n]; cbn; try reflexivity.
  now rewrite IH.
Qed.

Lemma lower_take (n : nat) (s : string) :
  Py.lower (Py.take n s) = Py.take n (Py.lower s).
Proof.
  revert n. induction s as [|c r IH]; intros [|n]; cbn; try reflexivity.
  now rewrite IH.
Qed.

Lemma startswith_take (s pfx : string) :
  Py.startswith s pfx = true -> Py.take (String.length pfx) s = pfx.
Proof.
  unfold Py.startswith. revert s.
  induction pfx as [|c r IH]; intros [|d t]; cbn; try reflexivity;
    try discriminate.
  destruct (ascii_dec c d) as [->|]; [|discriminate].
  intros H. now rewrite (IH _ H).
Qed.

Lemma startswith_app (pfx t : string) : Py.startswith (pfx ++ t) pfx = true.
Proof.
  unfold Py.startswith. induction pfx as [|c r IH]; cbn; [now destruct t|].
  destruct (ascii_dec c c); [exact IH | contradiction].
Qed.

(** X1. [pre_route] returns the category [cat] and the remainder [clean]
    exactly when the trimmed text is some spelling [p] of one of the seven
    prefixes of [cat], in any mix of upper and lower case, followed by a
    text whose trimmed form is [clean]. *)
Theorem pre_route_recognises_exactly_the_prefixes (raw cat clean : string) :
  pre_route raw = Some (cat, clean)
  <-> exists p t,
        In (Py.lower p, cat) prefixes
        /\ Py.strip raw = p ++ t
        /\ clean = Py.strip t.
Proof.
  split.
  - unfold pre_route.
    repeat match goal with
           | |- context [if ?b then _ else _] => destruct b eqn:?
           end;
      intros H; inversion H; subst; clear H;
      match goal with
      | Hs : Py.startswith _ ?pfx = true |- _ =>
          exists (Py.take (String.length pfx) (Py.strip raw)),
                 (Py.drop (String.length pfx) (Py.strip raw));
          rewrite lower_take, (startswith_take _ _ Hs), take_drop;
          split; [cbn; tauto | split; reflexivity]
      end.
  - intros (p & t & Hin & Hs & ->).
    unfold pre_route. rewrite Hs, lower_app.
    assert (Hlen := lower_length p).
    cbn [In prefixes] in Hin.
    destruct Hin as [H|[H|[H|[H|[H|[H|[H|[]]]]]]]];
      injection H as Hp <-; rewrite <- Hp in *;
      repeat match goal with
             | |- context [Py.startswith (?a ++ ?b) ?c] =>
                 first [ rewrite (startswith_app a b)
                       | change (Py.startswith (a ++ b) c) with false ]
             end;
      cbv beta iota; rewrite Hlen, drop_app; reflexivity.
Qed.

(** X2. Whatever [pre_route] answers, white space around the text does not
    matter, the category is one of the four, and the remainder is trimmed. *)
Theorem pre_route_answers_are_normalised (raw : string) :
  pre_route (Py.strip raw) = pre_route raw
  /\ forall cat clean,
       pre_route raw = Some (cat, clean) ->
       In cat categories /\ Py.strip clean = clean.
Proof.
  split; [|intros cat clean; apply pre_route_inv].
  unfold pre_route. now rewrite strip_idem.
Qed.

(** ** Items with a prefix *)

(** X3. An item that is a prefix and nothing else is sent to review under
    the category of the prefix with the error [empty after prefix]; no
    record is created and the classifier is not run. *)
Theorem empty_remainder_needs_review (E : Env) (id : Z) (raw cat : string)
    (s : state) :
  pre_route raw = Some (cat, "") ->
  exists s',
    loop_body E (id, raw) s = Stop Continue s'
    /\ executed s'
       = (executed s
          ++ [UpdateInbox (review cat float_one "prefix" "empty after prefix") id;
              InsertLogEvents "needs_review" id
                ("prefix " ++ cat ++ " but empty")])%list
    /\ calls s' = calls s
    /\ committed s' = db s'
    /\ people (db s') = people (db s)
    /\ projects (db s') = projects (db s)
    /\ ideas (db s') = ideas (db s)
    /\ admin (db s') = admin (db s)
    /\ (forall r, In r (inbox (db s')) -> inbox_id r = id ->
                  inbox_status r = "needs_review"
                  /\ inbox_category r = SText cat
                  /\ inbox_confidence r = SReal float_one
                  /\ inbox_model r = SText "prefix"
                  /\ inbox_error r = SText "empty after prefix").
Proof.
  intros Hpre.
  destruct (pre_route_inv _ _ _ Hpre) as [Hcat _].
  exists (after [UpdateInbox (review cat float_one "prefix" "empty after prefix") id;
                 InsertLogEvents "needs_review" id
                   ("prefix " ++ cat ++ " but empty")] 0 s).
  split.
  { unfold loop_body, prefix_stage. rewrite Hpre.
    cbn [In categories] in Hcat.
    destruct Hcat as [<-|[<-|[<-|[<-|[]]]]];
      cbn [String.eqb]; run; f_equal; state_eq. }
  unfold after, run_stmts.
  cbn [fold_left executed db committed calls run_stmt people projects ideas
       admin inbox Nat.add].
  repeat split; try reflexivity.
  all: match goal with
       | H : In _ _ |- _ =>
           apply in_map_iff in H; destruct H as (r0 & <- & _);
           unfold apply_update in *;
           destruct (inbox_id r0 =? id)%Z eqn:Hid;
           [reflexivity | apply Z.eqb_neq in Hid; contradiction]
       end.
Qed.

Lemma empty_remainder_witness :
  exists s',
    loop_body (Ref.env no_classifier None) (3%Z, " Idea:  ")
      (connect (inbox_of [unprocessed 3 " Idea:  "]))
    = Stop Continue s'
    /\ executed s'
       = [UpdateInbox (review "ideas" float_one "prefix" "empty after prefix") 3;
          InsertLogEvents "needs_review" 3 "prefix ideas but empty"]
    /\ calls s' = 0
    /\ committed s' = db s'
    /\ people (db s') = []
    /\ projects (db s') = []
    /\ ideas (db s') = []
    /\ admin (db s') = []
    /\ (forall r, In r (inbox (db s')) -> inbox_id r = 3%Z ->
                  inbox_status r = "needs_review"
                  /\ inbox_category r = SText "ideas"
                  /\ inbox_confidence r = SReal float_one
                  /\ inbox_model r = SText "prefix"
                  /\ inbox_error r = SText "empty after prefix").
Proof.
  apply (empty_remainder_needs_review (Ref.env no_classifier None) 3
           " Idea:  " "ideas"
           (connect (inbox_of [unprocessed 3 " Idea:  "]))).
  vm_compute. reflexivity.
Defined.

(** X4. After a people prefix, a remainder whose alias is an empty value
    (an empty string, [null], 0, an empty list or object) is sent to review
    with the error [missing person name]; no person is created. *)
Theorem empty_alias_needs_review (E : Env) (id : Z) (raw clean : string)
    (v : json) (s : state) :
  pre_route raw = Some ("people", clean) ->
  clean <> "" ->
  dict_get (ALIASES E) (Py.lower clean) = Some v ->
  truthy v = false ->
  exists s',
    loop_body E (id, raw) s = Stop Continue s'
    /\ executed s'
       = (executed s
          ++ [UpdateInbox
                (review "people" float_one "prefix" "missing person name") id;
              InsertLogEvents "needs_review" id
                "missing person name (prefix)"])%list
    /\ calls s' = calls s
    /\ committed s' = db s'
    /\ people (db s') = people (db s)
    /\ (forall r, In r (inbox (db s')) -> inbox_id r = id ->
                  inbox_status r = "needs_review"
                  /\ inbox_category r = SText "people"
                  /\ inbox_error r = SText "missing person name").
Proof.
  intros Hpre Hne Hget Hv.
  destruct (pre_route_inv _ _ _ Hpre) as [_ Hstrip].
  apply String.eqb_neq in Hne.
  exists (after [UpdateInbox
                   (review "people" float_one "prefix" "missing person name") id;
                 InsertLogEvents "needs_review" id
                   "missing person name (prefix)"] 0 s).
  split.
  { unfold loop_body, prefix_stage. rewrite Hpre.
    unfold bind at 1. unfold bind at 1. rewrite Hne. cbn [when ret].
    cbv [String.eqb Ascii.eqb Bool.eqb].
    rewrite (prefix_person_name_resolved E clean Hstrip).
    unfold resolved_name. rewrite Hget, Hv.
    run. f_equal. state_eq. }
  unfold after, run_stmts.
  cbn [fold_left executed db committed calls run_stmt people projects ideas
       admin inbox Nat.add].
  repeat split; try reflexivity.
  all: match goal with
       | H : In _ _ |- _ =>
           apply in_map_iff in H; destruct H as (r0 & <- & _);
           unfold apply_update in *;
           destruct (inbox_id r0 =? id)%Z eqn:Hid;
           [reflexivity | apply Z.eqb_neq in Hid; contradiction]
       end.
Qed.

Lemma empty_alias_witness :
  exists s',
    loop_body (Ref.env no_classifier (Some (dq "{'Mom': ''}")))
      (4%Z, "person: MOM")
      (connect (inbox_of [unprocessed 4 "person: MOM"]))
    = Stop Continue s'
    /\ executed s'
       = [UpdateInbox
            (review "people" float_one "prefix" "missing person name") 4;
          InsertLogEvents "needs_review" 4 "missing person name (prefix)"]
    /\ calls s' = 0
    /\ committed s' = db s'
    /\ people (db s') = []
    /\ (forall r, In r (inbox (db s')) -> inbox_id r = 4%Z ->
                  inbox_status r = "needs_review"
                  /\ inbox_category r = SText "people"
                  /\ inbox_error r = SText "missing person name").
Proof.
  apply (empty_alias_needs_review
           (Ref.env no_classifier (Some (dq "{'Mom': ''}"))) 4
           "person: MOM" "MOM" (JStr "")
           (connect (inbox_of [unprocessed 4 "person: MOM"]))).
  - vm_compute. reflexivity.
  - discriminate.
  - vm_compute. reflexivity.
  - reflexivity.
Defined.

(** *** How often the classifier runs *)

Lemma runs_ret {A} (a : A) : runs_at_most 0 (ret a).
Proof. intros s. cbn. lia. Qed.

Lemma runs_raise {A} (e : exn) : runs_at_most 0 (@raise A e).
Proof. intros s. cbn. lia. Qed.

Lemma runs_continue {A} : runs_at_most 0 (@continue_ A).
Proof. intros s. cbn. lia. Qed.

Lemma runs_lift {A} (r : exn + A) : runs_at_most 0 (lift r).
Proof. destruct r; [apply runs_raise | apply runs_ret]. Qed.

Lemma runs_execute (q : stmt) : runs_at_most 0 (execute q).
Proof. intros s. cbn. lia. Qed.

Lemma runs_commit : runs_at_most 0 commit.
Proof. intros s. cbn. lia. Qed.

Lemma runs_bind {A B} (n m : nat) (c : M A) (k : A -> M B) :
  runs_at_most n c -> (forall a, runs_at_most m (k a)) ->
  runs_at_most (n + m) (bind c k).
Proof.
  intros Hc Hk s. unfold bind. specialize (Hc s).
  destruct (c s) as [a s1|sg s1]; cbn [state_of] in *.
  - specialize (Hk a s1). lia.
  - lia.
Qed.

Lemma runs_seq {A B} (c : M A) (k : A -> M B) :
  runs_at_most 0 c -> (forall a, runs_at_most 0 (k a)) ->
  runs_at_most 0 (bind c k).
Proof. apply (runs_bind 0 0). Qed.

Lemma runs_when (b : bool) (c : M unit) :
  runs_at_most 0 c -> runs_at_most 0 (when b c).
Proof. destruct b; [trivial | intros _; apply runs_ret]. Qed.

Lemma runs_more {A} (n m : nat) (c : M A) :
  n <= m -> runs_at_most n c -> runs_at_most m c.
Proof. intros Hnm Hc s. specialize (Hc s). lia. Qed.

Ltac no_runs :=
  repeat first
    [ apply runs_ret | apply runs_raise | apply runs_continue | apply runs_lift
    | apply runs_execute | apply runs_commit
    | apply runs_when
    | apply runs_seq; [|intros ?]
    | match goal with
      | |- runs_at_most 0 (if ?b then _ else _) => destruct b
      | |- runs_at_most 0 (match ?x with _ => _ end) => destruct x
      end ].

Lemma runs_prefix_stage (E : Env) (id : Z) (raw : string) :
  runs_at_most 0 (prefix_stage E id raw).
Proof.
  unfold prefix_stage, INSERT_people, INSERT_projects, INSERT_ideas,
    INSERT_admin, UPDATE_inbox, log_event.
  no_runs.
Qed.

Lemma runs_route_result (E : Env) (id : Z) (raw : string) (result : json) :
  runs_at_most 0 (route_result E id raw result).
Proof.
  unfold route_result, file_people, file_projects, file_ideas, file_admin,
    INSERT_people, INSERT_projects, INSERT_ideas,
    INSERT_admin, UPDATE_inbox, log_event.
  cbv zeta. no_runs.
Qed.

Lemma runs_retry_loop (E : Env) (raw : string) (attempts : list nat) :
  forall err, runs_at_most (length attempts) (retry_loop E raw attempts err).
Proof.
  intros err s.
  destruct (retry_loop_ends E raw attempts err s) as (k & res & err' & -> & Hk & _).
  cbn. lia.
Qed.

Lemma runs_fallback_stage (E : Env) (id : Z) (raw : string) :
  runs_at_most (MAX_RETRIES + 1) (fallback_stage E id raw).
Proof.
  unfold fallback_stage.
  replace (MAX_RETRIES + 1) with (length (seq 0 (MAX_RETRIES + 1)) + 0)
    by reflexivity.
  apply runs_bind; [apply runs_retry_loop|].
  intros [result last_err].
  apply runs_seq; [|intros ?; apply runs_route_result].
  unfold UPDATE_inbox_error, log_event. no_runs.
Qed.

Lemma leaves_prefix_stage (E : Env) (id : Z) (raw cat clean : string) :
  pre_route raw = Some (cat, clean) -> leaves (prefix_stage E id raw).
Proof.
  intros Hpre s. unfold prefix_stage. rewrite Hpre.
  repeat match goal with
         | |- exists sg s', bind ?c ?k ?s = _ =>
             unfold bind at 1; destruct (c s) as [? ?|? ?]; [|eauto]
         end.
  unfold continue_. eauto.
Qed.

Lemma runs_loop_body (E : Env) (r : Z * string) :
  runs_at_most (MAX_RETRIES + 1) (loop_body E r).
Proof.
  destruct r as [id raw].
  apply (runs_bind 0 (MAX_RETRIES + 1));
    [apply runs_prefix_stage | intros _; apply runs_fallback_stage].
Qed.

(** X5. One item costs at most [MAX_RETRIES + 1] runs of the classifier,
    and an item with a recognised prefix costs none. *)
Theorem classifier_runs_are_bounded (E : Env) (id : Z) (raw : string)
    (s : state) :
  calls s <= calls (state_of (loop_body E (id, raw) s))
          <= MAX_RETRIES + 1 + calls s
  /\ (pre_route raw <> None ->
      calls (state_of (loop_body E (id, raw) s)) = calls s).
Proof.
  split; [apply (runs_loop_body E (id, raw))|].
  destruct (pre_route raw) as [[cat clean]|] eqn:Hpre; [intros _|congruence].
  unfold loop_body, bind.
  destruct (leaves_prefix_stage E id raw cat clean Hpre s) as (sg & s' & Hs).
  assert (H := runs_prefix_stage E id raw s).
  rewrite Hs in *. cbn in *. lia.
Qed.

(** ** The alias table *)

Lemma dict_get_set (d : dict) (k' : string) (v : json) (k : string) :
  dict_get (dict_set d k' v) k
  = if k' =? k then Some v else dict_get d k.
Proof.
  induction d as [|[k0 v0] r IH]; cbn; [reflexivity|].
  destruct (k0 =? k') eqn:H0; cbn.
  - apply String.eqb_eq in H0. subst k0. now destruct (k' =? k).
  - rewrite IH. destruct (k0 =? k) eqn:H1; [|reflexivity].
    apply String.eqb_eq in H1. subst k0. now rewrite String.eqb_sym, H0.
Qed.

Lemma dict_get_app (l1 l2 : dict) (k : string) :
  dict_get (l1 ++ l2)%list k
  = match dict_get l1 k with Some v => Some v | None => dict_get l2 k end.
Proof.
  induction l1 as [|[k0 v0] r IH]; cbn; [reflexivity|].
  now destruct (k0 =? k).
Qed.

Lemma fold_dict_set (data : dict) :
  forall (acc : dict) (k : string),
    dict_get (fold_left (fun acc kv => dict_set acc (Py.lower (fst kv)) (snd kv))
                        data acc) k
    = match last_value (lowered data) k with
      | Some v => Some v
      | None => dict_get acc k
      end.
Proof.
  unfold last_value.
  induction data as [|x l IH]; intros acc k; cbn [fold_left]; [reflexivity|].
  rewrite IH, dict_get_set. cbn [lowered map rev].
  rewrite dict_get_app. fold (lowered l).
  destruct (dict_get (rev (lowered l)) k); [reflexivity|].
  cbn. now destruct (Py.lower (fst x) =? k).
Qed.

Lemma lower_char_idem (c : ascii) :
  Py.lower_char (Py.lower_char c) = Py.lower_char c.
Proof. destruct c as [[] [] [] [] [] [] [] []]; reflexivity. Qed.

Lemma lower_idem (s : string) : Py.lower (Py.lower s) = Py.lower s.
Proof.
  induction s as [|c r IH]; cbn; [reflexivity|].
  now rewrite lower_char_idem, IH.
Qed.

Lemma dict_get_key (d : dict) (k : string) (v : json) :
  dict_get d k = Some v -> In k (map fst d).
Proof.
  induction d as [|[k0 v0] r IH]; cbn; [discriminate|].
  destruct (k0 =? k) eqn:H0; [|auto].
  apply String.eqb_eq in H0. auto.
Qed.

(** X6. The alias table holds the items of the alias file under their keys
    in lower case, the last item winning when two keys differ only in
    case; so every key of the table is in lower case.  When the file is
    absent, is no JSON or holds no object, the table is empty. *)
Theorem aliases_are_keyed_in_lower_case (E : Env) :
  (forall text data,
      aliases_file E = Some text ->
      json_loads E text = Some (JObj data) ->
      forall k, dict_get (ALIASES E) k = last_value (lowered data) k)
  /\ (forall k v, dict_get (ALIASES E) k = Some v -> Py.lower k = k)
  /\ (aliases_file E = None -> ALIASES E = [])
  /\ (forall text,
        aliases_file E = Some text ->
        (forall data, json_loads E text <> Some (JObj data)) ->
        ALIASES E = []).
Proof.
  assert (Hlookup : forall text data,
             aliases_file E = Some text ->
             json_loads E text = Some (JObj data) ->
             forall k, dict_get (ALIASES E) k = last_value (lowered data) k).
  { intros text data Hf Hl k. unfold ALIASES, load_aliases.
    rewrite Hf, Hl, fold_dict_set.
    now destruct (last_value (lowered data) k). }
  split; [exact Hlookup|]. split; [|split].
  - intros k v Hget.
    destruct (aliases_file E) as [text|] eqn:Hf.
    + destruct (json_loads E text) as [[| | | | | |data]|] eqn:Hl;
        try (unfold ALIASES, load_aliases in Hget; rewrite Hf, Hl in Hget;
             discriminate).
      rewrite (Hlookup text data eq_refl Hl) in Hget.
      apply dict_get_key in Hget. rewrite map_rev in Hget.
      apply in_rev in Hget. unfold lowered in Hget.
      rewrite map_map in Hget. apply in_map_iff in Hget.
      destruct Hget as (kv & <- & _). apply lower_idem.
    + unfold ALIASES, load_aliases in Hget. rewrite Hf in Hget. discriminate.
  - intros Hf. unfold ALIASES, load_aliases. now rewrite Hf.
  - intros text Hf Hl. unfold ALIASES, load_aliases. rewrite Hf.
    destruct (json_loads E text) as [[| | | | | |data]|]; try reflexivity.
    now destruct (Hl data).
Qed.

(** ** The kinship words *)

Lemma startswith_split (s key : string) :
  Py.startswith s key = true -> s = key ++ Py.drop (String.length key) s.
Proof.
  intros H. rewrite <- (startswith_take _ _ H) at 1.
  symmetry. apply take_drop.
Qed.

Lemma word_before_cons (c : ascii) (pre : string) :
  ends_in_word (String c pre) = word_before (Py.isword c) pre.
Proof. now destruct pre. Qed.

Lemma kin_search_sound (s : string) :
  forall (prev : bool) (key : string),
    kin_search prev s = Some key ->
    exists pre post,
      s = pre ++ key ++ post
      /\ word_before prev pre = false /\ word_ends post = true.
Proof.
  induction s as [|c r IH]; intros prev key H; [discriminate|].
  cbn [kin_search] in H.
  assert (Hrec : kin_search (Py.isword c) r = Some key ->
                 exists pre post,
                   String c r = pre ++ key ++ post
                   /\ word_before prev pre = false /\ word_ends post = true).
  { intros Hr. destruct (IH _ _ Hr) as (pre & post & -> & Hb & He).
    exists (String c pre), post. split; [reflexivity|]. split; [|exact He].
    cbn [word_before]. now rewrite word_before_cons. }
  destruct prev; [now apply Hrec|].
  destruct (kin_here (String c r)) as [k|] eqn:Hk; [|now apply Hrec].
  injection H as ->. unfold kin_here in Hk.
  apply find_some in Hk. destruct Hk as [_ Hk].
  apply andb_true_iff in Hk. destruct Hk as [Hs He].
  exists "", (Py.drop (String.length key) (String c r)).
  split; [exact (startswith_split _ _ Hs)|]. now split.
Qed.

Lemma kin_search_complete (s : string) :
  forall (prev : bool) (key pre post : string),
    kin_search prev s = None ->
    In key kin_terms ->
    s = pre ++ key ++ post ->
    word_before prev pre = false ->
    word_ends post = true ->
    False.
Proof.
  induction s as [|c r IH]; intros prev key pre post H Hin Hs Hb He.
  - destruct pre; [|discriminate].
    cbn in Hin. destruct Hin as [<-|[<-|[<-|[<-|[]]]]]; discriminate.
  - cbn [kin_search] in H. destruct pre as [|c' pre].
    + cbn in Hb. subst prev.
      destruct (kin_here (String c r)) as [k|] eqn:Hk; [discriminate|].
      unfold kin_here in Hk.
      apply (find_none _ _ Hk) in Hin.
      cbn [append] in Hs. rewrite Hs in Hin.
      now rewrite startswith_app, drop_app, He in Hin.
    + injection Hs as <- Hr.
      assert (Hnone : kin_search (Py.isword c) r = None).
      { destruct prev; [exact H|].
        now destruct (kin_here (String c r)). }
      apply (IH _ key pre post Hnone Hin Hr); [|exact He].
      cbn [word_before] in Hb. now rewrite <- word_before_cons.
Qed.

(** X7. [infer_person_name] looks for a kinship word that stands as a whole
    word in the trimmed, lower-cased text.  When there is one it answers
    the alias of such a word, or the capitalised word when it has no alias;
    when there is none it answers the empty string. *)
Theorem infer_person_name_matches_whole_words (E : Env) (raw : string) :
  let s := Py.lower (Py.strip raw) in
  (names_kin s ->
   exists key,
     In key kin_terms /\ whole_word key s
     /\ infer_person_name E raw
        = match dict_get (ALIASES E) key with
          | Some v => v
          | None => JStr (Py.title key)
          end)
  /\ (~ names_kin s -> infer_person_name E raw = JStr "").
Proof.
  intros s. unfold infer_person_name. fold s.
  destruct (kin_search false s) as [key|] eqn:Hk.
  - assert (Hw : In key kin_terms /\ whole_word key s).
    { split; [exact (kin_search_in _ _ _ Hk)|].
      destruct (kin_search_sound _ _ _ Hk) as (pre & post & Hs & Hb & He).
      exists pre, post. split; [exact Hs|]. split; [|exact He].
      destruct pre; [reflexivity | exact Hb]. }
    split.
    + intros _. exists key. now destruct Hw.
    + intros Hn. destruct Hn. now exists key.
  - split; [|reflexivity].
    intros (key & Hin & pre & post & Hs & Hb & He). exfalso.
    apply (kin_search_complete s false key pre post Hk Hin Hs); [|exact He].
    destruct pre; [reflexivity | exact Hb].
Qed.

(** ** The response parser *)

Lemma from_open_brace_first (pre rest : string) :
  occurs 123 pre = false ->
  from_open_brace (pre ++ String "{" rest) = Some (String "{" rest).
Proof.
  induction pre as [|c r IH]; intros H; [reflexivity|].
  cbn in H. apply orb_false_iff in H. destruct H as [Hc Hr].
  cbn [append from_open_brace]. rewrite Hc. now apply IH.
Qed.

Lemma upto_last_close_absent (s : string) :
  occurs 125 s = false -> upto_last_close s = None.
Proof.
  induction s as [|c r IH]; intros H; [reflexivity|].
  cbn in H. apply orb_false_iff in H. destruct H as [Hc Hr].
  cbn [upto_last_close]. now rewrite (IH Hr), Hc.
Qed.

Lemma upto_last_close_last (x post : string) :
  occurs 125 post = false ->
  upto_last_close (x ++ String "}" post) = Some (x ++ "}").
Proof.
  intros H. induction x as [|c r IH].
  - cbn [append upto_last_close]. now rewrite (upto_last_close_absent _ H).
  - cbn [append upto_last_close]. now rewrite IH.
Qed.

Lemma search_braces_exact (pre mid post : string) :
  occurs 123 pre = false ->
  occurs 125 post = false ->
  search_braces (pre ++ "{" ++ mid ++ "}" ++ post) = Some ("{" ++ mid ++ "}").
Proof.
  intros Hpre Hpost. unfold search_braces.
  cbn [append]. rewrite (from_open_brace_first _ _ Hpre).
  exact (upto_last_close_last (String "{" mid) post Hpost).
Qed.

(** X8. When the trimmed output is not JSON as a whole but holds a
    brace-delimited text between a prefix without opening brace and a
    suffix without closing brace, [extract_json] answers what that text
    parses to, or [None] when it does not parse. *)
Theorem extract_json_recovers_wrapped_object (E : Env)
    (s pre mid post : string) :
  Py.strip s = pre ++ "{" ++ mid ++ "}" ++ post ->
  occurs 123 pre = false ->
  occurs 125 post = false ->
  json_loads E (Py.strip s) = None ->
  extract_json E s
  = match json_loads E ("{" ++ mid ++ "}") with
    | Some v => v
    | None => JNull
    end.
Proof.
  intros Hs Hpre Hpost Hl. unfold extract_json.
  rewrite Hl, Hs, (search_braces_exact _ _ _ Hpre Hpost). reflexivity.
Qed.

Lemma extract_json_recovers_witness :
  extract_json (Ref.env no_classifier None)
    (dq " Sure, here it is: {'category': 'admin', 'confidence': 0.9} Anything else? ")
  = match json_loads (Ref.env no_classifier None)
            ("{" ++ dq "'category': 'admin', 'confidence': 0.9" ++ "}") with
    | Some v => v
    | None => JNull
    end.
Proof.
  apply (extract_json_recovers_wrapped_object (Ref.env no_classifier None)
           (dq " Sure, here it is: {'category': 'admin', 'confidence': 0.9} Anything else? ")
           "Sure, here it is: "
           (dq "'category': 'admin', 'confidence': 0.9")
           " Anything else?").
  - vm_compute. reflexivity.
  - vm_compute. reflexivity.
  - vm_compute. reflexivity.
  - vm_compute. reflexivity.
Defined.

(** ** Filing the answer of the classifier *)

Lemma fallback_routes (E : Env) (id : Z) (raw : string) (d : dict)
    (err : string) (s s1 : state) :
  pre_route raw = None ->
  retry_loop E raw (seq 0 (MAX_RETRIES + 1)) "" s = Ok (JObj d, err) s1 ->
  loop_body E (id, raw) s = route_result E id raw (JObj d) s1.
Proof.
  intros Hpre Hrun.
  assert (Hd : truthy (JObj d) = true).
  { destruct (retry_loop_ends E raw (seq 0 (MAX_RETRIES + 1)) "" s)
      as (k & res & err' & Heq & _ & [(-> & _)|(Hne & _)]);
      rewrite Heq in Hrun; [discriminate|].
    injection Hrun as <- _ _. now apply nonempty_object_truthy. }
  unfold loop_body, prefix_stage. rewrite Hpre.
  unfold bind at 1. cbn [ret]. unfold fallback_stage. unfold bind at 1.
  rewrite Hrun, Hd. cbn [negb when]. unfold bind at 1. cbn [ret].
  reflexivity.
Qed.

Lemma in_strs_in (c : string) (l : list string) :
  In c l -> in_strs (JStr c) l = true.
Proof.
  intros Hin. unfold in_strs. apply existsb_exists. exists c.
  split; [exact Hin|]. cbn. apply String.eqb_refl.
Qed.

Lemma threshold_passed (E : Env) (id : Z) (raw : string) (d : dict) (c : string)
    (f : float) (s1 : state) :
  dict_get d "category" = Some (JStr c) ->
  In c categories ->
  confidence_of E d = inr f ->
  SFltb f CONF_THRESHOLD = false ->
  route_result E id raw (JObj d) s1
  = ((if c =? "people" then file_people E id raw (fields_of d) f
      else if c =? "projects" then file_projects id (fields_of d) f
      else if c =? "ideas" then file_ideas id (JObj d) (fields_of d) f
      else if c =? "admin" then file_admin id (fields_of d) f
      else ret tt) ;;
     UPDATE_inbox "processed" (JStr c) (JFloat f) (JStr MODEL) (JStr "") id ;;
     log_event "processed" id (Py.take 2000 (json_dumps E (JObj d))) ;;
     commit) s1.
Proof.
  intros Hcat Hin Hconf Hlt.
  unfold route_result, fields_of. cbn [py_get lift bind ret]. rewrite Hcat.
  unfold confidence_of in Hconf. rewrite Hconf. cbn [lift bind ret].
  rewrite (in_strs_in _ _ Hin), Hlt. cbn [negb orb when eq_str bind ret].
  reflexivity.
Qed.

Lemma bind_ret {A B} (a : A) (k : A -> M B) : bind (ret a) k = k a.
Proof. reflexivity. Qed.

Ltac mrun :=
  repeat first
    [ rewrite bind_ret
    | progress cbn [lift when negb py_get adapt truthy eq_str] ].

Ltac log_details := rewrite ?details_or_empty, ?take_take.

(** X9. An accepted answer whose category is missing or is not one of the
    four is sent to review under the category [unknown], whatever its
    confidence; no record is created. *)
Theorem unknown_category_needs_review (E : Env) (id : Z) (raw : string)
    (d : dict) (err : string) (f : float) (s s1 : state) :
  pre_route raw = None ->
  retry_loop E raw (seq 0 (MAX_RETRIES + 1)) "" s = Ok (JObj d, err) s1 ->
  in_strs (category_of d) categories = false ->
  confidence_of E d = inr f ->
  loop_body E (id, raw) s
  = Stop Continue
      (after [UpdateInbox (review "unknown" f MODEL "") id;
              InsertLogEvents "needs_review" id
                (Py.take 2000 (json_dumps E (JObj d)))] 0 s1).
Proof.
  intros Hpre Hrun Hcat Hconf.
  rewrite (fallback_routes E id raw d err s s1 Hpre Hrun).
  unfold route_result. cbn [py_get lift bind ret].
  unfold confidence_of in Hconf. rewrite Hconf. cbn [lift bind ret].
  unfold category_of in Hcat. rewrite Hcat. cbn [negb orb].
  run. log_details. f_equal. state_eq.
Qed.

Lemma unknown_category_witness :
  let E := Ref.env
             (classifier_says (dq "{'category': 'recipes', 'confidence': 0.95}"))
             None in
  let s := connect (inbox_of [unprocessed 1 "bake bread"]) in
  loop_body E (1%Z, "bake bread") s
  = Stop Continue
      (after [UpdateInbox
                (review "unknown" (float_of_decimal 95 (-2)) MODEL "") 1;
              InsertLogEvents "needs_review" 1
                (Py.take 2000
                   (json_dumps E
                      (JObj [("category", JStr "recipes");
                             ("confidence", JFloat (float_of_decimal 95 (-2)))])))]
             0 (called 1 s)).
Proof.
  intros E s.
  apply (unknown_category_needs_review E 1 "bake bread"
           [("category", JStr "recipes");
            ("confidence", JFloat (float_of_decimal 95 (-2)))]
           "" (float_of_decimal 95 (-2)) s (called 1 s)).
  - vm_compute. reflexivity.
  - vm_compute. reflexivity.
  - vm_compute. reflexivity.
  - vm_compute. reflexivity.
Defined.

(** X10. An accepted answer of category [projects] whose confidence is not
    below the threshold and that has a name is filed: one project with the trimmed name, its trimmed
    status when that is one of the five statuses and [active] otherwise,
    then the item is marked processed and the answer is logged. *)
Theorem project_is_filed (E : Env) (id : Z) (raw : string) (d fd : dict)
    (err name st : string) (f : float) (a b : sqlval) (s s1 : state) :
  pre_route raw = None ->
  retry_loop E raw (seq 0 (MAX_RETRIES + 1)) "" s = Ok (JObj d, err) s1 ->
  dict_get d "category" = Some (JStr "projects") ->
  confidence_of E d = inr f ->
  SFltb f CONF_THRESHOLD = false ->
  fields_of d = JObj fd ->
  text_field fd "name" "" = inr name ->
  name <> "" ->
  text_field fd "status" "active" = inr st ->
  bound_field fd "next_action" = inr a ->
  bound_field fd "notes" = inr b ->
  loop_body E (id, raw) s
  = Ok tt
      (after [InsertProjects (SText name)
                (SText (status_or project_statuses "active" st)) a b;
              UpdateInbox (processed "projects" f MODEL) id;
              InsertLogEvents "processed" id
                (Py.take 2000 (json_dumps E (JObj d)))] 0 s1).
Proof.
  intros Hpre Hrun Hcat Hconf Hlt Hfd Hname Hne Hst Ha Hb.
  rewrite (fallback_routes E id raw d err s s1 Hpre Hrun).
  rewrite (threshold_passed E id raw d "projects" f s1 Hcat) by (cbn; tauto || assumption).
  cbv [String.eqb Ascii.eqb Bool.eqb].
  rewrite Hfd. unfold file_projects, INSERT_projects.
  unfold text_field in Hname, Hst. unfold bound_field in Ha, Hb.
  apply String.eqb_neq in Hne.
  mrun. rewrite Hname. mrun. rewrite Hne. mrun. rewrite Hst. mrun.
  rewrite Ha. mrun. rewrite Hb. mrun.
  unfold status_or, project_statuses.
  destruct (in_strs (JStr st) ["active"; "waiting"; "blocked"; "someday"; "done"]);
    run; log_details; f_equal; state_eq.
Qed.

Lemma project_filing_witness :
  let E := Ref.env
             (classifier_says
                (dq "{'category': 'projects', 'confidence': 0.9, 'fields': {'name': ' Migrate DB ', 'status': 'paused'}}"))
             None in
  let s := connect (inbox_of [unprocessed 1 "migrate the db"]) in
  let d := [("category", JStr "projects");
            ("confidence", JFloat (float_of_decimal 9 (-1)));
            ("fields", JObj [("name", JStr " Migrate DB ");
                             ("status", JStr "paused")])] in
  loop_body E (1%Z, "migrate the db") s
  = Ok tt
      (after [InsertProjects (SText "Migrate DB")
                (SText (status_or project_statuses "active" "paused"))
                (SText "") (SText "");
              UpdateInbox (processed "projects" (float_of_decimal 9 (-1)) MODEL) 1;
              InsertLogEvents "processed" 1
                (Py.take 2000 (json_dumps E (JObj d)))] 0 (called 1 s)).
Proof.
  intros E s d.
  apply (project_is_filed E 1 "migrate the db" d
           [("name", JStr " Migrate DB "); ("status", JStr "paused")]
           "" "Migrate DB" "paused" (float_of_decimal 9 (-1))
           (SText "") (SText "") s (called 1 s)).
  - vm_compute. reflexivity.
  - vm_compute. reflexivity.
  - reflexivity.
  - vm_compute. reflexivity.
  - vm_compute. reflexivity.
  - reflexivity.
  - vm_compute. reflexivity.
  - discriminate.
  - vm_compute. reflexivity.
  - reflexivity.
  - reflexivity.
Defined.

(** X11. An accepted answer of category [admin] whose confidence is not
    below the threshold and that has a task is filed: one admin task with the trimmed task, the due date
    as given, and its trimmed status when that is [open] or [done] and
    [open] otherwise; then the item is marked processed and the answer is
    logged. *)
Theorem admin_task_is_filed (E : Env) (id : Z) (raw : string) (d fd : dict)
    (err task st : string) (f : float) (due : sqlval) (s s1 : state) :
  pre_route raw = None ->
  retry_loop E raw (seq 0 (MAX_RETRIES + 1)) "" s = Ok (JObj d, err) s1 ->
  dict_get d "category" = Some (JStr "admin") ->
  confidence_of E d = inr f ->
  SFltb f CONF_THRESHOLD = false ->
  fields_of d = JObj fd ->
  text_field fd "task" "" = inr task ->
  task <> "" ->
  text_field fd "status" "open" = inr st ->
  bound_field fd "due_date" = inr due ->
  loop_body E (id, raw) s
  = Ok tt
      (after [InsertAdmin (SText task) due
                (SText (status_or admin_statuses "open" st));
              UpdateInbox (processed "admin" f MODEL) id;
              InsertLogEvents "processed" id
                (Py.take 2000 (json_dumps E (JObj d)))] 0 s1).
Proof.
  intros Hpre Hrun Hcat Hconf Hlt Hfd Htask Hne Hst Hdue.
  rewrite (fallback_routes E id raw d err s s1 Hpre Hrun).
  rewrite (threshold_passed E id raw d "admin" f s1 Hcat) by (cbn; tauto || assumption).
  cbv [String.eqb Ascii.eqb Bool.eqb].
  rewrite Hfd. unfold file_admin, INSERT_admin.
  unfold text_field in Htask, Hst. unfold bound_field in Hdue.
  apply String.eqb_neq in Hne.
  mrun. rewrite Htask. mrun. rewrite Hne. mrun. rewrite Hst. mrun.
  rewrite Hdue. mrun.
  unfold status_or, admin_statuses.
  destruct (in_strs (JStr st) ["open"; "done"]);
    run; log_details; f_equal; state_eq.
Qed.

Lemma admin_filing_witness :
  let E := Ref.env
             (classifier_says
                (dq "{'category': 'admin', 'confidence': 0.8, 'fields': {'task': 'renew passport', 'due_date': '2026-01-31', 'status': 'done'}}"))
             None in
  let s := connect (inbox_of [unprocessed 2 "passport!"]) in
  let d := [("category", JStr "admin");
            ("confidence", JFloat (float_of_decimal 8 (-1)));
            ("fields", JObj [("task", JStr "renew passport");
                             ("due_date", JStr "2026-01-31");
                             ("status", JStr "done")])] in
  loop_body E (2%Z, "passport!") s
  = Ok tt
      (after [InsertAdmin (SText "renew passport") (SText "2026-01-31")
                (SText (status_or admin_statuses "open" "done"));
              UpdateInbox (processed "admin" (float_of_decimal 8 (-1)) MODEL) 2;
              InsertLogEvents "processed" 2
                (Py.take 2000 (json_dumps E (JObj d)))] 0 (called 1 s)).
Proof.
  intros E s d.
  apply (admin_task_is_filed E 2 "passport!" d
           [("task", JStr "renew passport"); ("due_date", JStr "2026-01-31");
            ("status", JStr "done")]
           "" "renew passport" "done" (float_of_decimal 8 (-1))
           (SText "2026-01-31") s (called 1 s)).
  - vm_compute. reflexivity.
  - vm_compute. reflexivity.
  - reflexivity.
  - vm_compute. reflexivity.
  - vm_compute. reflexivity.
  - reflexivity.
  - vm_compute. reflexivity.
  - discriminate.
  - vm_compute. reflexivity.
  - reflexivity.
Defined.

(** X12. An accepted answer of category [ideas] whose confidence is not
    below the threshold is filed under the trimmed title of its fields, or
    under the trimmed title of the answer itself when the fields have none,
    provided that this title is not empty; then the item is marked
    processed and the answer is logged. *)
Theorem idea_is_filed (E : Env) (id : Z) (raw : string) (d fd : dict)
    (err title : string) (f : float) (a b : sqlval) (s s1 : state) :
  pre_route raw = None ->
  retry_loop E raw (seq 0 (MAX_RETRIES + 1)) "" s = Ok (JObj d, err) s1 ->
  dict_get d "category" = Some (JStr "ideas") ->
  confidence_of E d = inr f ->
  SFltb f CONF_THRESHOLD = false ->
  fields_of d = JObj fd ->
  idea_title d fd = inr title ->
  title <> "" ->
  bound_field fd "one_liner" = inr a ->
  bound_field fd "notes" = inr b ->
  loop_body E (id, raw) s
  = Ok tt
      (after [InsertIdeas (SText title) a b;
              UpdateInbox (processed "ideas" f MODEL) id;
              InsertLogEvents "processed" id
                (Py.take 2000 (json_dumps E (JObj d)))] 0 s1).
Proof.
  intros Hpre Hrun Hcat Hconf Hlt Hfd Htitle Hne Ha Hb.
  rewrite (fallback_routes E id raw d err s s1 Hpre Hrun).
  rewrite (threshold_passed E id raw d "ideas" f s1 Hcat) by (cbn; tauto || assumption).
  cbv [String.eqb Ascii.eqb Bool.eqb].
  rewrite Hfd. unfold file_ideas, INSERT_ideas.
  unfold idea_title in Htitle. unfold bound_field in Ha, Hb.
  apply String.eqb_neq in Hne.
  mrun.
  unfold py_or at 1 in Htitle.
  destruct (truthy match dict_get fd "title" with
                   | Some v => v
                   | None => JNull
                   end);
    mrun; rewrite Htitle; mrun; rewrite Hne; mrun; rewrite Ha; mrun;
    rewrite Hb; mrun; run; log_details; f_equal; state_eq.
Qed.

Lemma idea_filing_witness :
  let E := Ref.env
             (classifier_says
                (dq "{'category': 'ideas', 'confidence': 0.7, 'fields': {'one_liner': 'maps for tea'}, 'title': ' Tea atlas '}"))
             None in
  let s := connect (inbox_of [unprocessed 5 "an atlas of tea"]) in
  let d := [("category", JStr "ideas");
            ("confidence", JFloat (float_of_decimal 7 (-1)));
            ("fields", JObj [("one_liner", JStr "maps for tea")]);
            ("title", JStr " Tea atlas ")] in
  loop_body E (5%Z, "an atlas of tea") s
  = Ok tt
      (after [InsertIdeas (SText "Tea atlas") (SText "maps for tea") (SText "");
              UpdateInbox (processed "ideas" (float_of_decimal 7 (-1)) MODEL) 5;
              InsertLogEvents "processed" 5
                (Py.take 2000 (json_dumps E (JObj d)))] 0 (called 1 s)).
Proof.
  intros E s d.
  apply (idea_is_filed E 5 "an atlas of tea" d
           [("one_liner", JStr "maps for tea")]
           "" "Tea atlas" (float_of_decimal 7 (-1))
           (SText "maps for tea") (SText "") s (called 1 s)).
  - vm_compute. reflexivity.
  - vm_compute. reflexivity.
  - reflexivity.
  - vm_compute. reflexivity.
  - vm_compute. reflexivity.
  - reflexivity.
  - vm_compute. reflexivity.
  - discriminate.
  - reflexivity.
  - reflexivity.
Defined.

(** X13. An accepted answer of category [people] whose confidence is not
    below the threshold is filed under the trimmed name of its fields, or,
    when that is empty, under the name that [infer_person_name] finds in
    the raw text, provided that this name is not an empty value and can be
    stored; the context, the follow-up and the last contact are stored as
    given. *)
Theorem person_is_filed (E : Env) (id : Z) (raw : string) (d fd : dict)
    (err : string) (v : json) (f : float) (n a b c : sqlval) (s s1 : state) :
  pre_route raw = None ->
  retry_loop E raw (seq 0 (MAX_RETRIES + 1)) "" s = Ok (JObj d, err) s1 ->
  dict_get d "category" = Some (JStr "people") ->
  confidence_of E d = inr f ->
  SFltb f CONF_THRESHOLD = false ->
  fields_of d = JObj fd ->
  person_name E raw fd = inr v ->
  truthy v = true ->
  adapt v = inr n ->
  bound_field fd "context" = inr a ->
  bound_field fd "follow_up" = inr b ->
  bound_field fd "last_contact" = inr c ->
  loop_body E (id, raw) s
  = Ok tt
      (after [InsertPeople n a b c;
              UpdateInbox (processed "people" f MODEL) id;
              InsertLogEvents "processed" id
                (Py.take 2000 (json_dumps E (JObj d)))] 0 s1).
Proof.
  intros Hpre Hrun Hcat Hconf Hlt Hfd Hname Hv Hn Ha Hb Hc.
  rewrite (fallback_routes E id raw d err s s1 Hpre Hrun).
  rewrite (threshold_passed E id raw d "people" f s1 Hcat) by (cbn; tauto || assumption).
  cbv [String.eqb Ascii.eqb Bool.eqb].
  rewrite Hfd. unfold file_people, INSERT_people.
  unfold person_name, text_field in Hname. unfold bound_field in Ha, Hb, Hc.
  mrun.
  destruct (py_strip
              (py_or match dict_get fd "name" with
                     | Some v => v
                     | None => JNull
                     end (JStr ""))) as [e|n0]; [discriminate|].
  injection Hname as <-. mrun.
  destruct (n0 =? "") eqn:Hn0; cbn [negb].
  - rewrite Hv. mrun. rewrite Hn. mrun. rewrite Ha. mrun. rewrite Hb. mrun.
    rewrite Hc. mrun. run. log_details. f_equal. state_eq.
  - cbn in Hn. injection Hn as <-. mrun. rewrite Hn0. mrun.
    rewrite Ha. mrun. rewrite Hb. mrun. rewrite Hc. mrun.
    run. log_details. f_equal. state_eq.
Qed.

Lemma person_filing_witness :
  let E := Ref.env
             (classifier_says
                (dq "{'category': 'people', 'confidence': 0.75, 'fields': {'name': '', 'follow_up': 'call on Sunday'}}"))
             (Some (dq "{'dad': 'John Doe'}")) in
  let s := connect (inbox_of [unprocessed 6 "Call Dad on Sunday"]) in
  let d := [("category", JStr "people");
            ("confidence", JFloat (float_of_decimal 75 (-2)));
            ("fields", JObj [("name", JStr "");
                             ("follow_up", JStr "call on Sunday")])] in
  loop_body E (6%Z, "Call Dad on Sunday") s
  = Ok tt
      (after [InsertPeople (SText "John Doe") (SText "")
                (SText "call on Sunday") (SText "");
              UpdateInbox (processed "people" (float_of_decimal 75 (-2)) MODEL) 6;
              InsertLogEvents "processed" 6
                (Py.take 2000 (json_dumps E (JObj d)))] 0 (called 1 s)).
Proof.
  intros E s d.
  apply (person_is_filed E 6 "Call Dad on Sunday" d
           [("name", JStr ""); ("follow_up", JStr "call on Sunday")]
           "" (JStr "John Doe") (float_of_decimal 75 (-2))
           (SText "John Doe") (SText "") (SText "call on Sunday") (SText "")
           s (called 1 s)).
  - vm_compute. reflexivity.
  - vm_compute. reflexivity.
  - reflexivity.
  - vm_compute. reflexivity.
  - vm_compute. reflexivity.
  - reflexivity.
  - vm_compute. reflexivity.
  - reflexivity.
  - reflexivity.
  - reflexivity.
  - reflexivity.
  - reflexivity.
Defined.

(** X14. An accepted answer of a valid category whose confidence is
    not below the threshold but
    whose required text is empty (the name of the person or of the project,
    the title of the idea, the task) is sent to review under its category
    and confidence with the error [missing ...]; no record is created. *)
Theorem missing_required_text_needs_review (E : Env) (id : Z) (raw : string)
    (d fd : dict) (err c : string) (v : json) (f : float) (s s1 : state) :
  pre_route raw = None ->
  retry_loop E raw (seq 0 (MAX_RETRIES + 1)) "" s = Ok (JObj d, err) s1 ->
  dict_get d "category" = Some (JStr c) ->
  In c categories ->
  confidence_of E d = inr f ->
  SFltb f CONF_THRESHOLD = false ->
  fields_of d = JObj fd ->
  required_text E raw c d fd = inr v ->
  truthy v = false ->
  loop_body E (id, raw) s
  = Stop Continue
      (after [UpdateInbox (review c f MODEL (missing_error c)) id;
              InsertLogEvents "needs_review" id (missing_error c)] 0 s1).
Proof.
  intros Hpre Hrun Hcat Hin Hconf Hlt Hfd Hreq Hv.
  rewrite (fallback_routes E id raw d err s s1 Hpre Hrun).
  rewrite (threshold_passed E id raw d c f s1 Hcat Hin Hconf Hlt).
  rewrite Hfd. unfold required_text in Hreq.
  cbn [In categories] in Hin.
  destruct Hin as [<-|[<-|[<-|[<-|[]]]]];
    cbv [String.eqb Ascii.eqb Bool.eqb] in Hreq |- *.
  - unfold file_people. unfold person_name, text_field in Hreq. mrun.
    destruct (py_strip
                (py_or match dict_get fd "name" with
                       | Some v => v
                       | None => JNull
                       end (JStr ""))) as [e|n0]; [discriminate|].
    injection Hreq as <-. mrun.
    destruct (n0 =? "") eqn:Hn0; cbn [negb].
    + rewrite Hv. run. f_equal. state_eq.
    + cbn in Hv. rewrite Hn0 in Hv. discriminate.
  - unfold file_projects. unfold text_field in Hreq. mrun.
    destruct (py_strip
                (py_or match dict_get fd "name" with
                       | Some v => v
                       | None => JNull
                       end (JStr ""))) as [e|n0]; [discriminate|].
    injection Hreq as <-. mrun. cbn in Hv. rewrite Hv.
    run. f_equal. state_eq.
  - unfold file_ideas. unfold idea_title in Hreq. mrun.
    unfold py_or at 1 in Hreq.
    destruct (truthy match dict_get fd "title" with
                     | Some v => v
                     | None => JNull
                     end); mrun;
      (destruct (py_strip _) as [e|n0]; [discriminate|]);
      injection Hreq as <-; mrun; cbn in Hv; rewrite Hv;
      run; f_equal; state_eq.
  - unfold file_admin. unfold text_field in Hreq. mrun.
    destruct (py_strip
                (py_or match dict_get fd "task" with
                       | Some v => v
                       | None => JNull
                       end (JStr ""))) as [e|n0]; [discriminate|].
    injection Hreq as <-. mrun. cbn in Hv. rewrite Hv.
    run. f_equal. state_eq.
Qed.

Lemma missing_required_text_witness :
  let E := Ref.env
             (classifier_says
                (dq "{'category': 'ideas', 'confidence': 0.9, 'fields': {'title': '  '}, 'title': 'Tea atlas'}"))
             None in
  let s := connect (inbox_of [unprocessed 8 "an atlas of tea"]) in
  loop_body E (8%Z, "an atlas of tea") s
  = Stop Continue
      (after [UpdateInbox
                (review "ideas" (float_of_decimal 9 (-1)) MODEL
                   (missing_error "ideas")) 8;
              InsertLogEvents "needs_review" 8 (missing_error "ideas")]
             0 (called 1 s)).
Proof.
  intros E s.
  apply (missing_required_text_needs_review E 8 "an atlas of tea"
           [("category", JStr "ideas");
            ("confidence", JFloat (float_of_decimal 9 (-1)));
            ("fields", JObj [("title", JStr "  ")]);
            ("title", JStr "Tea atlas")]
           [("title", JStr "  ")]
           "" "ideas" (JStr "") (float_of_decimal 9 (-1)) s (called 1 s)).
  - vm_compute. reflexivity.
  - vm_compute. reflexivity.
  - reflexivity.
  - cbn. tauto.
  - vm_compute. reflexivity.
  - vm_compute. reflexivity.
  - reflexivity.
  - vm_compute. reflexivity.
  - reflexivity.
Defined.

(** X15. An accepted answer of a valid category whose confidence is
    not below the threshold but
    whose fields are a non-empty value other than an object makes the item
    raise [AttributeError] before any statement; the loop stops there and
    the rows after it are not looked at. *)
Theorem fields_of_wrong_type_abort_the_batch (E : Env) (id : Z) (raw : string)
    (d : dict) (err c : string) (f : float) (rest : list (Z * string))
    (s s1 : state) :
  pre_route raw = None ->
  retry_loop E raw (seq 0 (MAX_RETRIES + 1)) "" s = Ok (JObj d, err) s1 ->
  dict_get d "category" = Some (JStr c) ->
  In c categories ->
  confidence_of E d = inr f ->
  SFltb f CONF_THRESHOLD = false ->
  is_dict (fields_of d) = false ->
  loop_body E (id, raw) s = Stop (Raise AttributeError) s1
  /\ for_rows E ((id, raw) :: rest) s = Stop (Raise AttributeError) s1
  /\ db s1 = db s /\ committed s1 = committed s /\ executed s1 = executed s.
Proof.
  intros Hpre Hrun Hcat Hin Hconf Hlt Hfd.
  assert (Hgo : loop_body E (id, raw) s = Stop (Raise AttributeError) s1).
  { rewrite (fallback_routes E id raw d err s s1 Hpre Hrun).
    rewrite (threshold_passed E id raw d c f s1 Hcat Hin Hconf Hlt).
    cbn [In categories] in Hin.
    destruct (fields_of d) as [| | | | | |fd]; try discriminate;
      destruct Hin as [<-|[<-|[<-|[<-|[]]]]];
      cbv [String.eqb Ascii.eqb Bool.eqb];
      reflexivity. }
  split; [exact Hgo|]. split.
  - cbn [for_rows]. now rewrite Hgo.
  - destruct (retry_loop_ends E raw (seq 0 (MAX_RETRIES + 1)) "" s)
      as (k & res & err' & Heq & _).
    rewrite Heq in Hrun. injection Hrun as _ _ <-. now split.
Qed.

Lemma fields_of_wrong_type_witness :
  let E := Ref.env
             (classifier_says
                (dq "{'category': 'admin', 'confidence': 0.9, 'fields': 'pay rent'}"))
             None in
  let s := connect (inbox_of [unprocessed 1 "rent"; unprocessed 2 "admin: call bank"]) in
  loop_body E (1%Z, "rent") s = Stop (Raise AttributeError) (called 1 s)
  /\ for_rows E [(1%Z, "rent"); (2%Z, "admin: call bank")] s
     = Stop (Raise AttributeError) (called 1 s)
  /\ db (called 1 s) = db s /\ committed (called 1 s) = committed s
  /\ executed (called 1 s) = executed s.
Proof.
  intros E s.
  apply (fields_of_wrong_type_abort_the_batch E 1 "rent"
           [("category", JStr "admin");
            ("confidence", JFloat (float_of_decimal 9 (-1)));
            ("fields", JStr "pay rent")]
           "" "admin" (float_of_decimal 9 (-1)) [(2%Z, "admin: call bank")]
           s (called 1 s)).
  - vm_compute. reflexivity.
  - vm_compute. reflexivity.
  - reflexivity.
  - cbn. tauto.
  - vm_compute. reflexivity.
  - vm_compute. reflexivity.
  - reflexivity.
Defined.

(** ** The batch *)

(** The statements of an item that does not raise: at most one record,
    then the update of the item and its log event. *)
Lemma loop_body_trace (E : Env) (id : Z) (raw : string) (s : state) :
  (exists e k, loop_body E (id, raw) s = Stop (Raise e) (called k s))
  \/ (exists k pre u details,
        finished (loop_body E (id, raw) s)
        = Some (after (pre ++ [UpdateInbox u id;
                               InsertLogEvents (set_status u) id details])%list
                      k s)
        /\ (pre = [] \/ exists q v, pre = [q] /\ required_field q = Some v)
        /\ (set_status u = "processed" \/ set_status u = "needs_review")).
Proof.
  destruct (loop_body_ends E id raw s) as
    [ e k He | err Htot Herr He | k cat conf model err details Hr Hlen He
    | k q v cat conf model details Hr Hreq Hv Hlen He ].
  - left. now exists e, k.
  - right. exists (MAX_RETRIES + 1), [], (review_error err), (Py.take 2000 err).
    split; [exact He|]. split; [now left | now right].
  - right. exists k, [], (review cat conf model err), details.
    split; [exact He|]. split; [now left | now right].
  - right. exists k, [q], (processed cat conf model), details.
    split; [exact He|]. split; [right; now exists q, v | now left].
Qed.

Lemma inbox_after_item (pre : list stmt) (u : inbox_update) (id : Z)
    (event details : string) (t : store) :
  pre = [] \/ (exists q v, pre = [q] /\ required_field q = Some v) ->
  inbox (run_stmts (pre ++ [UpdateInbox u id;
                            InsertLogEvents event id details])%list t)
  = map (apply_update u id) (inbox t).
Proof.
  intros [->|(q & v & -> & Hq)]; [reflexivity|].
  destruct q; try discriminate Hq; reflexivity.
Qed.

Lemma update_ids_item (pre : list stmt) (u : inbox_update) (id : Z)
    (event details : string) :
  pre = [] \/ (exists q v, pre = [q] /\ required_field q = Some v) ->
  update_ids (pre ++ [UpdateInbox u id; InsertLogEvents event id details])%list
  = [id].
Proof.
  intros [->|(q & v & -> & Hq)]; [reflexivity|].
  destruct q; try discriminate Hq; reflexivity.
Qed.

(** X16. An item that raises has executed no statement: the tables, the
    committed tables and the list of executed statements are as before;
    only runs of the classifier may have happened. *)
Theorem raising_item_changes_nothing (E : Env) (id : Z) (raw : string)
    (e : exn) (s s' : state) :
  loop_body E (id, raw) s = Stop (Raise e) s' ->
  db s' = db s /\ committed s' = committed s /\ executed s' = executed s
  /\ calls s <= calls s' <= MAX_RETRIES + 1 + calls s.
Proof.
  intros H.
  assert (Hc := runs_loop_body E (id, raw) s). rewrite H in Hc.
  destruct (loop_body_trace E id raw s) as
    [(e' & k & He)|(k & pre & u & details & He & _)];
    rewrite H in He.
  - injection He as _ ->. now repeat split.
  - discriminate.
Qed.

Lemma raising_item_witness :
  let E := Ref.env
             (classifier_says
                (dq "{'category': 'admin', 'confidence': 'high', 'fields': {'task': 'buy milk'}}"))
             None in
  let s := connect (inbox_of [unprocessed 1 "buy milk"]) in
  db (called 1 s) = db s /\ committed (called 1 s) = committed s
  /\ executed (called 1 s) = executed s
  /\ calls s <= calls (called 1 s) <= MAX_RETRIES + 1 + calls s.
Proof.
  intros E s.
  apply (raising_item_changes_nothing E 1 "buy milk" ValueError s (called 1 s)).
  vm_compute. reflexivity.
Defined.

Lemma for_rows_committed (E : Env) (rows : list (Z * string)) :
  forall s,
    committed s = db s ->
    committed (state_of (for_rows E rows s)) = db (state_of (for_rows E rows s)).
Proof.
  induction rows as [|[id raw] rows IH]; intros s Hs; [exact Hs|].
  cbn [for_rows].
  destruct (loop_body_trace E id raw s) as
    [(e & k & He)|(k & pre & u & details & He & _)].
  - rewrite He. exact Hs.
  - destruct (loop_body E (id, raw) s) as [a s1|[e|] s1]; try discriminate;
      injection He as ->; now apply IH.
Qed.

Lemma main_run (E : Env) (limit : Z) (s : state) :
  int64 limit ->
  main E limit s
  = (for_rows E (map (fun r => (inbox_id r, inbox_raw_text r))
                     (sql_limit limit (order_by_id (waiting (db s))))) ;;
     ret 0%Z) s.
Proof.
  intros [Hlo Hhi]. unfold main, SELECT_unprocessed.
  unfold bind at 1. unfold bind at 1. cbn [adapt].
  apply Z.leb_le in Hlo, Hhi. rewrite Hlo, Hhi. cbn [andb lift ret].
  fold is_unprocessed. fold (waiting (db s)).
  now destruct (map _ _).
Qed.

Lemma main_overflow (E : Env) (limit : Z) (s : state) :
  ~ int64 limit -> main E limit s = Stop (Raise OverflowError) s.
Proof.
  intros H. unfold main, SELECT_unprocessed.
  unfold bind at 1. unfold bind at 1. cbn [adapt].
  destruct ((int64_min <=? limit)%Z && (limit <=? int64_max)%Z) eqn:Hb;
    [|reflexivity].
  apply andb_true_iff in Hb. destruct Hb as [Hlo Hhi].
  apply Z.leb_le in Hlo, Hhi. destruct H. now split.
Qed.

(** X17. [main] leaves nothing uncommitted: on a connection without pending
    changes, the committed tables are the tables of the connection when
    [main] ends, also when it ends with an exception. *)
Theorem main_leaves_nothing_uncommitted (E : Env) (limit : Z) (s : state) :
  committed s = db s ->
  committed (state_of (main E limit s)) = db (state_of (main E limit s)).
Proof.
  intros Hs.
  destruct (Z_le_dec int64_min limit) as [Hlo|Hlo];
    [destruct (Z_le_dec limit int64_max) as [Hhi|Hhi]|].
  - rewrite (main_run E limit s (conj Hlo Hhi)). unfold bind.
    assert (H := for_rows_committed E
                   (map (fun r => (inbox_id r, inbox_raw_text r))
                        (sql_limit limit (order_by_id (waiting (db s))))) s Hs).
    destruct (for_rows E _ s); exact H.
  - rewrite main_overflow; [exact Hs | intros [_ H]; contradiction].
  - rewrite main_overflow; [exact Hs | intros [H _]; contradiction].
Qed.

Lemma uncommitted_witness :
  let E := Ref.env
             (classifier_says
                (dq "{'category': 'admin', 'confidence': 'high', 'fields': {'task': 'buy milk'}}"))
             None in
  let s := connect (inbox_of [unprocessed 1 "idea: tea atlas";
                              unprocessed 2 "buy milk";
                              unprocessed 3 "admin: pay rent"]) in
  committed (state_of (main E 10 s)) = db (state_of (main E 10 s)).
Proof.
  intros E s.
  apply (main_leaves_nothing_uncommitted E 10 s).
  reflexivity.
Defined.

(** *** The order of the batch *)

Lemma insert_by_id_in (r x : inbox_row) (l : list inbox_row) :
  In x (insert_by_id r l) <-> x = r \/ In x l.
Proof.
  induction l as [|y t IH]; cbn; [intuition|].
  destruct (inbox_id r <=? inbox_id y)%Z; cbn; [intuition|].
  rewrite IH. intuition.
Qed.

Lemma order_by_id_in (x : inbox_row) (l : list inbox_row) :
  In x (order_by_id l) <-> In x l.
Proof.
  unfold order_by_id.
  induction l as [|y t IH]; cbn [fold_right In]; [tauto|].
  rewrite insert_by_id_in, IH. intuition.
Qed.

Lemma insert_by_id_length (r : inbox_row) (l : list inbox_row) :
  length (insert_by_id r l) = S (length l).
Proof.
  induction l as [|y t IH]; cbn; [reflexivity|].
  destruct (inbox_id r <=? inbox_id y)%Z; cbn; [reflexivity | now rewrite IH].
Qed.

Lemma order_by_id_length (l : list inbox_row) :
  length (order_by_id l) = length l.
Proof.
  unfold order_by_id.
  induction l as [|y t IH]; cbn [fold_right length]; [reflexivity|].
  now rewrite insert_by_id_length, IH.
Qed.

Lemma insert_by_id_sorted (r : inbox_row) (l : list inbox_row) :
  StronglySorted Z.le (map inbox_id l) ->
  StronglySorted Z.le (map inbox_id (insert_by_id r l)).
Proof.
  induction l as [|y t IH]; intros Hs; cbn.
  - constructor; constructor.
  - inversion Hs as [|? ? Ht Hy]; subst.
    destruct (inbox_id r <=? inbox_id y)%Z eqn:Hle; cbn.
    + apply Z.leb_le in Hle. constructor; [exact Hs|].
      constructor; [exact Hle|].
      eapply Forall_impl; [|exact Hy]. cbn. intros a Ha. lia.
    + apply Z.leb_gt in Hle. constructor; [now apply IH|].
      apply Forall_forall. intros a Ha.
      apply in_map_iff in Ha. destruct Ha as (x & <- & Hx).
      apply insert_by_id_in in Hx. destruct Hx as [->|Hx]; [lia|].
      rewrite Forall_forall in Hy. apply Hy. now apply in_map.
Qed.

Lemma order_by_id_sorted (l : list inbox_row) :
  StronglySorted Z.le (map inbox_id (order_by_id l)).
Proof.
  unfold order_by_id.
  induction l as [|y t IH]; cbn [fold_right map]; [constructor|].
  now apply insert_by_id_sorted.
Qed.

Lemma in_firstn {A} (n : nat) (l : list A) (x : A) :
  In x (firstn n l) -> In x l.
Proof.
  revert n. induction l as [|a t IH]; intros [|n]; cbn; try tauto.
  intros [->|H]; [now left | right; now apply (IH n)].
Qed.

Lemma firstn_sorted (l : list Z) :
  StronglySorted Z.le l -> forall n, StronglySorted Z.le (firstn n l).
Proof.
  induction 1 as [|a t Ht IH Ha]; intros [|n]; cbn; try constructor.
  - apply IH.
  - apply Forall_forall. intros x Hx. rewrite Forall_forall in Ha.
    apply Ha. eapply in_firstn; exact Hx.
Qed.

Lemma firstn_oldest (l : list Z) :
  StronglySorted Z.le l ->
  forall n x, In x l ->
    In x (firstn n l) \/ (forall y, In y (firstn n l) -> (y <= x)%Z).
Proof.
  induction 1 as [|a t Ht IH Ha]; intros n x Hx; [destruct Hx|].
  destruct n as [|n]; [right; intros y []|].
  cbn [firstn]. destruct Hx as [->|Hx]; [left; now left|].
  destruct (IH n x Hx) as [Hin|Hle]; [left; now right|].
  right. intros y [<-|Hy]; [|now apply Hle].
  rewrite Forall_forall in Ha. now apply Ha.
Qed.

Lemma sql_limit_firstn {A} (limit : Z) (l : list A) :
  exists m, sql_limit limit l = firstn m l
            /\ ((0 <= limit)%Z -> m = Z.to_nat limit)
            /\ ((limit < 0)%Z -> m = length l).
Proof.
  unfold sql_limit. destruct (limit <? 0)%Z eqn:H.
  - apply Z.ltb_lt in H. exists (length l).
    rewrite firstn_all. split; [reflexivity|]. split; [lia | reflexivity].
  - apply Z.ltb_ge in H. exists (Z.to_nat limit).
    split; [reflexivity|]. split; [reflexivity | lia].
Qed.

Lemma map_firstn {A B} (f : A -> B) (n : nat) (l : list A) :
  map f (firstn n l) = firstn n (map f l).
Proof.
  revert n. induction l as [|a t IH]; intros [|n]; cbn; try reflexivity.
  now rewrite IH.
Qed.

Lemma update_ids_app (a b : list stmt) :
  update_ids (a ++ b) = (update_ids a ++ update_ids b)%list.
Proof. unfold update_ids. apply flat_map_app. Qed.

Lemma runs_for_rows (E : Env) (rows : list (Z * string)) :
  runs_at_most ((MAX_RETRIES + 1) * length rows) (for_rows E rows).
Proof.
  induction rows as [|r rows IH]; intros s.
  - cbn. lia.
  - cbn [for_rows]. assert (H := runs_loop_body E r s).
    destruct (loop_body E r s) as [a s1|[e|] s1]; cbn [state_of] in *;
      try (specialize (IH s1)); cbn [length]; lia.
Qed.

(** The updates of a loop over [rows]: the identifiers of the first rows,
    all of them when the loop comes to its end. *)
Lemma for_rows_updates (E : Env) (rows : list (Z * string)) :
  forall s,
    exists qs n,
      executed (state_of (for_rows E rows s)) = (executed s ++ qs)%list
      /\ update_ids qs = firstn n (map fst rows)
      /\ ((exists s', for_rows E rows s = Ok tt s') -> n = length rows).
Proof.
  induction rows as [|[id raw] rows IH]; intros s.
  - exists [], 0. cbn. rewrite app_nil_r. now repeat split.
  - cbn [for_rows].
    destruct (loop_body_trace E id raw s) as
      [(e & k & He)|(k & pre & u & details & He & Hpre & _)].
    + rewrite He. exists [], 0. cbn. rewrite app_nil_r.
      repeat split. intros (s' & H). discriminate.
    + assert (Hgo : forall o : outcome unit,
                 (match loop_body E (id, raw) s with
                  | Ok _ s' | Stop Continue s' => for_rows E rows s'
                  | Stop (Raise e) s' => Stop (Raise e) s'
                  end) = o ->
                 for_rows E rows
                   (after (pre ++ [UpdateInbox u id;
                                   InsertLogEvents (set_status u) id details])
                      k s) = o).
      { intros o <-.
        destruct (loop_body E (id, raw) s) as [a s1|[e|] s1];
          try discriminate; now injection He as ->. }
      rewrite <- (Hgo _ eq_refl).
      destruct (IH (after (pre ++ [UpdateInbox u id;
                                   InsertLogEvents (set_status u) id details])
                      k s)) as (qs & n & Hq & Hn & Hall).
      eexists _, (S n). split; [|split].
      * rewrite Hq. cbn [after executed]. rewrite <- app_assoc. reflexivity.
      * rewrite update_ids_app, (update_ids_item _ _ _ _ _ Hpre), Hn.
        reflexivity.
      * intros H. cbn [length]. f_equal. now apply Hall.
Qed.

(** X18. [main] updates the oldest waiting items first: the identifiers of
    the items it updates are in ascending order, each is the identifier of
    a waiting row, there are at most [limit] of them when [limit] is not
    negative, and a waiting row that is not updated has an identifier that
    is not smaller than any updated one.  When [main] returns, it has
    updated [limit] items or all the waiting ones.  It runs the classifier
    at most [MAX_RETRIES + 1] times per waiting row. *)
Theorem main_updates_the_oldest_waiting_items_first (E : Env) (limit : Z)
    (s : state) :
  exists qs,
    executed (state_of (main E limit s)) = (executed s ++ qs)%list
    /\ StronglySorted Z.le (update_ids qs)
    /\ (forall id, In id (update_ids qs) ->
          exists r, In r (waiting (db s)) /\ inbox_id r = id)
    /\ length (update_ids qs) <= length (waiting (db s))
    /\ ((0 <= limit)%Z -> length (update_ids qs) <= Z.to_nat limit)
    /\ (forall r, In r (waiting (db s)) ->
          In (inbox_id r) (update_ids qs)
          \/ forall id, In id (update_ids qs) -> (id <= inbox_id r)%Z)
    /\ (forall z s', main E limit s = Ok z s' ->
          ((0 <= limit)%Z /\ length (update_ids qs) = Z.to_nat limit)
          \/ forall r, In r (waiting (db s)) -> In (inbox_id r) (update_ids qs))
    /\ calls (state_of (main E limit s))
       <= (MAX_RETRIES + 1) * length (waiting (db s)) + calls s.
Proof.
  destruct (Z_le_dec int64_min limit) as [Hlo|Hlo];
    [destruct (Z_le_dec limit int64_max) as [Hhi|Hhi]|].
  2, 3: exists []; rewrite main_overflow by (intros [? ?]; contradiction);
    cbn [state_of update_ids flat_map length]; rewrite app_nil_r;
    (split; [reflexivity|]); (split; [constructor|]);
    (split; [intros id []|]); (split; [lia|]); (split; [lia|]);
    (split; [intros r _; right; intros id []|]);
    (split; [discriminate | lia]).
  rewrite (main_run E limit s (conj Hlo Hhi)).
  set (L := order_by_id (waiting (db s))).
  destruct (sql_limit_firstn limit L) as (m & -> & Hpos & Hneg).
  set (rows := map (fun r => (inbox_id r, inbox_raw_text r)) (firstn m L)).
  assert (Hfst : map fst rows = firstn m (map inbox_id L)).
  { unfold rows. rewrite map_map. cbn [fst]. apply map_firstn. }
  assert (Hlen : length rows <= length (waiting (db s))).
  { unfold rows. rewrite length_map, length_firstn.
    unfold L. rewrite order_by_id_length. lia. }
  destruct (for_rows_updates E rows s) as (qs & n & Hq & Hn & Hall).
  assert (Hruns := runs_for_rows E rows s).
  assert (Hst : state_of ((for_rows E rows ;; ret 0%Z) s)
                = state_of (for_rows E rows s)).
  { unfold bind. now destruct (for_rows E rows s). }
  rewrite Hst. exists qs. split; [exact Hq|].
  rewrite Hn, Hfst, firstn_firstn.
  assert (Hsorted := order_by_id_sorted (waiting (db s))). fold L in Hsorted.
  split; [now apply firstn_sorted|].
  split.
  { intros id Hid. apply in_firstn in Hid.
    apply in_map_iff in Hid. destruct Hid as (r & <- & Hr).
    exists r. split; [|reflexivity]. unfold L in Hr.
    exact (proj1 (order_by_id_in _ _) Hr). }
  split.
  { rewrite length_firstn, length_map. unfold L.
    rewrite order_by_id_length. lia. }
  split.
  { intros H0. rewrite length_firstn. rewrite (Hpos H0). lia. }
  split.
  { intros r Hr. apply firstn_oldest; [exact Hsorted|].
    apply in_map. unfold L. exact (proj2 (order_by_id_in _ _) Hr). }
  split.
  { intros z s' Hmain. unfold bind in Hmain.
    destruct (for_rows E rows s) as [[] s1|sg s1] eqn:Hfor; [|discriminate].
    assert (Hnn : n = length rows) by (apply Hall; now exists s1).
    assert (Hrows : length rows = Nat.min m (length L)).
    { unfold rows. now rewrite length_map, length_firstn. }
    destruct (Z_lt_dec limit 0) as [Hl|Hl].
    - right. intros r Hr. assert (Hm := Hneg Hl).
      rewrite firstn_all2 by (rewrite length_map; lia).
      apply in_map. unfold L. exact (proj2 (order_by_id_in _ _) Hr).
    - assert (Hm := Hpos ltac:(lia)).
      destruct (le_lt_dec m (length L)) as [Hle|Hgt].
      + left. split; [lia|].
        rewrite length_firstn, length_map. lia.
      + right. intros r Hr.
        rewrite firstn_all2 by (rewrite length_map; lia).
        apply in_map. unfold L. exact (proj2 (order_by_id_in _ _) Hr). }
  unfold MAX_RETRIES in *. lia.
Qed.

(** *** Running the script again *)

Lemma waiting_after_update (u : inbox_update) (id : Z) (rows : list inbox_row) :
  set_status u <> "unprocessed" ->
  filter is_unprocessed (map (apply_update u id) rows)
  = filter (fun r => negb (inbox_id r =? id)%Z) (filter is_unprocessed rows).
Proof.
  intros Hu. apply String.eqb_neq in Hu.
  induction rows as [|r t IH]; [reflexivity|].
  cbn [map filter].
  destruct (inbox_id r =? id)%Z eqn:Hid.
  - assert (Hup : is_unprocessed (apply_update u id r) = false).
    { unfold apply_update, is_unprocessed. rewrite Hid. exact Hu. }
    rewrite Hup.
    destruct (is_unprocessed r); cbn [filter]; rewrite ?Hid; exact IH.
  - assert (Hsame : apply_update u id r = r).
    { unfold apply_update. now rewrite Hid. }
    rewrite Hsame.
    destruct (is_unprocessed r); cbn [filter]; rewrite ?Hid; cbn [negb];
      now rewrite IH.
Qed.

Lemma filter_filter_and {A} (f g h : A -> bool) (l : list A) :
  (forall x, h x = g x && f x) ->
  filter f (filter g l) = filter h l.
Proof.
  intros H. induction l as [|a t IH]; [reflexivity|].
  cbn [filter]. rewrite H.
  destruct (g a); cbn [filter andb]; [|exact IH].
  destruct (f a); now rewrite IH.
Qed.

Lemma filter_all_false {A} (f : A -> bool) (l : list A) :
  (forall x, In x l -> f x = false) -> filter f l = [].
Proof.
  induction l as [|a t IH]; intros H; [reflexivity|].
  cbn [filter]. rewrite (H a (or_introl eq_refl)).
  apply IH. intros x Hx. apply H. now right.
Qed.

Lemma filter_all_true {A} (f : A -> bool) (l : list A) :
  (forall x, f x = true) -> filter f l = l.
Proof.
  intros H. induction l as [|a t IH]; [reflexivity|].
  cbn [filter]. now rewrite H, IH.
Qed.

(** The rows that still wait after a loop that came to its end: those
    whose identifier is not the identifier of a row of the loop. *)
Lemma for_rows_waiting (E : Env) (rows : list (Z * string)) :
  forall s s',
    for_rows E rows s = Ok tt s' ->
    waiting (db s')
    = filter (fun r => negb (existsb (Z.eqb (inbox_id r)) (map fst rows)))
             (waiting (db s)).
Proof.
  induction rows as [|[id raw] rows IH]; intros s s' H.
  - injection H as <-. symmetry. now apply filter_all_true.
  - cbn [for_rows] in H.
    destruct (loop_body_trace E id raw s) as
      [(e & k & He)|(k & pre & u & details & He & Hpre & Hu)].
    + rewrite He in H. discriminate.
    + assert (Hnext : for_rows E rows
                        (after (pre ++ [UpdateInbox u id;
                                        InsertLogEvents (set_status u) id details])
                           k s) = Ok tt s').
      { destruct (loop_body E (id, raw) s) as [a s1|[e|] s1];
          try discriminate; now injection He as <-. }
      rewrite (IH _ _ Hnext). unfold waiting at 1.
      cbn [after db]. rewrite (inbox_after_item _ _ _ _ _ _ Hpre).
      rewrite waiting_after_update
        by (destruct Hu as [-> | ->]; discriminate).
      apply filter_filter_and. intros r. cbn [map fst existsb].
      now rewrite negb_orb.
Qed.

Lemma nothing_waiting (E : Env) (limit : Z) (s : state) :
  waiting (db s) = [] -> int64 limit -> main E limit s = Ok 0%Z s.
Proof.
  intros Hw Hl. rewrite (main_run E limit s Hl), Hw.
  unfold sql_limit. cbn [order_by_id fold_right].
  destruct (limit <? 0)%Z; [reflexivity|]. now rewrite firstn_nil.
Qed.

(** X19. When [main] returns and its limit is negative or not smaller than
    the number of waiting rows, no row waits any more, and running [main]
    again on the connection it leaves does nothing at all. *)
Theorem completed_run_leaves_nothing_waiting (E : Env) (limit z : Z)
    (s s' : state) :
  main E limit s = Ok z s' ->
  (limit < 0 \/ Z.of_nat (length (waiting (db s))) <= limit)%Z ->
  z = 0%Z
  /\ waiting (db s') = []
  /\ (forall r, In r (inbox (db s')) -> inbox_status r <> "unprocessed")
  /\ (forall limit', int64 limit' -> main E limit' s' = Ok 0%Z s').
Proof.
  intros Hmain Hcover.
  assert (Hl : int64 limit).
  { destruct (Z_le_dec int64_min limit) as [Hlo|Hlo];
      [destruct (Z_le_dec limit int64_max) as [Hhi|Hhi]|];
      [now split | | ];
      rewrite main_overflow in Hmain by (intros [? ?]; contradiction);
      discriminate. }
  rewrite (main_run E limit s Hl) in Hmain. unfold bind in Hmain.
  assert (Hall : sql_limit limit (order_by_id (waiting (db s)))
                 = order_by_id (waiting (db s))).
  { unfold sql_limit. destruct (limit <? 0)%Z eqn:Hneg; [reflexivity|].
    apply Z.ltb_ge in Hneg. apply firstn_all2.
    rewrite order_by_id_length. lia. }
  rewrite Hall in Hmain.
  destruct (for_rows E _ s) as [[] s1|sg s1] eqn:Hfor; [|discriminate].
  injection Hmain as <- ->.
  assert (Hw : waiting (db s') = []).
  { rewrite (for_rows_waiting _ _ _ _ Hfor).
    apply filter_all_false. intros r Hr.
    apply negb_false_iff, existsb_exists. exists (inbox_id r).
    split; [|apply Z.eqb_refl].
    rewrite map_map. cbn [fst].
    apply in_map. exact (proj2 (order_by_id_in _ _) Hr). }
  split; [reflexivity|]. split; [exact Hw|]. split.
  - intros r Hr Hst.
    assert (Hin : In r (waiting (db s'))).
    { apply filter_In. split; [exact Hr|].
      unfold is_unprocessed. now apply String.eqb_eq. }
    rewrite Hw in Hin. destruct Hin.
  - intros limit' Hl'. now apply nothing_waiting.
Qed.

Lemma completed_run_witness :
  let E := Ref.env no_classifier None in
  let s := connect (inbox_of [unprocessed 2 "idea: tea atlas";
                              unprocessed 1 "admin: pay rent"]) in
  let s' := state_of (main E 10 s) in
  0%Z = 0%Z
  /\ waiting (db s') = []
  /\ (forall r, In r (inbox (db s')) -> inbox_status r <> "unprocessed")
  /\ (forall limit', int64 limit' -> main E limit' s' = Ok 0%Z s').
Proof.
  intros E s s'.
  apply (completed_run_leaves_nothing_waiting E 10 0 s s').
  - vm_compute. reflexivity.
  - right. vm_compute. discriminate.
Defined.

(** X20. When no row waits, [main] returns 0 without a statement and
    without running the classifier; when its limit does not fit an SQLite
    integer, it raises [OverflowError] before it reads the inbox. *)
Theorem main_without_work_or_with_a_wrong_limit (E : Env) (limit : Z)
    (s : state) :
  (int64 limit -> waiting (db s) = [] -> main E limit s = Ok 0%Z s)
  /\ (~ int64 limit -> main E limit s = Stop (Raise OverflowError) s).
Proof.
  split.
  - intros Hl Hw. now apply nothing_waiting.
  - apply main_overflow.
Qed.

(** ** The enumerations of the tables *)

Section Emits.

Variable P : stmt -> bool.

Lemma emits_nothing {A} (c : M A) :
  (forall s, executed (state_of (c s)) = executed s
             /\ db (state_of (c s)) = db s) ->
  emits P c.
Proof.
  intros H s. destruct (H s) as [He Hd]. exists [].
  rewrite app_nil_r. now repeat split.
Qed.

Lemma emits_ret {A} (a : A) : emits P (ret a).
Proof. apply emits_nothing. now intros s. Qed.

Lemma emits_raise {A} (e : exn) : emits P (@raise A e).
Proof. apply emits_nothing. now intros s. Qed.

Lemma emits_continue {A} : emits P (@continue_ A).
Proof. apply emits_nothing. now intros s. Qed.

Lemma emits_commit : emits P commit.
Proof. apply emits_nothing. now intros s. Qed.

Lemma emits_lift {A} (r : exn + A) : emits P (lift r).
Proof. destruct r; [apply emits_raise | apply emits_ret]. Qed.

Lemma emits_execute (q : stmt) : P q = true -> emits P (execute q).
Proof.
  intros H s. exists [q]. cbn. now rewrite H.
Qed.

Lemma emits_bind {A B} (c : M A) (k : A -> M B) :
  emits P c -> (forall a, emits P (k a)) -> emits P (bind c k).
Proof.
  intros Hc Hk s. unfold bind.
  destruct (Hc s) as (q1 & He1 & Hd1 & Hp1).
  destruct (c s) as [a s1|sg s1]; cbn [state_of] in *.
  - destruct (Hk a s1) as (q2 & He2 & Hd2 & Hp2).
    exists (q1 ++ q2)%list.
    rewrite He2, Hd2, He1, Hd1, app_assoc, run_stmts_app, forallb_app, Hp1, Hp2.
    now repeat split.
  - exists q1. now repeat split.
Qed.

Lemma emits_leaves {A B} (c : M A) (k : A -> M B) :
  emits P c -> leaves c -> emits P (bind c k).
Proof.
  intros Hc Hl s. unfold bind.
  destruct (Hc s) as (q1 & He1 & Hd1 & Hp1).
  destruct (Hl s) as (sg & s1 & Hs). rewrite Hs in *.
  exists q1. now repeat split.
Qed.

Lemma emits_when (b : bool) (c : M unit) : emits P c -> emits P (when b c).
Proof. destruct b; [trivial | intros _; apply emits_ret]. Qed.

End Emits.

Lemma leaves_continue {A} : leaves (@continue_ A).
Proof. intros s. unfold continue_. eauto. Qed.

Lemma leaves_bind {A B} (c : M A) (k : A -> M B) :
  (forall a, leaves (k a)) -> leaves (bind c k).
Proof.
  intros Hk s. unfold bind. destruct (c s) as [a s1|sg s1]; [apply Hk | eauto].
Qed.

Lemma status_or_allowed (allowed : list string) (default st : string) :
  In default allowed ->
  text_in (SText (if negb (in_strs (JStr st) allowed) then default else st))
          allowed = true.
Proof.
  intros Hd. destruct (in_strs (JStr st) allowed) eqn:H; cbn [negb].
  - exact H.
  - cbn. apply existsb_exists. exists default. split; [exact Hd|].
    apply String.eqb_refl.
Qed.

Ltac emit :=
  repeat first
    [ rewrite bind_ret
    | progress cbn [lift adapt]
    | apply emits_ret | apply emits_raise | apply emits_continue
    | apply emits_commit | apply emits_lift
    | apply emits_when
    | apply emits_execute
    | apply emits_bind; [|intros ?] ].

Lemma emits_file_people (E : Env) (id : Z) (raw : string) (fields : json)
    (conf : float) :
  emits well_formed (file_people E id raw fields conf).
Proof.
  unfold file_people, INSERT_people, UPDATE_inbox, log_event. cbv zeta.
  emit; reflexivity.
Qed.

Lemma emits_file_projects (id : Z) (fields : json) (conf : float) :
  emits well_formed (file_projects id fields conf).
Proof.
  unfold file_projects, INSERT_projects, UPDATE_inbox, log_event. cbv zeta.
  emit; try reflexivity.
  apply (status_or_allowed project_statuses "active"). cbn. tauto.
Qed.

Lemma emits_file_admin (id : Z) (fields : json) (conf : float) :
  emits well_formed (file_admin id fields conf).
Proof.
  unfold file_admin, INSERT_admin, UPDATE_inbox, log_event. cbv zeta.
  emit; try reflexivity.
  apply (status_or_allowed admin_statuses "open"). cbn. tauto.
Qed.

Lemma emits_file_ideas (id : Z) (result fields : json) (conf : float) :
  emits well_formed (file_ideas id result fields conf).
Proof.
  unfold file_ideas, INSERT_ideas, UPDATE_inbox, log_event. cbv zeta.
  emit; try reflexivity.
  match goal with |- emits _ (if ?b then _ else _) => destruct b end; emit.
Qed.

Lemma emits_route_result (E : Env) (id : Z) (raw : string) (result : json) :
  emits well_formed (route_result E id raw result).
Proof.
  unfold route_result.
  apply emits_bind; [apply emits_lift | intros category].
  apply emits_bind; [apply emits_lift | intros c].
  apply emits_bind; [apply emits_lift | intros confidence].
  apply emits_bind; [apply emits_lift | intros f].
  cbv zeta.
  destruct (in_strs category categories) eqn:Hin; cbn [negb orb].
  2: { cbn [when]. apply emits_leaves.
       - unfold UPDATE_inbox, log_event. emit; reflexivity.
       - repeat (apply leaves_bind; intros ?). apply leaves_continue. }
  destruct (in_strs_str _ _ Hin) as (cat & -> & Hcat).
  destruct (SFltb confidence CONF_THRESHOLD); cbn [when].
  { apply emits_leaves.
    - unfold UPDATE_inbox, log_event. emit; try reflexivity.
      cbn [In categories] in Hcat.
      destruct Hcat as [<-|[<-|[<-|[<-|[]]]]]; reflexivity.
    - repeat (apply leaves_bind; intros ?). apply leaves_continue. }
  rewrite bind_ret.
  cbn [In categories] in Hcat.
  destruct Hcat as [<-|[<-|[<-|[<-|[]]]]];
    cbn [eq_str]; cbv [String.eqb Ascii.eqb Bool.eqb];
    (apply emits_bind;
     [ first [ apply emits_file_people | apply emits_file_projects
             | apply emits_file_ideas | apply emits_file_admin ]
     | intros _; unfold UPDATE_inbox, log_event; emit; reflexivity ]).
Qed.

Lemma emits_prefix_stage (E : Env) (id : Z) (raw : string) :
  emits well_formed (prefix_stage E id raw).
Proof.
  unfold prefix_stage.
  destruct (pre_route raw) as [[cat clean]|] eqn:Hpre; [|apply emits_ret].
  destruct (pre_route_inv _ _ _ Hpre) as [Hcat _].
  cbn [In categories] in Hcat.
  destruct Hcat as [<-|[<-|[<-|[<-|[]]]]];
    cbv [String.eqb Ascii.eqb Bool.eqb];
    unfold INSERT_people, INSERT_projects, INSERT_ideas, INSERT_admin,
      UPDATE_inbox, log_event; cbv zeta;
    emit; reflexivity.
Qed.

Lemma emits_retry_loop (E : Env) (raw : string) (attempts : list nat)
    (err : string) :
  emits well_formed (retry_loop E raw attempts err).
Proof.
  apply emits_nothing. intros s.
  destruct (retry_loop_ends E raw attempts err s) as (k & res & err' & -> & _).
  now split.
Qed.

Lemma emits_loop_body (E : Env) (r : Z * string) :
  emits well_formed (loop_body E r).
Proof.
  destruct r as [id raw]. unfold loop_body.
  apply emits_bind; [apply emits_prefix_stage | intros _].
  unfold fallback_stage.
  apply emits_bind; [apply emits_retry_loop | intros [result last_err]].
  apply emits_bind; [|intros _; apply emits_route_result].
  unfold UPDATE_inbox_error, log_event. emit; reflexivity.
Qed.

Lemma emits_for_rows (E : Env) (rows : list (Z * string)) :
  emits well_formed (for_rows E rows).
Proof.
  induction rows as [|r rows IH]; [apply emits_ret|].
  intros s. cbn [for_rows].
  destruct (emits_loop_body E r s) as (q1 & He1 & Hd1 & Hp1).
  destruct (loop_body E r s) as [a s1|[e|] s1]; cbn [state_of] in *.
  1, 3: destruct (IH s1) as (q2 & He2 & Hd2 & Hp2);
    exists (q1 ++ q2)%list;
    rewrite He2, Hd2, He1, Hd1, app_assoc, run_stmts_app, forallb_app, Hp1, Hp2;
    now repeat split.
  exists q1. now repeat split.
Qed.

Lemma emits_main (E : Env) (limit : Z) : emits well_formed (main E limit).
Proof.
  unfold main, SELECT_unprocessed.
  apply emits_bind.
  - apply emits_bind; [apply emits_lift | intros _].
    apply emits_nothing. now intros s.
  - intros [|r rows]; [apply emits_ret|].
    apply emits_bind; [apply emits_for_rows | intros _; apply emits_ret].
Qed.

Lemma forallb_map_update (u : inbox_update) (id : Z) (rows : list inbox_row) :
  existsb (String.eqb (set_status u))
          ["unprocessed"; "processed"; "needs_review"] = true ->
  forallb (fun r => existsb (String.eqb (inbox_status r))
                      ["unprocessed"; "processed"; "needs_review"]) rows
  = true ->
  forallb (fun r => existsb (String.eqb (inbox_status r))
                      ["unprocessed"; "processed"; "needs_review"])
          (map (apply_update u id) rows) = true.
Proof.
  intros Hu. induction rows as [|r t IH]; [reflexivity|].
  cbn [forallb map]. intros H. apply andb_true_iff in H. destruct H as [Hr Ht].
  rewrite (IH Ht), andb_true_r. unfold apply_update.
  destruct (inbox_id r =? id)%Z; [exact Hu | exact Hr].
Qed.

Lemma run_stmt_well_formed (q : stmt) (t : store) :
  well_formed q = true ->
  well_formed_tables t = true ->
  well_formed_tables (run_stmt q t) = true.
Proof.
  unfold well_formed_tables. intros Hq Ht.
  apply andb_true_iff in Ht. destruct Ht as [Ht Hi].
  apply andb_true_iff in Ht. destruct Ht as [Hp Ha].
  destruct q;
    cbn [run_stmt projects admin inbox well_formed] in *;
    rewrite ?forallb_app, ?Hp, ?Ha, ?Hi;
    cbn [forallb andb projects_status admin_status];
    rewrite ?Hq; try reflexivity.
  rewrite forallb_map_update; [reflexivity| |exact Hi].
  apply andb_true_iff in Hq. destruct Hq as [Hq _].
  destruct (set_status u =? "processed") eqn:H1.
  - apply String.eqb_eq in H1. now rewrite H1.
  - destruct (set_status u =? "needs_review") eqn:H2; [|discriminate].
    apply String.eqb_eq in H2. now rewrite H2.
Qed.

Lemma run_stmts_well_formed (qs : list stmt) :
  forall t,
    forallb well_formed qs = true ->
    well_formed_tables t = true ->
    well_formed_tables (run_stmts qs t) = true.
Proof.
  induction qs as [|q qs IH]; intros t Hq Ht; [exact Ht|].
  cbn [forallb] in Hq. apply andb_true_iff in Hq. destruct Hq as [Hq Hqs].
  apply (IH _ Hqs). now apply run_stmt_well_formed.
Qed.

(** X21. Every statement that [main] executes respects the enumerations of
    the tables: the status of a new project is one of the five, the status
    of a new admin task is [open] or [done], an item is marked processed
    only with one of the four categories and sent to review only with one
    of the four, [unknown] or none, and the model is [prefix] or [MODEL].
    So tables that respect their enumerations before a run respect them
    after it, also when it ends with an exception. *)
Theorem main_keeps_the_enumerations (E : Env) (limit : Z) (s : state) :
  exists qs,
    executed (state_of (main E limit s)) = (executed s ++ qs)%list
    /\ db (state_of (main E limit s)) = run_stmts qs (db s)
    /\ forallb well_formed qs = true
    /\ (well_formed_tables (db s) = true ->
        well_formed_tables (db (state_of (main E limit s))) = true).
Proof.
  destruct (emits_main E limit s) as (qs & He & Hd & Hp).
  exists qs. split; [exact He|]. split; [exact Hd|]. split; [exact Hp|].
  intros Ht. rewrite Hd. now apply run_stmts_well_formed.
Qed.

(** ** A missing confidence *)

(** X22. An accepted answer of a valid category whose confidence is missing
    or is an empty value ([null], 0, [false], an empty string, list or
    object) counts as confidence 0.0 and is sent to review under its
    category; no record is created. *)
Theorem missing_confidence_needs_review (E : Env) (id : Z) (raw : string)
    (d : dict) (err c : string) (s s1 : state) :
  pre_route raw = None ->
  retry_loop E raw (seq 0 (MAX_RETRIES + 1)) "" s = Ok (JObj d, err) s1 ->
  dict_get d "category" = Some (JStr c) ->
  In c categories ->
  truthy (match dict_get d "confidence" with
          | Some v => v
          | None => JFloat float_zero
          end) = false ->
  loop_body E (id, raw) s
  = Stop Continue
      (after [UpdateInbox (review c float_zero MODEL "") id;
              InsertLogEvents "needs_review" id
                (Py.take 2000 (json_dumps E (JObj d)))] 0 s1).
Proof.
  intros Hpre Hrun Hcat Hin Hconf.
  rewrite (fallback_routes E id raw d err s s1 Hpre Hrun).
  unfold route_result. cbn [py_get lift bind ret]. rewrite Hcat.
  unfold py_or at 1. rewrite Hconf. cbn [py_float lift bind ret].
  rewrite (in_strs_in _ _ Hin). cbn [negb orb].
  change (SFltb float_zero CONF_THRESHOLD) with true.
  run. log_details. f_equal. state_eq.
Qed.

Lemma missing_confidence_witness :
  let E := Ref.env
             (classifier_says
                (dq "{'category': 'admin', 'confidence': null, 'fields': {'task': 'pay rent'}}"))
             None in
  let s := connect (inbox_of [unprocessed 1 "rent is due"]) in
  loop_body E (1%Z, "rent is due") s
  = Stop Continue
      (after [UpdateInbox (review "admin" float_zero MODEL "") 1;
              InsertLogEvents "needs_review" 1
                (Py.take 2000
                   (json_dumps E
                      (JObj [("category", JStr "admin");
                             ("confidence", JNull);
                             ("fields", JObj [("task", JStr "pay rent")])])))]
             0 (called 1 s)).
Proof.
  intros E s.
  apply (missing_confidence_needs_review E 1 "rent is due"
           [("category", JStr "admin"); ("confidence", JNull);
            ("fields", JObj [("task", JStr "pay rent")])]
           "" "admin" s (called 1 s)).
  - vm_compute. reflexivity.
  - vm_compute. reflexivity.
  - reflexivity.
  - cbn. tauto.
  - reflexivity.
Defined.

(** ** C8 *)

Lemma trail_app (E : Env) (a b : list stmt) :
  trail E a -> trail E b -> trail E (a ++ b).
Proof.
  intros Ha Hb. induction Ha as [|q v rest Hq _ IH|u id text rest Hp _ IH].
  - exact Hb.
  - cbn [app]. now apply (trail_record E q v).
  - cbn [app]. now apply trail_transition.
Qed.

Lemma passed_status (E : Env) (u : inbox_update) (text : string) :
  passed E u text ->
  set_status u = "processed" \/ set_status u = "needs_review".
Proof. intros []; cbn; tauto. Qed.

Lemma trail_audited (E : Env) (qs : list stmt) :
  trail E qs -> audited qs = true.
Proof.
  induction 1 as [|q v rest Hq _ IH|u id text rest Hp _ IH].
  - reflexivity.
  - destruct q; try discriminate Hq; exact IH.
  - cbn [audited]. rewrite String.eqb_refl, Z.eqb_refl, IH.
    assert (Hlen : (String.length (Py.take 2000 text) <=? 2000)%nat = true)
      by apply Nat.leb_le, take_length.
    rewrite Hlen.
    destruct (passed_status E u text Hp) as [-> | ->]; reflexivity.
Qed.

Section Trails.

Variable E : Env.

Lemma trails_nothing {A} (c : M A) :
  (forall s, executed (state_of (c s)) = executed s
             /\ db (state_of (c s)) = db s) ->
  trails E c.
Proof.
  intros H s. destruct (H s) as [He Hd]. exists [].
  rewrite app_nil_r. repeat split; [exact He | exact Hd | constructor].
Qed.

Lemma trails_ret {A} (a : A) : trails E (ret a).
Proof. apply trails_nothing. now intros s. Qed.

Lemma trails_raise {A} (e : exn) : trails E (@raise A e).
Proof. apply trails_nothing. now intros s. Qed.

Lemma trails_continue {A} : trails E (@continue_ A).
Proof. apply trails_nothing. now intros s. Qed.

Lemma trails_commit : trails E commit.
Proof. apply trails_nothing. now intros s. Qed.

Lemma trails_lift {A} (r : exn + A) : trails E (lift r).
Proof. destruct r; [apply trails_raise | apply trails_ret]. Qed.

Lemma trails_bind {A B} (c : M A) (k : A -> M B) :
  trails E c -> (forall a, trails E (k a)) -> trails E (bind c k).
Proof.
  intros Hc Hk s. unfold bind.
  destruct (Hc s) as (q1 & He1 & Hd1 & Hp1).
  destruct (c s) as [a s1|sg s1]; cbn [state_of] in *.
  - destruct (Hk a s1) as (q2 & He2 & Hd2 & Hp2).
    exists (q1 ++ q2)%list.
    rewrite He2, Hd2, He1, Hd1, app_assoc, run_stmts_app.
    repeat split. now apply trail_app.
  - exists q1. now repeat split.
Qed.

Lemma trails_leaves {A B} (c : M A) (k : A -> M B) :
  trails E c -> leaves c -> trails E (bind c k).
Proof.
  intros Hc Hl s. unfold bind.
  destruct (Hc s) as (q1 & He1 & Hd1 & Hp1).
  destruct (Hl s) as (sg & s1 & Hs). rewrite Hs in *.
  exists q1. now repeat split.
Qed.

Lemma trails_when (b : bool) (c : M unit) : trails E c -> trails E (when b c).
Proof. destruct b; [trivial | intros _; apply trails_ret]. Qed.

Lemma trails_record (q : stmt) (v : sqlval) :
  required_field q = Some v -> trails E (execute q).
Proof.
  intros Hq s. exists [q]. cbn. repeat split.
  apply (trail_record E q v); [exact Hq | constructor].
Qed.

(** An update of the inbox, the call of [log_event] with the text passed
    beside it, and what follows. *)
Lemma trails_transition {B} (u : inbox_update) (id : Z) (text event : string)
    (k : M B) :
  event = set_status u ->
  passed E u text ->
  trails E k ->
  trails E (execute (UpdateInbox u id) ;;
            execute (InsertLogEvents event id
                       (Py.take 2000 (if truthy (JStr text) then text else ""))) ;;
            k).
Proof.
  intros -> Hp Hk s. rewrite details_or_empty.
  pose (s2 := pending (InsertLogEvents (set_status u) id (Py.take 2000 text))
                (pending (UpdateInbox u id) s)).
  assert (Hrun : (execute (UpdateInbox u id) ;;
                  execute (InsertLogEvents (set_status u) id
                             (Py.take 2000 text)) ;; k) s = k s2)
    by reflexivity.
  rewrite Hrun. destruct (Hk s2) as (q & He & Hd & Ht).
  exists (UpdateInbox u id
          :: InsertLogEvents (set_status u) id (Py.take 2000 text) :: q).
  rewrite He, Hd. unfold s2, pending. cbn [executed db].
  split; [now rewrite <- !app_assoc|]. split; [reflexivity|].
  now apply trail_transition.
Qed.

End Trails.

Lemma leaves_raise {A} (e : exn) : leaves (@raise A e).
Proof. intros s. unfold raise. eauto. Qed.

Ltac trailing :=
  repeat first
    [ rewrite bind_ret
    | progress cbn [lift adapt]
    | apply trails_ret | apply trails_raise | apply trails_continue
    | apply trails_commit | apply trails_lift
    | apply trails_when
    | eapply trails_record; reflexivity
    | eapply trails_transition; [reflexivity | | ]
    | apply trails_bind; [|intros ?] ].

Lemma trails_file_people (E : Env) (id : Z) (raw : string) (fields : json)
    (conf : float) :
  trails E (file_people E id raw fields conf).
Proof.
  unfold file_people, INSERT_people, UPDATE_inbox, log_event. cbv zeta.
  trailing.
  apply (passed_missing E "people" conf). cbn. tauto.
Qed.

Lemma trails_file_projects (E : Env) (id : Z) (fields : json) (conf : float) :
  trails E (file_projects id fields conf).
Proof.
  unfold file_projects, INSERT_projects, UPDATE_inbox, log_event. cbv zeta.
  trailing.
  apply (passed_missing E "projects" conf). cbn. tauto.
Qed.

Lemma trails_file_admin (E : Env) (id : Z) (fields : json) (conf : float) :
  trails E (file_admin id fields conf).
Proof.
  unfold file_admin, INSERT_admin, UPDATE_inbox, log_event. cbv zeta.
  trailing.
  apply (passed_missing E "admin" conf). cbn. tauto.
Qed.

Lemma trails_file_ideas (E : Env) (id : Z) (result fields : json)
    (conf : float) :
  trails E (file_ideas id result fields conf).
Proof.
  unfold file_ideas, INSERT_ideas, UPDATE_inbox, log_event. cbv zeta.
  trailing.
  - match goal with |- trails _ (if ?b then _ else _) => destruct b end;
      trailing.
  - apply (passed_missing E "ideas" conf). cbn. tauto.
Qed.

Lemma trails_route_result (E : Env) (id : Z) (raw : string) (result : json) :
  trails E (route_result E id raw result).
Proof.
  unfold route_result.
  destruct result as [| | | | | |d];
    try (apply trails_leaves; [apply trails_raise | apply leaves_raise]).
  cbn [py_get lift]. rewrite !bind_ret.
  fold (category_of d).
  change (py_float E (py_or match dict_get d "confidence" with
                            | Some x => x
                            | None => JFloat float_zero
                            end (JFloat float_zero)))
    with (confidence_of E d).
  destruct (confidence_of E d) as [e|conf] eqn:Hconf; cbn [lift];
    [apply trails_leaves; [apply trails_raise | apply leaves_raise]|].
  rewrite !bind_ret. cbv zeta.
  set (fields := py_or match dict_get d "fields" with
                       | Some x => x
                       | None => JObj []
                       end (JObj [])).
  destruct (in_strs (category_of d) categories) eqn:Hin; cbn [negb orb].
  2: { cbn [when]. apply trails_leaves.
       - unfold UPDATE_inbox, log_event. trailing.
         apply (passed_refused E d "unknown" conf Hconf). now left.
       - repeat (apply leaves_bind; intros ?). apply leaves_continue. }
  destruct (in_strs_str _ _ Hin) as (cat & Hcat & Hcin). rewrite Hcat.
  destruct (SFltb conf CONF_THRESHOLD) eqn:Hlt; cbn [when].
  { apply trails_leaves.
    - unfold UPDATE_inbox, log_event. trailing.
      apply (passed_refused E d cat conf Hconf). right. now repeat split.
    - repeat (apply leaves_bind; intros ?). apply leaves_continue. }
  rewrite bind_ret.
  apply trails_bind.
  - cbn [In categories] in Hcin.
    destruct Hcin as [<-|[<-|[<-|[<-|[]]]]];
      cbn [eq_str]; cbv [String.eqb Ascii.eqb Bool.eqb];
      first [ apply trails_file_people | apply trails_file_projects
            | apply trails_file_ideas | apply trails_file_admin ].
  - intros _. unfold UPDATE_inbox, log_event. trailing.
    now apply (passed_filed E d cat conf).
Qed.

Lemma trails_prefix_stage (E : Env) (id : Z) (raw : string) :
  trails E (prefix_stage E id raw).
Proof.
  unfold prefix_stage.
  destruct (pre_route raw) as [[cat clean]|] eqn:Hpre; [|apply trails_ret].
  destruct (pre_route_inv _ _ _ Hpre) as [Hcat _].
  assert (Hempty : passed E (review cat float_one "prefix" "empty after prefix")
                     ("prefix " ++ cat ++ " but empty"))
    by now apply passed_prefix_empty.
  assert (Hroute : passed E (processed cat float_one "prefix")
                     ("prefix_route -> " ++ cat))
    by now apply passed_prefix_route.
  cbn [In categories] in Hcat.
  destruct Hcat as [<-|[<-|[<-|[<-|[]]]]];
    cbv [String.eqb Ascii.eqb Bool.eqb];
    unfold INSERT_people, INSERT_projects, INSERT_ideas, INSERT_admin,
      UPDATE_inbox, log_event; cbv zeta;
    trailing;
    first [exact Hempty | exact Hroute | apply passed_prefix_no_name].
Qed.

Lemma trails_retry_loop (E : Env) (raw : string) (attempts : list nat)
    (err : string) :
  trails E (retry_loop E raw attempts err).
Proof.
  apply trails_nothing. intros s.
  destruct (retry_loop_ends E raw attempts err s) as (k & res & err' & -> & _).
  now split.
Qed.

Lemma trails_loop_body (E : Env) (r : Z * string) : trails E (loop_body E r).
Proof.
  destruct r as [id raw]. unfold loop_body.
  apply trails_bind; [apply trails_prefix_stage | intros _].
  unfold fallback_stage.
  apply trails_bind; [apply trails_retry_loop | intros [result last_err]].
  apply trails_bind; [|intros _; apply trails_route_result].
  unfold UPDATE_inbox_error, log_event. trailing.
  apply (passed_total_failure E last_err).
Qed.

Lemma trails_for_rows (E : Env) (rows : list (Z * string)) :
  trails E (for_rows E rows).
Proof.
  induction rows as [|r rows IH]; [apply trails_ret|].
  intros s. cbn [for_rows].
  destruct (trails_loop_body E r s) as (q1 & He1 & Hd1 & Hp1).
  destruct (loop_body E r s) as [a s1|[e|] s1]; cbn [state_of] in *.
  1, 3: destruct (IH s1) as (q2 & He2 & Hd2 & Hp2);
    exists (q1 ++ q2)%list;
    rewrite He2, Hd2, He1, Hd1, app_assoc, run_stmts_app;
    repeat split; now apply trail_app.
  exists q1. now repeat split.
Qed.

Lemma trails_main (E : Env) (limit : Z) : trails E (main E limit).
Proof.
  unfold main, SELECT_unprocessed.
  apply trails_bind.
  - apply trails_bind; [apply trails_lift | intros _].
    apply trails_nothing. now intros s.
  - intros [|r rows]; [apply trails_ret|].
    apply trails_bind; [apply trails_for_rows | intros _; apply trails_ret].
Qed.

Lemma main_committed (E : Env) (limit : Z) (s : state) :
  committed s = db s ->
  committed (state_of (main E limit s)) = db (state_of (main E limit s)).
Proof.
  intros Hs.
  destruct (Z_le_dec int64_min limit) as [Hlo|Hlo];
    [destruct (Z_le_dec limit int64_max) as [Hhi|Hhi]|].
  - rewrite (main_run E limit s (conj Hlo Hhi)). unfold bind.
    assert (H := for_rows_committed E
                   (map (fun r => (inbox_id r, inbox_raw_text r))
                        (sql_limit limit (order_by_id (waiting (db s))))) s Hs).
    destruct (for_rows E _ s); exact H.
  - rewrite main_overflow; [exact Hs | intros [_ H]; contradiction].
  - rewrite main_overflow; [exact Hs | intros [H _]; contradiction].
Qed.

(** C8. In every run of [main], finished or left by an exception, each
    update of an inbox item to processed or needs_review is followed at
    once by one log event with the same item and the same status, whose
    details are the first 2000 characters of the text that the script
    passes beside that update; no log event is written without such an
    update, the tables are the result of these statements, and on a
    connection without pending changes all of them are committed. *)
Theorem every_transition_is_logged_once (E : Env) (limit : Z) (s : state) :
  exists qs,
    executed (state_of (main E limit s)) = (executed s ++ qs)%list
    /\ db (state_of (main E limit s)) = run_stmts qs (db s)
    /\ audited qs = true
    /\ trail E qs
    /\ (committed s = db s ->
        committed (state_of (main E limit s)) = run_stmts qs (db s)).
Proof.
  destruct (trails_main E limit s) as (qs & He & Hd & Ht).
  exists qs. split; [exact He|]. split; [exact Hd|].
  split; [exact (trail_audited E qs Ht)|]. split; [exact Ht|].
  intros Hs. rewrite <- Hd. now apply main_committed.
Qed.
